(** * MAVLink wire framing: [include/protocol.h]

    A shallow embedding of the frame finalizer, the stream buffer serializer,
    the per-channel byte parser and the field packing primitives of
    [protocol.h], with the properties of the protocol description proved (or
    refuted) on it.

    Integers are [Z] with the wrap-around of their C type written out; byte
    buffers are [list Z] updated by index; the static per-channel tables and
    the caller's out-parameters are threaded explicitly. *)

From Stdlib Require Import ZArith Lia Bool List.
From stdpp Require Import base list.

Local Open Scope Z_scope.

(** ** Machine integers *)

Definition uint8_t (z : Z) : Z := z mod 256.
Definition uint16_t (z : Z) : Z := z mod 65536.
Definition uint64_t (z : Z) : Z := z mod 18446744073709551616.

(** Value of a two's complement bit pattern of [w] bits read as signed. *)
Definition signed (w : Z) (z : Z) : Z :=
  let m := z mod 2 ^ w in
  if m <? 2 ^ (w - 1) then m else m - 2 ^ w.

(** ** [mavlink_types.h] *)

(** Modelled from the spec: [mavlink_types.h] is not among the sources.  The
    frame overheads are the ones of the wire format (5 header bytes after the
    delimiter, 2 checksum bytes, 8 bytes in all around the payload) and the
    payload capacity is the largest length one byte expresses. *)
Definition MAVLINK_MAX_PAYLOAD_LEN : Z := 255.
Definition MAVLINK_CORE_HEADER_LEN : Z := 5.
Definition MAVLINK_NUM_NON_PAYLOAD_BYTES : Z := 8.
Definition MAVLINK_NUM_NON_STX_PAYLOAD_BYTES : Z := 7.

(** Modelled from the spec: the enumeration [mavlink_parse_state_t] of
    [mavlink_types.h], numbered from 0 in the processing order of the
    states.  The stored state is kept as an integer, since the initializer
    tests it against the ends of the range. *)
Definition MAVLINK_PARSE_STATE_UNINIT : Z := 0.
Definition MAVLINK_PARSE_STATE_IDLE : Z := 1.
Definition MAVLINK_PARSE_STATE_GOT_STX : Z := 2.
Definition MAVLINK_PARSE_STATE_GOT_LENGTH : Z := 3.
Definition MAVLINK_PARSE_STATE_GOT_SEQ : Z := 4.
Definition MAVLINK_PARSE_STATE_GOT_SYSID : Z := 5.
Definition MAVLINK_PARSE_STATE_GOT_COMPID : Z := 6.
Definition MAVLINK_PARSE_STATE_GOT_MSGID : Z := 7.
Definition MAVLINK_PARSE_STATE_GOT_PAYLOAD : Z := 8.
Definition MAVLINK_PARSE_STATE_GOT_CRC1 : Z := 9.

(** Modelled from the spec: [mavlink_message_t] of [mavlink_types.h].  Every
    field is a [uint8_t]; [payload] is an array of
    [MAVLINK_MAX_PAYLOAD_LEN] bytes.  The fields are laid out in wire order,
    which [finalize_message] and [message_to_send_buffer] rely on when they
    read the struct as bytes. *)
Record mavlink_message_t : Type := mk_message {
  len : Z;
  seq : Z;
  sysid : Z;
  compid : Z;
  msgid : Z;
  payload : list Z;
  ck_a : Z;
  ck_b : Z
}.

(** Modelled from the spec: [mavlink_status_t] of [mavlink_types.h].  The
    8-bit fields wrap modulo 256, the two packet counters modulo 65536;
    [parse_state] holds the enumeration. *)
Record mavlink_status_t : Type := mk_status {
  status_ck_a : Z;
  status_ck_b : Z;
  msg_received : Z;
  buffer_overrun : Z;
  parse_error : Z;
  parse_state : Z;
  packet_idx : Z;
  current_seq : Z;
  packet_rx_success_count : Z;
  packet_rx_drop_count : Z
}.

(** Field assignments. *)
Definition with_len (v : Z) (m : mavlink_message_t) : mavlink_message_t :=
  mk_message v (seq m) (sysid m) (compid m) (msgid m) (payload m) (ck_a m) (ck_b m).
Definition with_seq (v : Z) (m : mavlink_message_t) : mavlink_message_t :=
  mk_message (len m) v (sysid m) (compid m) (msgid m) (payload m) (ck_a m) (ck_b m).
Definition with_sysid (v : Z) (m : mavlink_message_t) : mavlink_message_t :=
  mk_message (len m) (seq m) v (compid m) (msgid m) (payload m) (ck_a m) (ck_b m).
Definition with_compid (v : Z) (m : mavlink_message_t) : mavlink_message_t :=
  mk_message (len m) (seq m) (sysid m) v (msgid m) (payload m) (ck_a m) (ck_b m).
Definition with_msgid (v : Z) (m : mavlink_message_t) : mavlink_message_t :=
  mk_message (len m) (seq m) (sysid m) (compid m) v (payload m) (ck_a m) (ck_b m).
Definition with_payload (v : list Z) (m : mavlink_message_t) : mavlink_message_t :=
  mk_message (len m) (seq m) (sysid m) (compid m) (msgid m) v (ck_a m) (ck_b m).
Definition with_ck_a (v : Z) (m : mavlink_message_t) : mavlink_message_t :=
  mk_message (len m) (seq m) (sysid m) (compid m) (msgid m) (payload m) v (ck_b m).
Definition with_ck_b (v : Z) (m : mavlink_message_t) : mavlink_message_t :=
  mk_message (len m) (seq m) (sysid m) (compid m) (msgid m) (payload m) (ck_a m) v.

Definition with_msg_received (v : Z) (s : mavlink_status_t) : mavlink_status_t :=
  mk_status (status_ck_a s) (status_ck_b s) v (buffer_overrun s) (parse_error s)
    (parse_state s) (packet_idx s) (current_seq s)
    (packet_rx_success_count s) (packet_rx_drop_count s).
Definition with_buffer_overrun (v : Z) (s : mavlink_status_t) : mavlink_status_t :=
  mk_status (status_ck_a s) (status_ck_b s) (msg_received s) v (parse_error s)
    (parse_state s) (packet_idx s) (current_seq s)
    (packet_rx_success_count s) (packet_rx_drop_count s).
Definition with_parse_error (v : Z) (s : mavlink_status_t) : mavlink_status_t :=
  mk_status (status_ck_a s) (status_ck_b s) (msg_received s) (buffer_overrun s) v
    (parse_state s) (packet_idx s) (current_seq s)
    (packet_rx_success_count s) (packet_rx_drop_count s).
Definition with_parse_state (v : Z) (s : mavlink_status_t) : mavlink_status_t :=
  mk_status (status_ck_a s) (status_ck_b s) (msg_received s) (buffer_overrun s)
    (parse_error s) v (packet_idx s) (current_seq s)
    (packet_rx_success_count s) (packet_rx_drop_count s).
Definition with_packet_idx (v : Z) (s : mavlink_status_t) : mavlink_status_t :=
  mk_status (status_ck_a s) (status_ck_b s) (msg_received s) (buffer_overrun s)
    (parse_error s) (parse_state s) v (current_seq s)
    (packet_rx_success_count s) (packet_rx_drop_count s).
Definition with_current_seq (v : Z) (s : mavlink_status_t) : mavlink_status_t :=
  mk_status (status_ck_a s) (status_ck_b s) (msg_received s) (buffer_overrun s)
    (parse_error s) (parse_state s) (packet_idx s) v
    (packet_rx_success_count s) (packet_rx_drop_count s).
Definition with_packet_rx_success_count (v : Z) (s : mavlink_status_t) : mavlink_status_t :=
  mk_status (status_ck_a s) (status_ck_b s) (msg_received s) (buffer_overrun s)
    (parse_error s) (parse_state s) (packet_idx s) (current_seq s)
    v (packet_rx_drop_count s).
Definition with_packet_rx_drop_count (v : Z) (s : mavlink_status_t) : mavlink_status_t :=
  mk_status (status_ck_a s) (status_ck_b s) (msg_received s) (buffer_overrun s)
    (parse_error s) (parse_state s) (packet_idx s) (current_seq s)
    (packet_rx_success_count s) v.

(** The bytes of a [mavlink_message_t] object, as [(uint8_t* )msg] reads
    them: the struct has only byte fields, hence no padding. *)
Definition message_bytes (msg : mavlink_message_t) : list Z :=
  [len msg; seq msg; sysid msg; compid msg; msgid msg] ++ payload msg
    ++ [ck_a msg; ck_b msg].

(** [memcpy (dst + off, src, n)] on byte arrays. *)
Fixpoint memcpy (dst : list Z) (off : nat) (src : list Z) (n : nat) {struct n}
  : list Z :=
  match n, src with
  | S n', b :: src' => memcpy (<[off := b]> dst) (S off) src' n'
  | _, _ => dst
  end.

(** ** The checksum engine and the delimiter *)

(** [checksum.h] and the value of [MAVLINK_STX] are not among the sources:
    the delimiter byte, the seed and the one-byte recurrence of the running
    16-bit checksum are parameters of the development.  [X25] below is the
    instance the concrete runs use. *)
Class wire_params : Type := {
  MAVLINK_STX : Z;
  crc_seed : Z;
  crc_step : Z -> Z -> Z;
  MAVLINK_STX_byte : 0 <= MAVLINK_STX < 256
}.

Section Protocol.

Context {W : wire_params}.

(** [crcInit (&acc)] and [crcAccumulate (data, &acc)]: the accumulator is a
    [uint16_t] object, so whatever the recurrence computes is stored
    modulo 2^16. *)
Definition crcInit : Z := uint16_t crc_seed.
Definition crcAccumulate (data : Z) (crcAccum : Z) : Z :=
  uint16_t (crc_step data crcAccum).

(** Modelled from the spec: [crc_calculate] of [checksum.h] is not among the
    sources.  The checksum of a buffer is the engine run over its first
    [length] bytes: seeded, then one accumulation per byte. *)
Definition crc_calculate (pBuffer : list Z) (length : Z) : Z :=
  fold_left (fun acc b => crcAccumulate b acc)
            (take (Z.to_nat length) pBuffer) crcInit.

(** [union checksum_ { uint16_t s; uint8_t c[2]; }] on a little-endian
    host: [c[0]] is the low byte of [s] and [c[1]] the high byte, the order
    in which the trailer is compared. *)
Definition checksum_c0 (s : Z) : Z := s mod 256.
Definition checksum_c1 (s : Z) : Z := (s / 256) mod 256.
Definition checksum_s (c0 c1 : Z) : Z := c0 + 256 * c1.

(** ** Frame finalizer *)

(** [finalize_message]; the function-static counter [seq] is passed in and
    handed back.  Result: the message, the counter, the returned length. *)
Definition finalize_message (msg : mavlink_message_t)
    (system_id component_id length : Z) (static_seq : Z)
  : mavlink_message_t * Z * Z :=
  let msg := with_len (uint8_t length) msg in
  let msg := with_sysid system_id msg in
  let msg := with_compid component_id msg in
  let msg := with_seq static_seq msg in
  let static_seq := uint8_t (static_seq + 1) in
  let checksum :=
    crc_calculate (message_bytes msg) (length + MAVLINK_CORE_HEADER_LEN) in
  let msg := with_ck_a (uint8_t (Z.land checksum 255)) msg in
  let msg := with_ck_b (uint8_t (Z.shiftr checksum 8)) msg in
  (msg, static_seq, uint16_t (length + MAVLINK_NUM_NON_STX_PAYLOAD_BYTES)).

(** ** Stream buffer serializer *)

(** [message_to_send_buffer]: the caller's buffer after the writes, and the
    returned number of bytes to transmit. *)
Definition message_to_send_buffer (buffer : list Z) (msg : mavlink_message_t)
  : list Z * Z :=
  let buffer := <[0%nat := MAVLINK_STX]> buffer in
  let buffer :=
    memcpy buffer 1 (message_bytes msg)
           (Z.to_nat (len msg + MAVLINK_CORE_HEADER_LEN)) in
  let buffer :=
    <[Z.to_nat (len msg + MAVLINK_CORE_HEADER_LEN + 1) := ck_a msg]> buffer in
  let buffer :=
    <[Z.to_nat (len msg + MAVLINK_CORE_HEADER_LEN + 2) := ck_b msg]> buffer in
  (buffer, uint16_t (len msg + MAVLINK_NUM_NON_PAYLOAD_BYTES)).

Definition message_get_send_buffer_length (msg : mavlink_message_t) : Z :=
  uint16_t (len msg + MAVLINK_NUM_NON_PAYLOAD_BYTES).

(** ** Running checksum of the message under reassembly *)

Definition mavlink_start_checksum (msg : mavlink_message_t) : mavlink_message_t :=
  let ck := crcInit in
  let msg := with_ck_a (checksum_c0 ck) msg in
  with_ck_b (checksum_c1 ck) msg.

Definition mavlink_update_checksum (msg : mavlink_message_t) (c : Z)
  : mavlink_message_t :=
  let ck := checksum_s (ck_a msg) (ck_b msg) in
  let ck := crcAccumulate c ck in
  let msg := with_ck_a (checksum_c0 ck) msg in
  with_ck_b (checksum_c1 ck) msg.

(** ** Channel initializer *)

(** [mavlink_parse_state_initialize]: under the guard every field is
    assigned except [current_seq], which the function does not mention. *)
Definition mavlink_parse_state_initialize (initStatus : mavlink_status_t)
  : mavlink_status_t :=
  if (parse_state initStatus <=? MAVLINK_PARSE_STATE_UNINIT)
     || (parse_state initStatus >? MAVLINK_PARSE_STATE_GOT_CRC1)
  then
    mk_status 0 0 0 0 0 MAVLINK_PARSE_STATE_UNINIT 0 (current_seq initStatus) 0 0
  else initStatus.

(** ** Channel parser *)

(** The two static entries [m_mavlink_status[chan]] and
    [m_mavlink_message[chan]] that a call with channel number [chan] works
    on. *)
Record channel : Type := mk_channel {
  m_mavlink_status : mavlink_status_t;
  m_mavlink_message : mavlink_message_t
}.

(** What a call leaves behind: the returned value, the caller's two
    out-parameters, and the channel's static entries. *)
Record parse_result : Type := mk_result {
  returned : Z;
  r_message : mavlink_message_t;
  r_mavlink_status : mavlink_status_t;
  chan_after : channel
}.

(** The [while] loop of the loss accounting.  Each round counts one drop and
    advances the 8-bit [current_seq]; 256 rounds of fuel are more than the
    loop can take (see [seq_loop_closed]). *)
Fixpoint seq_loop (fuel : nat) (status : mavlink_status_t) (rxseq : Z)
  : mavlink_status_t :=
  match fuel with
  | O => status
  | S fuel' =>
      if negb (current_seq status =? rxseq) then
        let status :=
          with_packet_rx_drop_count
            (uint16_t (packet_rx_drop_count status + 1)) status in
        let status :=
          with_current_seq (uint8_t (current_seq status + 1)) status in
        seq_loop fuel' status rxseq
      else status
  end.

(** The [switch] on the parse state.  Result: status, message under
    reassembly, and the caller's [r_message].  The store to [payload] is a
    list update, which does nothing past the end of the array;
    [payload_cursor_within_length] shows that the index stays inside. *)
Definition parse_switch (c : Z) (status : mavlink_status_t)
    (rxmsg r_message : mavlink_message_t)
  : mavlink_status_t * mavlink_message_t * mavlink_message_t :=
  let st := parse_state status in
  if (st =? MAVLINK_PARSE_STATE_UNINIT) || (st =? MAVLINK_PARSE_STATE_IDLE) then
    if c =? MAVLINK_STX then
      (with_parse_state MAVLINK_PARSE_STATE_GOT_STX status,
       mavlink_start_checksum rxmsg, r_message)
    else (status, rxmsg, r_message)
  else if st =? MAVLINK_PARSE_STATE_GOT_STX then
    if negb (msg_received status =? 0) then
      let status := with_buffer_overrun (uint8_t (buffer_overrun status + 1)) status in
      let status := with_parse_error (uint8_t (parse_error status + 1)) status in
      let status := with_msg_received 0 status in
      (with_parse_state MAVLINK_PARSE_STATE_IDLE status, rxmsg, r_message)
    else
      let rxmsg := with_len c rxmsg in
      let status := with_packet_idx 0 status in
      let rxmsg := mavlink_update_checksum rxmsg c in
      (with_parse_state MAVLINK_PARSE_STATE_GOT_LENGTH status, rxmsg, r_message)
  else if st =? MAVLINK_PARSE_STATE_GOT_LENGTH then
    let rxmsg := with_seq c rxmsg in
    let rxmsg := mavlink_update_checksum rxmsg c in
    (with_parse_state MAVLINK_PARSE_STATE_GOT_SEQ status, rxmsg, r_message)
  else if st =? MAVLINK_PARSE_STATE_GOT_SEQ then
    let rxmsg := with_sysid c rxmsg in
    let rxmsg := mavlink_update_checksum rxmsg c in
    (with_parse_state MAVLINK_PARSE_STATE_GOT_SYSID status, rxmsg, r_message)
  else if st =? MAVLINK_PARSE_STATE_GOT_SYSID then
    let rxmsg := with_compid c rxmsg in
    let rxmsg := mavlink_update_checksum rxmsg c in
    (with_parse_state MAVLINK_PARSE_STATE_GOT_COMPID status, rxmsg, r_message)
  else if st =? MAVLINK_PARSE_STATE_GOT_COMPID then
    let rxmsg := with_msgid c rxmsg in
    let rxmsg := mavlink_update_checksum rxmsg c in
    if len rxmsg =? 0 then
      (with_parse_state MAVLINK_PARSE_STATE_GOT_PAYLOAD status, rxmsg, r_message)
    else
      (with_parse_state MAVLINK_PARSE_STATE_GOT_MSGID status, rxmsg, r_message)
  else if st =? MAVLINK_PARSE_STATE_GOT_MSGID then
    let rxmsg :=
      with_payload (<[Z.to_nat (packet_idx status) := c]> (payload rxmsg)) rxmsg in
    let status := with_packet_idx (uint8_t (packet_idx status + 1)) status in
    let rxmsg := mavlink_update_checksum rxmsg c in
    if packet_idx status =? len rxmsg then
      (with_parse_state MAVLINK_PARSE_STATE_GOT_PAYLOAD status, rxmsg, r_message)
    else (status, rxmsg, r_message)
  else if st =? MAVLINK_PARSE_STATE_GOT_PAYLOAD then
    if negb (c =? ck_a rxmsg) then
      let status := with_parse_error (uint8_t (parse_error status + 1)) status in
      let status := with_msg_received 0 status in
      (with_parse_state MAVLINK_PARSE_STATE_IDLE status, rxmsg, r_message)
    else
      (with_parse_state MAVLINK_PARSE_STATE_GOT_CRC1 status, rxmsg, r_message)
  else if st =? MAVLINK_PARSE_STATE_GOT_CRC1 then
    if negb (c =? ck_b rxmsg) then
      let status := with_parse_error (uint8_t (parse_error status + 1)) status in
      let status := with_msg_received 0 status in
      (with_parse_state MAVLINK_PARSE_STATE_IDLE status, rxmsg, r_message)
    else
      let status := with_msg_received 1 status in
      let status := with_parse_state MAVLINK_PARSE_STATE_IDLE status in
      (status, rxmsg, rxmsg)
  else (status, rxmsg, r_message).

(** The index of [payload] that a call in the payload-accumulation state
    stores to; no other call stores to [payload]. *)
Definition payload_store_index (ch : channel) : option Z :=
  let status := mavlink_parse_state_initialize (m_mavlink_status ch) in
  if parse_state status =? MAVLINK_PARSE_STATE_GOT_MSGID
  then Some (packet_idx status) else None.

(** The loss accounting after the [switch]. *)
Definition seq_accounting (status : mavlink_status_t) (rxmsg : mavlink_message_t)
  : mavlink_status_t :=
  if msg_received status =? 1 then
    let status := seq_loop 256 status (seq rxmsg) in
    let status := with_current_seq (seq rxmsg) status in
    let status :=
      if packet_rx_success_count status =? 0
      then with_packet_rx_drop_count 0 status else status in
    with_packet_rx_success_count
      (uint16_t (packet_rx_success_count status + 1)) status
  else status.

(** [mavlink_parse_char (chan, c, r_message, r_mavlink_status)], on the
    static entries [ch] of channel [chan]. *)
Definition mavlink_parse_char (ch : channel) (c : Z)
    (r_message : mavlink_message_t) (r_mavlink_status : mavlink_status_t)
  : parse_result :=
  let status := mavlink_parse_state_initialize (m_mavlink_status ch) in
  let rxmsg := m_mavlink_message ch in
  let status := with_msg_received 0 status in
  let '(status, rxmsg, r_message) := parse_switch c status rxmsg r_message in
  let status := seq_accounting status rxmsg in
  let r_mavlink_status :=
    with_current_seq (uint8_t (current_seq status + 1)) r_mavlink_status in
  let r_mavlink_status :=
    with_packet_rx_success_count (packet_rx_success_count status)
      r_mavlink_status in
  let r_mavlink_status :=
    with_packet_rx_drop_count (packet_rx_drop_count status) r_mavlink_status in
  mk_result (msg_received status) r_message r_mavlink_status
            (mk_channel status rxmsg).

(** ** Driving the parser over a byte stream *)

(** The caller's loop: one call per byte, with the same two out-parameters
    throughout.  The trace has one entry per byte: the decoded message when
    the call returned nonzero, nothing otherwise. *)
Record reader : Type := mk_reader {
  rd_channel : channel;
  rd_message : mavlink_message_t;
  rd_status : mavlink_status_t
}.

Definition read_byte (r : reader) (c : Z) : option mavlink_message_t * reader :=
  let res := mavlink_parse_char (rd_channel r) c (rd_message r) (rd_status r) in
  (if negb (returned res =? 0) then Some (r_message res) else None,
   mk_reader (chan_after res) (r_message res) (r_mavlink_status res)).

Fixpoint read_bytes (r : reader) (bytes : list Z)
  : list (option mavlink_message_t) * reader :=
  match bytes with
  | [] => ([], r)
  | c :: rest =>
      let '(o, r1) := read_byte r c in
      let '(os, r2) := read_bytes r1 rest in
      (o :: os, r2)
  end.

(** The parse state the channel is left in by each call of the loop. *)
Fixpoint states_along (r : reader) (bytes : list Z) : list Z :=
  match bytes with
  | [] => []
  | c :: rest =>
      let r1 := snd (read_byte r c) in
      parse_state (m_mavlink_status (rd_channel r1)) :: states_along r1 rest
  end.

(** The messages handed to the caller, in order. *)
Definition decoded (trace : list (option mavlink_message_t))
  : list mavlink_message_t :=
  omap id trace.

(** A channel nobody has used: the static entries are zero-initialized. *)
Definition zero_message : mavlink_message_t :=
  mk_message 0 0 0 0 0 (replicate (Z.to_nat MAVLINK_MAX_PAYLOAD_LEN) 0) 0 0.
Definition zero_status : mavlink_status_t := mk_status 0 0 0 0 0 0 0 0 0 0.
Definition fresh_channel : channel := mk_channel zero_status zero_message.

(** ** Notions the properties are stated with *)

(** The checksum of a byte sequence continued from an accumulator. *)
Definition crc_fold (acc : Z) (bytes : list Z) : Z :=
  fold_left (fun a b => crcAccumulate b a) bytes acc.

(** The status a call starts from: initialized, [msg_received] cleared. *)
Definition armed (ch : channel) : mavlink_status_t :=
  with_msg_received 0 (mavlink_parse_state_initialize (m_mavlink_status ch)).

(** What every call copies into the caller's [r_mavlink_status]. *)
Definition sync_status (s rs : mavlink_status_t) : mavlink_status_t :=
  with_packet_rx_drop_count (packet_rx_drop_count s)
    (with_packet_rx_success_count (packet_rx_success_count s)
       (with_current_seq (uint8_t (current_seq s + 1)) rs)).

(** The status after an acceptance: the loss accounting run on the status
    the [GOT_CRC1] branch leaves. *)
Definition accepted (s : mavlink_status_t) (rx : mavlink_message_t)
  : mavlink_status_t :=
  seq_accounting
    (with_parse_state MAVLINK_PARSE_STATE_IDLE (with_msg_received 1 s)) rx.

(** Next state after the message-kind byte. *)
Definition header_state (L : Z) : Z :=
  if L =? 0 then MAVLINK_PARSE_STATE_GOT_PAYLOAD
  else MAVLINK_PARSE_STATE_GOT_MSGID.

(** The wire format: delimiter, five header bytes, payload, two trailer
    bytes. *)
Definition wire_frame (L s sy co mi : Z) (pl : list Z) (a b : Z) : list Z :=
  MAVLINK_STX :: [L; s; sy; co; mi] ++ pl ++ [a; b].

(** The checksum of a frame: header without the delimiter, then payload. *)
Definition frame_checksum (L s sy co mi : Z) (pl : list Z) : Z :=
  crc_fold crcInit ([L; s; sy; co; mi] ++ pl).

(** A well-formed frame carries the low, then the high checksum byte. *)
Definition good_frame (L s sy co mi : Z) (pl : list Z) : list Z :=
  wire_frame L s sy co mi pl
    (checksum_c0 (frame_checksum L s sy co mi pl))
    (checksum_c1 (frame_checksum L s sy co mi pl)).

(** The message a channel has reassembled from a frame: the payload bytes
    over the front of what the buffer held before. *)
Definition reassembled (ch : channel) (L s sy co mi : Z) (pl : list Z)
  : mavlink_message_t :=
  mk_message L s sy co mi
    (pl ++ drop (length pl) (payload (m_mavlink_message ch)))
    (checksum_c0 (frame_checksum L s sy co mi pl))
    (checksum_c1 (frame_checksum L s sy co mi pl)).

Definition waits_for_frame (ch : channel) : Prop :=
  parse_state (m_mavlink_status ch) = MAVLINK_PARSE_STATE_UNINIT \/
  parse_state (m_mavlink_status ch) = MAVLINK_PARSE_STATE_IDLE.

(** What holds of the cursor on every channel the parser can be in: it
    stays within the length byte of the frame, strictly so while payload
    bytes are awaited, and it is 0 while the header is read. *)
Definition cursor_inv (ch : channel) : Prop :=
  let s := m_mavlink_status ch in
  let rx := m_mavlink_message ch in
  0 <= len rx <= 255 /\
  0 <= packet_idx s <= len rx /\
  (parse_state s = MAVLINK_PARSE_STATE_GOT_MSGID -> packet_idx s < len rx) /\
  (MAVLINK_PARSE_STATE_GOT_LENGTH <= parse_state s
     <= MAVLINK_PARSE_STATE_GOT_COMPID -> packet_idx s = 0).

End Protocol.

(** ** Field packing *)

(** [put_uint8_t_by_index] .. [put_float_by_index]: the returned size and
    the caller's buffer after the stores.  A [float] is given by the 32 bits
    of its object representation, which is what the union [generic_32bit]
    hands to [put_int32_t_by_index] as a signed integer. *)
Definition put_uint8_t_by_index (b bindex : Z) (buffer : list Z) : Z * list Z :=
  let buffer := <[Z.to_nat bindex := b]> buffer in
  (1, buffer).

Definition put_uint16_t_by_index (b bindex : Z) (buffer : list Z) : Z * list Z :=
  let buffer := <[Z.to_nat bindex := Z.land (Z.shiftr b 8) 255]> buffer in
  let buffer := <[Z.to_nat (bindex + 1) := Z.land b 255]> buffer in
  (2, buffer).

Definition put_int16_t_by_index (b bindex : Z) (buffer : list Z) : Z * list Z :=
  put_uint16_t_by_index (uint16_t b) bindex buffer.

Definition put_uint32_t_by_index (b bindex : Z) (buffer : list Z) : Z * list Z :=
  let buffer := <[Z.to_nat bindex := Z.land (Z.shiftr b 24) 255]> buffer in
  let buffer := <[Z.to_nat (bindex + 1) := Z.land (Z.shiftr b 16) 255]> buffer in
  let buffer := <[Z.to_nat (bindex + 2) := Z.land (Z.shiftr b 8) 255]> buffer in
  let buffer := <[Z.to_nat (bindex + 3) := Z.land b 255]> buffer in
  (4, buffer).

Definition put_int32_t_by_index (b bindex : Z) (buffer : list Z) : Z * list Z :=
  let buffer := <[Z.to_nat bindex := Z.land (Z.shiftr b 24) 255]> buffer in
  let buffer := <[Z.to_nat (bindex + 1) := Z.land (Z.shiftr b 16) 255]> buffer in
  let buffer := <[Z.to_nat (bindex + 2) := Z.land (Z.shiftr b 8) 255]> buffer in
  let buffer := <[Z.to_nat (bindex + 3) := Z.land b 255]> buffer in
  (4, buffer).

Definition put_uint64_t_by_index (b bindex : Z) (buffer : list Z) : Z * list Z :=
  let buffer := <[Z.to_nat bindex := Z.land (Z.shiftr b 56) 255]> buffer in
  let buffer := <[Z.to_nat (bindex + 1) := Z.land (Z.shiftr b 48) 255]> buffer in
  let buffer := <[Z.to_nat (bindex + 2) := Z.land (Z.shiftr b 40) 255]> buffer in
  let buffer := <[Z.to_nat (bindex + 3) := Z.land (Z.shiftr b 32) 255]> buffer in
  let buffer := <[Z.to_nat (bindex + 4) := Z.land (Z.shiftr b 24) 255]> buffer in
  let buffer := <[Z.to_nat (bindex + 5) := Z.land (Z.shiftr b 16) 255]> buffer in
  let buffer := <[Z.to_nat (bindex + 6) := Z.land (Z.shiftr b 8) 255]> buffer in
  let buffer := <[Z.to_nat (bindex + 7) := Z.land b 255]> buffer in
  (8, buffer).

Definition put_int64_t_by_index (b bindex : Z) (buffer : list Z) : Z * list Z :=
  put_uint64_t_by_index (uint64_t b) bindex buffer.

Definition put_float_by_index (b bindex : Z) (buffer : list Z) : Z * list Z :=
  let g_i := signed 32 b in
  put_int32_t_by_index g_i bindex buffer.

(** The [n] bytes of [v], most significant first, and the number a byte
    string denotes when read most significant byte first. *)
Fixpoint be_bytes (n : nat) (v : Z) : list Z :=
  match n with
  | O => []
  | S k => (v / 256 ^ Z.of_nat k) mod 256 :: be_bytes k v
  end.

Definition be_value (bytes : list Z) : Z :=
  fold_left (fun acc b => acc * 256 + b) bytes 0.

(** A call stored the [n] big-endian bytes of [v] at [bindex] and returned
    [n]. *)
Definition stored_big_endian (res : Z * list Z) (n : nat) (v : Z)
    (bindex : Z) (buffer : list Z) : Prop :=
  fst res = Z.of_nat n /\
  snd res = take (Z.to_nat bindex) buffer ++ be_bytes n v
              ++ drop (Z.to_nat bindex + n) buffer.

(** ** The X.25 checksum with the delimiter 85 *)

(** Modelled from the spec: [checksum.h] is not among the sources.  The
    checksum is a table-free 16-bit CRC, seeded with a fixed non-zero value
    and updated one byte at a time by an XOR/shift recurrence: here the
    X.25 recurrence seeded with 0xFFFF, with 85 as the delimiter byte.  Only
    the concrete runs at the end use this instance. *)

Definition X25_INIT_CRC : Z := 65535.

Definition x25_accumulate (data crcAccum : Z) : Z :=
  let tmp := Z.lxor data (Z.land crcAccum 255) in
  let tmp := uint8_t (Z.lxor tmp (Z.shiftl tmp 4)) in
  uint16_t (Z.lxor (Z.lxor (Z.lxor (Z.shiftr crcAccum 8) (Z.shiftl tmp 8))
                           (Z.shiftl tmp 3)) (Z.shiftr tmp 4)).

#[export] Instance X25 : wire_params :=
  {| MAVLINK_STX := 85; crc_seed := X25_INIT_CRC; crc_step := x25_accumulate;
     MAVLINK_STX_byte := ltac:(lia) |}.

(** ** Inputs of the concrete runs *)

(** A draft with four payload bytes, a status in the middle of a trailer and
    one that has just read the component id. *)
Definition demo_draft : mavlink_message_t :=
  with_payload ([1; 2; 3; 4] ++ replicate 251%nat 0) zero_message.

Definition demo_reader : reader :=
  mk_reader fresh_channel zero_message zero_status.

Definition in_trailer : channel :=
  mk_channel (mk_status 0 0 0 0 3 MAVLINK_PARSE_STATE_GOT_PAYLOAD 0 0 0 0)
             zero_message.

Definition after_compid : channel :=
  mk_channel (mk_status 0 0 0 0 0 MAVLINK_PARSE_STATE_GOT_COMPID 0 0 0 0)
             zero_message.

(** A status the parser never produces: state [UNINIT] with counters set. *)
Definition uninit_with_counters : mavlink_status_t :=
  mk_status 0 0 0 1 3 MAVLINK_PARSE_STATE_UNINIT 0 5 7 2.

(** A channel that has decoded frames before: [IDLE], with a payload buffer
    full of the byte 7; a draft whose header and trailer fields and whose
    payload beyond the fourth byte hold the byte 9; a status whose sequence
    number is 5 after two drops. *)
Definition used_channel : channel :=
  mk_channel (mk_status 0 0 0 0 0 MAVLINK_PARSE_STATE_IDLE 0 6 1 0)
             (with_payload (replicate 255%nat 7) zero_message).

Definition stale_draft : mavlink_message_t :=
  mk_message 9 9 9 9 0 ([1; 2; 3; 4] ++ replicate 251%nat 9) 9 9.

Definition counting_status : mavlink_status_t :=
  mk_status 0 0 1 0 0 MAVLINK_PARSE_STATE_IDLE 0 5 3 2.

(** ** The rest of [protocol.h] *)

(** [put_int8_by_index]: the byte stored is the value converted to
    [uint8_t].  The index parameter is an [int8_t]: the argument is
    converted to it, so an offset from 128 on arrives as a negative index
    and addresses memory before the buffer, which the list does not hold
    and is left as it is. *)
Definition put_int8_by_index (b bindex : Z) (buffer : list Z) : Z * list Z :=
  let bindex := signed 8 bindex in
  let buffer :=
    if 0 <=? bindex then <[Z.to_nat bindex := uint8_t b]> buffer else buffer in
  (1, buffer).

(** [put_array_by_index]: [b] is the array as the bytes [memcpy] reads. *)
Definition put_array_by_index (b : list Z) (length bindex : Z)
    (buffer : list Z) : Z * list Z :=
  let buffer := memcpy buffer (Z.to_nat bindex) b (Z.to_nat length) in
  (length, buffer).

Section Uart.

Context {W : wire_params}.

(** [comm_send_ch] is the byte-send hook the MCU build leaves to its user:
    any function that takes the state of the outside world to the next. *)
Variable world : Type.
Variable comm_send_ch : Z -> Z -> world -> world.

(** The [for] loop of [mavlink_send_uart] over the [uint16_t] index [i];
    the length is a byte, so 256 rounds of fuel are more than it takes. *)
Fixpoint send_payload_loop (fuel : nat) (chan : Z) (msg : mavlink_message_t)
    (i : Z) (w : world) : world :=
  match fuel with
  | O => w
  | S fuel' =>
      if i <? len msg then
        let w := comm_send_ch chan (default 0 (payload msg !! Z.to_nat i)) w in
        send_payload_loop fuel' chan msg (uint16_t (i + 1)) w
      else w
  end.

Definition mavlink_send_uart (chan : Z) (msg : mavlink_message_t) (w : world)
  : world :=
  let w := comm_send_ch chan MAVLINK_STX w in
  let w := comm_send_ch chan (len msg) w in
  let w := comm_send_ch chan (seq msg) w in
  let w := comm_send_ch chan (sysid msg) w in
  let w := comm_send_ch chan (compid msg) w in
  let w := comm_send_ch chan (msgid msg) w in
  let w := send_payload_loop 256 chan msg 0 w in
  let w := comm_send_ch chan (ck_a msg) w in
  comm_send_ch chan (ck_b msg) w.

(** [send_debug_string]: [string] is the memory from the pointer on; the
    loop stops at the first zero byte.  Memory that ends before a zero byte
    is not a C string, and the loop stops there as well. *)
Fixpoint send_debug_string (chan : Z) (string : list Z) (w : world) : world :=
  match string with
  | [] => w
  | c :: rest =>
      if negb (c =? 0) then send_debug_string chan rest (comm_send_ch chan c w)
      else w
  end.

(** Sending a list of bytes one after the other. *)
Definition send_all (chan : Z) (bytes : list Z) (w : world) : world :=
  fold_left (fun w b => comm_send_ch chan b w) bytes w.

End Uart.

(** Finalizing one draft after the other, as a sender does: the
    function-static counter of [finalize_message] goes from each call to the
    next.  Each draft comes with the [length] its call is given. *)
Fixpoint finalize_each {W : wire_params} (drafts : list (mavlink_message_t * Z))
    (system_id component_id static_seq : Z) : list mavlink_message_t * Z :=
  match drafts with
  | [] => ([], static_seq)
  | (draft, length) :: rest =>
      let '(msg, static_seq, _) :=
        finalize_message draft system_id component_id length static_seq in
      let '(msgs, static_seq) :=
        finalize_each rest system_id component_id static_seq in
      (msg :: msgs, static_seq)
  end.

(** A [comm_send_ch] for a serial line that records what is sent: the byte
    is appended to the bytes on the line, whatever the channel. *)
Definition line_send (chan ch : Z) (line : list Z) : list Z := line ++ [ch].

Section Streams.

Context {W : wire_params}.

(** What a frame carries, and a byte stream of frames with bytes other than
    the delimiter in front of each. *)
Record frame : Type := mk_frame {
  f_len : Z;
  f_seq : Z;
  f_sysid : Z;
  f_compid : Z;
  f_msgid : Z;
  f_payload : list Z
}.

Definition frame_ok (f : frame) : Prop :=
  Z.of_nat (length (f_payload f)) = f_len f /\ f_len f <= 255.

Definition frame_bytes (f : frame) : list Z :=
  good_frame (f_len f) (f_seq f) (f_sysid f) (f_compid f) (f_msgid f)
             (f_payload f).

Definition carries (m : mavlink_message_t) (f : frame) : Prop :=
  len m = f_len f /\ seq m = f_seq f /\ sysid m = f_sysid f /\
  compid m = f_compid f /\ msgid m = f_msgid f /\
  take (length (f_payload f)) (payload m) = f_payload f.

Definition noise_ok (noise : list Z) : Prop :=
  Forall (fun c => c <> MAVLINK_STX) noise.

Definition stream (items : list (list Z * frame)) : list Z :=
  concat (map (fun it => fst it ++ frame_bytes (snd it)) items).

(** The condition under which a call counts a parse error. *)
Definition trailer_mismatch (ch : channel) (c : Z) : Prop :=
  (parse_state (m_mavlink_status ch) = MAVLINK_PARSE_STATE_GOT_PAYLOAD /\
   c <> ck_a (m_mavlink_message ch)) \/
  (parse_state (m_mavlink_status ch) = MAVLINK_PARSE_STATE_GOT_CRC1 /\
   c <> ck_b (m_mavlink_message ch)).

Definition channel_started (ch : channel) : Prop :=
  MAVLINK_PARSE_STATE_IDLE <= parse_state (m_mavlink_status ch)
    <= MAVLINK_PARSE_STATE_GOT_CRC1.

End Streams.

(** Two frames, the first after two bytes of noise. *)
Definition demo_stream : list (list Z * frame) :=
  [([1; 2], mk_frame 1 8 1 1 3 [5]); ([], mk_frame 0 9 1 1 0 [])].

(** * Properties *)

Arguments uint8_t : simpl never.
Arguments uint16_t : simpl never.
Arguments checksum_c0 : simpl never.
Arguments checksum_c1 : simpl never.
Arguments checksum_s : simpl never.
Arguments crcAccumulate : simpl never.
Arguments crcInit : simpl never.
Arguments seq_loop : simpl never.

(** ** Machine integers *)

Lemma uint8_t_small (z : Z) : 0 <= z < 256 -> uint8_t z = z.
Proof. intros H. unfold uint8_t. apply Z.mod_small. exact H. Qed.

Lemma uint16_t_small (z : Z) : 0 <= z < 65536 -> uint16_t z = z.
Proof. intros H. unfold uint16_t. apply Z.mod_small. exact H. Qed.

Lemma uint8_t_range (z : Z) : 0 <= uint8_t z < 256.
Proof. unfold uint8_t. apply Z.mod_pos_bound. lia. Qed.

Lemma uint16_t_range (z : Z) : 0 <= uint16_t z < 65536.
Proof. unfold uint16_t. apply Z.mod_pos_bound. lia. Qed.

Lemma checksum_c0_range (s : Z) : 0 <= checksum_c0 s < 256.
Proof. unfold checksum_c0. apply Z.mod_pos_bound. lia. Qed.

Lemma checksum_c1_range (s : Z) : 0 <= checksum_c1 s < 256.
Proof. unfold checksum_c1. apply Z.mod_pos_bound. lia. Qed.

(** The two bytes of the union hold the whole 16-bit accumulator. *)
Lemma checksum_s_split (s : Z) :
  0 <= s < 65536 -> checksum_s (checksum_c0 s) (checksum_c1 s) = s.
Proof.
  intros H. unfold checksum_s, checksum_c0, checksum_c1.
  rewrite (Z.mod_small (s / 256)).
  - rewrite (Z.div_mod s 256) at 3 by lia. lia.
  - split; [apply Z.div_pos; lia | apply Z.div_lt_upper_bound; lia].
Qed.

(** What [finalize_message] stores is the same split of the checksum. *)
Lemma finalize_low_byte (s : Z) :
  0 <= s < 65536 -> uint8_t (Z.land s 255) = checksum_c0 s.
Proof.
  intros H. change 255 with (Z.ones 8). rewrite Z.land_ones by lia.
  unfold uint8_t, checksum_c0. change (2 ^ 8) with 256.
  apply Z.mod_small. apply Z.mod_pos_bound. lia.
Qed.

Lemma finalize_high_byte (s : Z) : uint8_t (Z.shiftr s 8) = checksum_c1 s.
Proof.
  rewrite Z.shiftr_div_pow2 by lia. reflexivity.
Qed.

Section ProtocolFacts.

Context {W : wire_params}.

Lemma crcInit_range : 0 <= crcInit < 65536.
Proof. apply uint16_t_range. Qed.

Lemma crcAccumulate_range (c s : Z) : 0 <= crcAccumulate c s < 65536.
Proof. apply uint16_t_range. Qed.

Lemma crc_fold_range (acc : Z) (bytes : list Z) :
  0 <= acc < 65536 -> 0 <= crc_fold acc bytes < 65536.
Proof.
  revert acc. induction bytes as [|b bytes IH]; intros acc H; simpl; [exact H|].
  apply IH. apply crcAccumulate_range.
Qed.

Lemma crc_fold_app (acc : Z) (xs ys : list Z) :
  crc_fold acc (xs ++ ys) = crc_fold (crc_fold acc xs) ys.
Proof. unfold crc_fold. apply fold_left_app. Qed.

(** ** The channel initializer *)

Lemma initialize_valid (s : mavlink_status_t) :
  MAVLINK_PARSE_STATE_UNINIT < parse_state s <= MAVLINK_PARSE_STATE_GOT_CRC1 ->
  mavlink_parse_state_initialize s = s.
Proof.
  unfold MAVLINK_PARSE_STATE_UNINIT, MAVLINK_PARSE_STATE_GOT_CRC1.
  intros H. unfold mavlink_parse_state_initialize.
  destruct (Z.leb_spec (parse_state s) MAVLINK_PARSE_STATE_UNINIT) as [H1|H1];
    unfold MAVLINK_PARSE_STATE_UNINIT in H1; [lia|].
  destruct (Z.gtb_spec (parse_state s) MAVLINK_PARSE_STATE_GOT_CRC1) as [H2|H2];
    unfold MAVLINK_PARSE_STATE_GOT_CRC1 in H2; [lia|].
  reflexivity.
Qed.

(** ** Single calls of the parser *)

Lemma seq_loop_S (fuel : nat) (s : mavlink_status_t) (x : Z) :
  seq_loop (S fuel) s x =
  if negb (current_seq s =? x) then
    seq_loop fuel
      (with_current_seq (uint8_t (current_seq s + 1))
         (with_packet_rx_drop_count (uint16_t (packet_rx_drop_count s + 1)) s)) x
  else s.
Proof. reflexivity. Qed.

Lemma seq_loop_msg_received (fuel : nat) (s : mavlink_status_t) (x : Z) :
  msg_received (seq_loop fuel s x) = msg_received s.
Proof.
  revert s. induction fuel as [|fuel IH]; intros s; [reflexivity|].
  rewrite seq_loop_S.
  destruct (current_seq s =? x); cbn [negb]; [reflexivity|].
  rewrite IH. reflexivity.
Qed.

Lemma seq_accounting_idle (s : mavlink_status_t) (m : mavlink_message_t) :
  msg_received s = 0 -> seq_accounting s m = s.
Proof. intros H. unfold seq_accounting. rewrite H. reflexivity. Qed.

Lemma seq_accounting_msg_received (s : mavlink_status_t) (m : mavlink_message_t) :
  msg_received (seq_accounting s m) = msg_received s.
Proof.
  unfold seq_accounting. destruct (msg_received s =? 1) eqn:E; [|reflexivity].
  generalize 256%nat. intros fuel.
  destruct (packet_rx_success_count _ =? 0); cbn [msg_received
    with_packet_rx_success_count with_packet_rx_drop_count with_current_seq];
    apply seq_loop_msg_received.
Qed.

Lemma parse_char_unfold (ch : channel) (c : Z) (rm : mavlink_message_t)
    (rs : mavlink_status_t) :
  mavlink_parse_char ch c rm rs =
  let '(status, rxmsg, r_message) :=
    parse_switch c (armed ch) (m_mavlink_message ch) rm in
  let status := seq_accounting status rxmsg in
  mk_result (msg_received status) r_message
    (with_packet_rx_drop_count (packet_rx_drop_count status)
       (with_packet_rx_success_count (packet_rx_success_count status)
          (with_current_seq (uint8_t (current_seq status + 1)) rs)))
    (mk_channel status rxmsg).
Proof. reflexivity. Qed.

Ltac fields :=
  cbn [len seq sysid compid msgid payload ck_a ck_b
       status_ck_a status_ck_b msg_received buffer_overrun parse_error
       parse_state packet_idx current_seq packet_rx_success_count
       packet_rx_drop_count
       with_len with_seq with_sysid with_compid with_msgid with_payload
       with_ck_a with_ck_b with_msg_received with_buffer_overrun
       with_parse_error with_parse_state with_packet_idx with_current_seq
       with_packet_rx_success_count with_packet_rx_drop_count
       m_mavlink_status m_mavlink_message rd_channel rd_message rd_status
       returned r_message r_mavlink_status chan_after].

(** Evaluate the closed right-hand side of an equation. *)
Ltac eval_rhs H :=
  match type of H with
  | _ = ?rhs => let v := eval vm_compute in rhs in change rhs with v in H
  end.

Ltac switch_state H :=
  unfold parse_switch; cbn [parse_state with_msg_received]; rewrite H;
  cbn [Z.eqb Pos.eqb orb negb
       MAVLINK_PARSE_STATE_UNINIT MAVLINK_PARSE_STATE_IDLE
       MAVLINK_PARSE_STATE_GOT_STX MAVLINK_PARSE_STATE_GOT_LENGTH
       MAVLINK_PARSE_STATE_GOT_SEQ MAVLINK_PARSE_STATE_GOT_SYSID
       MAVLINK_PARSE_STATE_GOT_COMPID MAVLINK_PARSE_STATE_GOT_MSGID
       MAVLINK_PARSE_STATE_GOT_PAYLOAD MAVLINK_PARSE_STATE_GOT_CRC1].

Lemma armed_started (s : mavlink_status_t) (rx : mavlink_message_t) :
  MAVLINK_PARSE_STATE_IDLE <= parse_state s <= MAVLINK_PARSE_STATE_GOT_CRC1 ->
  msg_received s = 0 ->
  armed (mk_channel s rx) = s.
Proof.
  intros Hs Hm. unfold armed. cbn [m_mavlink_status].
  rewrite initialize_valid
    by (unfold MAVLINK_PARSE_STATE_IDLE, MAVLINK_PARSE_STATE_UNINIT in *; lia).
  destruct s; cbn in *; subst; reflexivity.
Qed.

Lemma armed_msg_received (ch : channel) : msg_received (armed ch) = 0.
Proof. reflexivity. Qed.

Lemma armed_parse_state (ch : channel) :
  MAVLINK_PARSE_STATE_UNINIT <= parse_state (m_mavlink_status ch)
    <= MAVLINK_PARSE_STATE_GOT_CRC1 ->
  parse_state (armed ch) = parse_state (m_mavlink_status ch).
Proof.
  intros H. unfold armed. cbn [parse_state with_msg_received].
  unfold mavlink_parse_state_initialize.
  destruct (Z.leb_spec (parse_state (m_mavlink_status ch))
                       MAVLINK_PARSE_STATE_UNINIT) as [H1|H1]; cbn [orb].
  - cbn [parse_state]. lia.
  - destruct (Z.gtb_spec (parse_state (m_mavlink_status ch))
                         MAVLINK_PARSE_STATE_GOT_CRC1) as [H2|H2];
      [lia | reflexivity].
Qed.

(** A call on a started channel, read through the caller's loop. *)
Lemma read_byte_started (s : mavlink_status_t) (rx rm : mavlink_message_t)
    (rs : mavlink_status_t) (c : Z) :
  MAVLINK_PARSE_STATE_IDLE <= parse_state s <= MAVLINK_PARSE_STATE_GOT_CRC1 ->
  msg_received s = 0 ->
  read_byte (mk_reader (mk_channel s rx) rm rs) c =
  let '(status, rxmsg, r_message) := parse_switch c s rx rm in
  let status := seq_accounting status rxmsg in
  (if negb (msg_received status =? 0) then Some r_message else None,
   mk_reader (mk_channel status rxmsg) r_message (sync_status status rs)).
Proof.
  intros Hs Hm. unfold read_byte. cbn [rd_channel rd_message rd_status].
  rewrite parse_char_unfold, (armed_started s rx Hs Hm).
  cbn [m_mavlink_message].
  destruct (parse_switch c s rx rm) as [[s' rx'] rm']. reflexivity.
Qed.

Ltac started H Hm :=
  rewrite read_byte_started;
  [ switch_state H
  | rewrite H; unfold MAVLINK_PARSE_STATE_IDLE,
      MAVLINK_PARSE_STATE_GOT_STX, MAVLINK_PARSE_STATE_GOT_LENGTH,
      MAVLINK_PARSE_STATE_GOT_SEQ, MAVLINK_PARSE_STATE_GOT_SYSID,
      MAVLINK_PARSE_STATE_GOT_COMPID, MAVLINK_PARSE_STATE_GOT_MSGID,
      MAVLINK_PARSE_STATE_GOT_PAYLOAD, MAVLINK_PARSE_STATE_GOT_CRC1; lia
  | exact Hm ].

Ltac quiet Hm :=
  rewrite seq_accounting_idle by exact Hm; cbn [msg_received with_parse_state
    with_packet_idx with_parse_error with_msg_received]; rewrite ?Hm;
  cbn [Z.eqb negb].

(** Waiting for the delimiter. *)
Lemma read_idle_stx (ch : channel) (rm : mavlink_message_t) (rs : mavlink_status_t) :
  parse_state (m_mavlink_status ch) = MAVLINK_PARSE_STATE_UNINIT \/
  parse_state (m_mavlink_status ch) = MAVLINK_PARSE_STATE_IDLE ->
  read_byte (mk_reader ch rm rs) MAVLINK_STX =
  (None,
   mk_reader
     (mk_channel (with_parse_state MAVLINK_PARSE_STATE_GOT_STX (armed ch))
                 (mavlink_start_checksum (m_mavlink_message ch)))
     rm (sync_status (armed ch) rs)).
Proof.
  intros H. unfold read_byte. cbn [rd_channel rd_message rd_status].
  rewrite parse_char_unfold.
  assert (Hst : parse_state (armed ch) = MAVLINK_PARSE_STATE_UNINIT \/
                parse_state (armed ch) = MAVLINK_PARSE_STATE_IDLE).
  { rewrite armed_parse_state; [exact H|].
    unfold MAVLINK_PARSE_STATE_UNINIT, MAVLINK_PARSE_STATE_IDLE,
      MAVLINK_PARSE_STATE_GOT_CRC1 in *. lia. }
  pose proof (armed_msg_received ch) as Hm.
  generalize dependent (armed ch). intros s Hst Hm.
  destruct Hst as [Hst|Hst]; switch_state Hst; rewrite Z.eqb_refl;
    rewrite seq_accounting_idle by exact Hm;
    cbn [msg_received with_parse_state]; rewrite Hm; reflexivity.
Qed.

Lemma read_idle_other (ch : channel) (rm : mavlink_message_t)
    (rs : mavlink_status_t) (c : Z) :
  parse_state (m_mavlink_status ch) = MAVLINK_PARSE_STATE_UNINIT \/
  parse_state (m_mavlink_status ch) = MAVLINK_PARSE_STATE_IDLE ->
  c <> MAVLINK_STX ->
  read_byte (mk_reader ch rm rs) c =
  (None,
   mk_reader (mk_channel (armed ch) (m_mavlink_message ch))
             rm (sync_status (armed ch) rs)).
Proof.
  intros H Hc. unfold read_byte. cbn [rd_channel rd_message rd_status].
  rewrite parse_char_unfold.
  assert (Hst : parse_state (armed ch) = MAVLINK_PARSE_STATE_UNINIT \/
                parse_state (armed ch) = MAVLINK_PARSE_STATE_IDLE).
  { rewrite armed_parse_state; [exact H|].
    unfold MAVLINK_PARSE_STATE_UNINIT, MAVLINK_PARSE_STATE_IDLE,
      MAVLINK_PARSE_STATE_GOT_CRC1 in *. lia. }
  pose proof (armed_msg_received ch) as Hm.
  generalize dependent (armed ch). intros s Hst Hm.
  apply Z.eqb_neq in Hc.
  destruct Hst as [Hst|Hst]; switch_state Hst; rewrite Hc;
    rewrite seq_accounting_idle by exact Hm; rewrite Hm; reflexivity.
Qed.

(** The header bytes. *)
Lemma read_got_stx (s : mavlink_status_t) (rx rm : mavlink_message_t)
    (rs : mavlink_status_t) (c : Z) :
  parse_state s = MAVLINK_PARSE_STATE_GOT_STX -> msg_received s = 0 ->
  read_byte (mk_reader (mk_channel s rx) rm rs) c =
  (None,
   mk_reader
     (mk_channel
        (with_parse_state MAVLINK_PARSE_STATE_GOT_LENGTH (with_packet_idx 0 s))
        (mavlink_update_checksum (with_len c rx) c))
     rm (sync_status s rs)).
Proof.
  intros Hs Hm. started Hs Hm. rewrite Hm. cbn [Z.eqb negb]. quiet Hm.
  reflexivity.
Qed.

Lemma read_got_length (s : mavlink_status_t) (rx rm : mavlink_message_t)
    (rs : mavlink_status_t) (c : Z) :
  parse_state s = MAVLINK_PARSE_STATE_GOT_LENGTH -> msg_received s = 0 ->
  read_byte (mk_reader (mk_channel s rx) rm rs) c =
  (None,
   mk_reader
     (mk_channel (with_parse_state MAVLINK_PARSE_STATE_GOT_SEQ s)
                 (mavlink_update_checksum (with_seq c rx) c))
     rm (sync_status s rs)).
Proof. intros Hs Hm. started Hs Hm. quiet Hm. reflexivity. Qed.

Lemma read_got_seq (s : mavlink_status_t) (rx rm : mavlink_message_t)
    (rs : mavlink_status_t) (c : Z) :
  parse_state s = MAVLINK_PARSE_STATE_GOT_SEQ -> msg_received s = 0 ->
  read_byte (mk_reader (mk_channel s rx) rm rs) c =
  (None,
   mk_reader
     (mk_channel (with_parse_state MAVLINK_PARSE_STATE_GOT_SYSID s)
                 (mavlink_update_checksum (with_sysid c rx) c))
     rm (sync_status s rs)).
Proof. intros Hs Hm. started Hs Hm. quiet Hm. reflexivity. Qed.

Lemma read_got_sysid (s : mavlink_status_t) (rx rm : mavlink_message_t)
    (rs : mavlink_status_t) (c : Z) :
  parse_state s = MAVLINK_PARSE_STATE_GOT_SYSID -> msg_received s = 0 ->
  read_byte (mk_reader (mk_channel s rx) rm rs) c =
  (None,
   mk_reader
     (mk_channel (with_parse_state MAVLINK_PARSE_STATE_GOT_COMPID s)
                 (mavlink_update_checksum (with_compid c rx) c))
     rm (sync_status s rs)).
Proof. intros Hs Hm. started Hs Hm. quiet Hm. reflexivity. Qed.

Lemma read_got_compid (s : mavlink_status_t) (rx rm : mavlink_message_t)
    (rs : mavlink_status_t) (c : Z) :
  parse_state s = MAVLINK_PARSE_STATE_GOT_COMPID -> msg_received s = 0 ->
  read_byte (mk_reader (mk_channel s rx) rm rs) c =
  (None,
   mk_reader
     (mk_channel
        (with_parse_state
           (if len rx =? 0 then MAVLINK_PARSE_STATE_GOT_PAYLOAD
            else MAVLINK_PARSE_STATE_GOT_MSGID) s)
        (mavlink_update_checksum (with_msgid c rx) c))
     rm (sync_status s rs)).
Proof.
  intros Hs Hm. started Hs Hm.
  cbn [len mavlink_update_checksum with_msgid with_ck_a with_ck_b].
  destruct (len rx =? 0); quiet Hm; reflexivity.
Qed.

(** The payload bytes. *)
Lemma read_got_msgid (s : mavlink_status_t) (rx rm : mavlink_message_t)
    (rs : mavlink_status_t) (c : Z) :
  parse_state s = MAVLINK_PARSE_STATE_GOT_MSGID -> msg_received s = 0 ->
  read_byte (mk_reader (mk_channel s rx) rm rs) c =
  (None,
   mk_reader
     (mk_channel
        (if uint8_t (packet_idx s + 1) =? len rx
         then with_parse_state MAVLINK_PARSE_STATE_GOT_PAYLOAD
                (with_packet_idx (uint8_t (packet_idx s + 1)) s)
         else with_packet_idx (uint8_t (packet_idx s + 1)) s)
        (mavlink_update_checksum
           (with_payload (<[Z.to_nat (packet_idx s) := c]> (payload rx)) rx) c))
     rm (sync_status s rs)).
Proof.
  intros Hs Hm. started Hs Hm.
  cbn [len packet_idx mavlink_update_checksum with_payload with_packet_idx
       with_ck_a with_ck_b].
  destruct (uint8_t (packet_idx s + 1) =? len rx); quiet Hm; reflexivity.
Qed.

(** The checksum trailer. *)
Lemma read_got_payload_match (s : mavlink_status_t) (rx rm : mavlink_message_t)
    (rs : mavlink_status_t) (c : Z) :
  parse_state s = MAVLINK_PARSE_STATE_GOT_PAYLOAD -> msg_received s = 0 ->
  c = ck_a rx ->
  read_byte (mk_reader (mk_channel s rx) rm rs) c =
  (None,
   mk_reader (mk_channel (with_parse_state MAVLINK_PARSE_STATE_GOT_CRC1 s) rx)
             rm (sync_status s rs)).
Proof.
  intros Hs Hm Hc. started Hs Hm. rewrite Hc, Z.eqb_refl. cbn [negb].
  quiet Hm. reflexivity.
Qed.

Lemma read_got_payload_mismatch (s : mavlink_status_t)
    (rx rm : mavlink_message_t) (rs : mavlink_status_t) (c : Z) :
  parse_state s = MAVLINK_PARSE_STATE_GOT_PAYLOAD -> msg_received s = 0 ->
  c <> ck_a rx ->
  read_byte (mk_reader (mk_channel s rx) rm rs) c =
  (None,
   mk_reader
     (mk_channel
        (with_parse_state MAVLINK_PARSE_STATE_IDLE
           (with_parse_error (uint8_t (parse_error s + 1)) s)) rx)
     rm (sync_status s rs)).
Proof.
  intros Hs Hm Hc. started Hs Hm. apply Z.eqb_neq in Hc. rewrite Hc. cbn [negb].
  rewrite seq_accounting_idle by reflexivity.
  destruct s; cbn in *; subst; reflexivity.
Qed.


Lemma read_got_crc1_match (s : mavlink_status_t) (rx rm : mavlink_message_t)
    (rs : mavlink_status_t) (c : Z) :
  parse_state s = MAVLINK_PARSE_STATE_GOT_CRC1 -> msg_received s = 0 ->
  c = ck_b rx ->
  read_byte (mk_reader (mk_channel s rx) rm rs) c =
  (Some rx,
   mk_reader (mk_channel (accepted s rx) rx) rx
             (sync_status (accepted s rx) rs)).
Proof.
  intros Hs Hm Hc. started Hs Hm. rewrite Hc, Z.eqb_refl. cbn [negb].
  rewrite seq_accounting_msg_received. cbn [msg_received with_parse_state
    with_msg_received Z.eqb negb]. reflexivity.
Qed.

(** ** Runs of the caller's loop *)

Lemma read_bytes_cons (r : reader) (c : Z) (bytes : list Z) :
  read_bytes r (c :: bytes) =
  (fst (read_byte r c) :: fst (read_bytes (snd (read_byte r c)) bytes),
   snd (read_bytes (snd (read_byte r c)) bytes)).
Proof.
  cbn [read_bytes]. destruct (read_byte r c) as [o r1]. cbn [fst snd].
  destruct (read_bytes r1 bytes) as [os r2]. reflexivity.
Qed.

Lemma read_bytes_app (r : reader) (xs ys : list Z) :
  read_bytes r (xs ++ ys) =
  (fst (read_bytes r xs) ++ fst (read_bytes (snd (read_bytes r xs)) ys),
   snd (read_bytes (snd (read_bytes r xs)) ys)).
Proof.
  revert r. induction xs as [|x xs IH]; intros r.
  - cbn [app read_bytes fst snd]. destruct (read_bytes r ys); reflexivity.
  - rewrite <- app_comm_cons, !read_bytes_cons, IH. reflexivity.
Qed.

Lemma read_bytes_app_eq (r : reader) (xs ys : list Z)
    (t1 : list (option mavlink_message_t)) (r1 : reader)
    (t2 : list (option mavlink_message_t)) (r2 : reader) :
  read_bytes r xs = (t1, r1) -> read_bytes r1 ys = (t2, r2) ->
  read_bytes r (xs ++ ys) = (t1 ++ t2, r2).
Proof.
  intros H1 H2. rewrite read_bytes_app, H1. cbn [fst snd]. rewrite H2.
  reflexivity.
Qed.

Lemma read_bytes_length (r : reader) (bytes : list Z) :
  length (fst (read_bytes r bytes)) = length bytes.
Proof.
  revert r. induction bytes as [|c bytes IH]; intros r; [reflexivity|].
  rewrite read_bytes_cons. cbn [fst length]. rewrite IH. reflexivity.
Qed.

(** [memcpy] inside the bounds of both arrays replaces a window. *)
Lemma memcpy_window (n : nat) : forall (dst : list Z) (off : nat) (src : list Z),
  (off + n <= length dst)%nat -> (n <= length src)%nat ->
  memcpy dst off src n = take off dst ++ take n src ++ drop (off + n) dst.
Proof.
  induction n as [|n IH]; intros dst off src Hd Hs.
  - simpl. rewrite Nat.add_0_r, take_drop. reflexivity.
  - destruct src as [|b src]; [cbn in Hs; lia|].
    cbn [memcpy]. cbn [length] in Hs.
    rewrite IH by (rewrite ?length_insert; lia).
    rewrite drop_insert_lt by lia.
    rewrite (insert_take_drop dst off b) by lia.
    replace (S off) with (off + 1)%nat at 1 by lia.
    rewrite take_app_add' by (rewrite length_take; lia).
    cbn [take firstn]. rewrite <- app_assoc. cbn [app].
    replace (S off + n)%nat with (off + S n)%nat by lia. reflexivity.
Qed.

Lemma update_checksum_len (rx : mavlink_message_t) (c : Z) :
  len (mavlink_update_checksum rx c) = len rx.
Proof. reflexivity. Qed.

(** The running checksum, kept in the two checksum bytes of the message
    under reassembly. *)
Lemma update_checksum_running (rx : mavlink_message_t) (acc c : Z) :
  0 <= acc < 65536 ->
  ck_a rx = checksum_c0 acc -> ck_b rx = checksum_c1 acc ->
  mavlink_update_checksum rx c =
  with_ck_b (checksum_c1 (crcAccumulate c acc))
    (with_ck_a (checksum_c0 (crcAccumulate c acc)) rx).
Proof.
  intros H Ha Hb. unfold mavlink_update_checksum. rewrite Ha, Hb.
  rewrite checksum_s_split by exact H. reflexivity.
Qed.

(** The delimiter and the five header bytes, on a channel that waits for a
    frame. *)
Lemma read_header (ch : channel) (rm : mavlink_message_t) (rs : mavlink_status_t)
    (L s sy co mi : Z) :
  parse_state (m_mavlink_status ch) = MAVLINK_PARSE_STATE_UNINIT \/
  parse_state (m_mavlink_status ch) = MAVLINK_PARSE_STATE_IDLE ->
  read_bytes (mk_reader ch rm rs) [MAVLINK_STX; L; s; sy; co; mi] =
  (replicate 6 None,
   mk_reader
     (mk_channel
        (with_parse_state (header_state L) (with_packet_idx 0 (armed ch)))
        (mk_message L s sy co mi (payload (m_mavlink_message ch))
           (checksum_c0 (crc_fold crcInit [L; s; sy; co; mi]))
           (checksum_c1 (crc_fold crcInit [L; s; sy; co; mi]))))
     rm (sync_status (armed ch) rs)).
Proof.
  intros H.
  pose proof crcInit_range as Hi.
  rewrite read_bytes_cons, (read_idle_stx ch rm rs H). cbn [fst snd].
  rewrite read_bytes_cons, read_got_stx by reflexivity. cbn [fst snd].
  rewrite (update_checksum_running _ crcInit) by (exact Hi || reflexivity).
  rewrite read_bytes_cons, read_got_length by reflexivity. cbn [fst snd].
  rewrite (update_checksum_running _ (crc_fold crcInit [L]))
    by (apply crcAccumulate_range || reflexivity).
  rewrite read_bytes_cons, read_got_seq by reflexivity. cbn [fst snd].
  rewrite (update_checksum_running _ (crc_fold crcInit [L; s]))
    by (apply crcAccumulate_range || reflexivity).
  rewrite read_bytes_cons, read_got_sysid by reflexivity. cbn [fst snd].
  rewrite (update_checksum_running _ (crc_fold crcInit [L; s; sy]))
    by (apply crcAccumulate_range || reflexivity).
  rewrite read_bytes_cons, read_got_compid by reflexivity. cbn [fst snd].
  rewrite (update_checksum_running _ (crc_fold crcInit [L; s; sy; co]))
    by (apply crcAccumulate_range || reflexivity).
  reflexivity.
Qed.

(** The payload bytes, from cursor [packet_idx s] up to the length. *)
Lemma read_payload (pl : list Z) :
  forall (s : mavlink_status_t) (rx rm : mavlink_message_t)
         (rs : mavlink_status_t) (acc : Z),
  parse_state s = MAVLINK_PARSE_STATE_GOT_MSGID -> msg_received s = 0 ->
  0 <= acc < 65536 ->
  ck_a rx = checksum_c0 acc -> ck_b rx = checksum_c1 acc ->
  pl <> [] -> 0 <= packet_idx s ->
  packet_idx s + Z.of_nat (length pl) = len rx -> len rx <= 255 ->
  read_bytes (mk_reader (mk_channel s rx) rm rs) pl =
  (replicate (length pl) None,
   mk_reader
     (mk_channel
        (with_parse_state MAVLINK_PARSE_STATE_GOT_PAYLOAD
           (with_packet_idx (len rx) s))
        (with_ck_b (checksum_c1 (crc_fold acc pl))
           (with_ck_a (checksum_c0 (crc_fold acc pl))
              (with_payload
                 (memcpy (payload rx) (Z.to_nat (packet_idx s)) pl (length pl))
                 rx))))
     rm (sync_status s rs)).
Proof.
  induction pl as [|c pl IH]; intros s rx rm rs acc Hs Hm Hacc Ha Hb Hne Hi Hlen HL;
    [congruence|].
  cbn [length] in Hlen.
  rewrite read_bytes_cons, read_got_msgid by assumption. cbn [fst snd].
  rewrite (uint8_t_small (packet_idx s + 1)) by lia.
  rewrite (update_checksum_running _ acc) by assumption.
  destruct pl as [|c' pl].
  - cbn [length] in Hlen.
    replace (packet_idx s + 1 =? len rx) with true by (symmetry; apply Z.eqb_eq; lia).
    replace (packet_idx s + 1) with (len rx) by lia.
    reflexivity.
  - cbn [length] in Hlen.
    replace (packet_idx s + 1 =? len rx) with false by (symmetry; apply Z.eqb_neq; lia).
    rewrite (IH _ _ _ _ (crcAccumulate c acc));
      try reflexivity; try assumption; try apply crcAccumulate_range;
      try discriminate; cbn [packet_idx with_packet_idx len with_ck_a with_ck_b
        with_payload length]; try lia.
    cbn [payload with_ck_a with_ck_b with_payload replicate memcpy].
    rewrite Z2Nat.inj_add by lia. rewrite Nat.add_1_r.
    reflexivity.
Qed.

Lemma accepted_with_parse_state (k : Z) (s : mavlink_status_t)
    (rx : mavlink_message_t) :
  accepted (with_parse_state k s) rx = accepted s rx.
Proof. unfold accepted. f_equal. Qed.

Lemma sync_status_twice (a b rs : mavlink_status_t) :
  sync_status a (sync_status b rs) = sync_status a rs.
Proof. reflexivity. Qed.

(** The matching trailer: the message is handed to the caller. *)
Lemma read_trailer (s : mavlink_status_t) (rx rm : mavlink_message_t)
    (rs : mavlink_status_t) :
  parse_state s = MAVLINK_PARSE_STATE_GOT_PAYLOAD -> msg_received s = 0 ->
  read_bytes (mk_reader (mk_channel s rx) rm rs) [ck_a rx; ck_b rx] =
  ([None; Some rx],
   mk_reader (mk_channel (accepted s rx) rx) rx
             (sync_status (accepted s rx) rs)).
Proof.
  intros Hs Hm.
  rewrite read_bytes_cons, read_got_payload_match by (assumption || reflexivity).
  cbn [fst snd].
  rewrite read_bytes_cons, read_got_crc1_match
    by (assumption || reflexivity).
  cbn [fst snd read_bytes].
  rewrite accepted_with_parse_state, sync_status_twice. reflexivity.
Qed.

(** ** Whole frames *)

(** Everything of a frame before its trailer. *)
Lemma read_frame_body (ch : channel) (rm : mavlink_message_t)
    (rs : mavlink_status_t) (L s sy co mi : Z) (pl : list Z) :
  waits_for_frame ch ->
  Z.of_nat (length pl) = L -> L <= 255 ->
  length (payload (m_mavlink_message ch)) = 255%nat ->
  read_bytes (mk_reader ch rm rs) (MAVLINK_STX :: [L; s; sy; co; mi] ++ pl) =
  (replicate (6 + length pl) None,
   mk_reader
     (mk_channel
        (with_parse_state MAVLINK_PARSE_STATE_GOT_PAYLOAD
           (with_packet_idx L (armed ch)))
        (reassembled ch L s sy co mi pl))
     rm (sync_status (armed ch) rs)).
Proof.
  intros Hw HL H255 Hp.
  change (MAVLINK_STX :: [L; s; sy; co; mi] ++ pl)
    with ([MAVLINK_STX; L; s; sy; co; mi] ++ pl).
  rewrite read_bytes_app, (read_header ch rm rs L s sy co mi Hw).
  cbn [fst snd]. unfold reassembled, frame_checksum. rewrite crc_fold_app.
  destruct pl as [|c pl].
  - cbn [length] in HL. subst L. cbn [read_bytes fst snd header_state Z.eqb
      crc_fold fold_left length drop app Nat.add].
    rewrite app_nil_r. reflexivity.
  - assert (HL0 : (L =? 0) = false) by (apply Z.eqb_neq; cbn [length] in HL; lia).
    unfold header_state. rewrite HL0.
    rewrite (read_payload (c :: pl) _ _ _ _ (crc_fold crcInit [L; s; sy; co; mi]));
      try reflexivity; try discriminate;
      try (apply crc_fold_range, crcInit_range);
      cbn [packet_idx with_packet_idx with_parse_state len]; try lia.
    cbn [fst snd]. rewrite replicate_add.
    cbn [len payload with_payload with_ck_a with_ck_b Z.to_nat].
    rewrite memcpy_window by (rewrite ?Hp; lia).
    rewrite firstn_all. cbn [take firstn app Nat.add].
    rewrite sync_status_twice. reflexivity.
Qed.

(** A well-formed frame on a waiting channel: one message, on the last
    byte. *)
Lemma read_good_frame (ch : channel) (rm : mavlink_message_t)
    (rs : mavlink_status_t) (L s sy co mi : Z) (pl : list Z) :
  waits_for_frame ch ->
  Z.of_nat (length pl) = L -> L <= 255 ->
  length (payload (m_mavlink_message ch)) = 255%nat ->
  read_bytes (mk_reader ch rm rs) (good_frame L s sy co mi pl) =
  (replicate (7 + length pl) None ++ [Some (reassembled ch L s sy co mi pl)],
   mk_reader
     (mk_channel
        (accepted (with_packet_idx L (armed ch)) (reassembled ch L s sy co mi pl))
        (reassembled ch L s sy co mi pl))
     (reassembled ch L s sy co mi pl)
     (sync_status
        (accepted (with_packet_idx L (armed ch))
                  (reassembled ch L s sy co mi pl)) rs)).
Proof.
  intros Hw HL H255 Hp. unfold good_frame, wire_frame.
  rewrite app_comm_cons, app_assoc, read_bytes_app.
  rewrite <- app_comm_cons, (read_frame_body ch rm rs L s sy co mi pl Hw HL H255 Hp).
  cbn [fst snd].
  change [checksum_c0 (frame_checksum L s sy co mi pl);
          checksum_c1 (frame_checksum L s sy co mi pl)]
    with [ck_a (reassembled ch L s sy co mi pl);
          ck_b (reassembled ch L s sy co mi pl)].
  rewrite read_trailer by reflexivity.
  cbn [fst snd].
  rewrite accepted_with_parse_state, sync_status_twice.
  f_equal.
  change (7 + length pl)%nat with (S (6 + length pl)).
  rewrite replicate_S_end, <- app_assoc. reflexivity.
Qed.


(** ** The loss accounting in closed form *)

Lemma seq_loop_closed (fuel : nat) : forall (s : mavlink_status_t) (x : Z),
  0 <= current_seq s < 256 -> 0 <= x < 256 ->
  0 <= packet_rx_drop_count s < 65536 ->
  (x - current_seq s) mod 256 <= Z.of_nat fuel ->
  seq_loop fuel s x =
  with_current_seq x
    (with_packet_rx_drop_count
       (uint16_t (packet_rx_drop_count s + (x - current_seq s) mod 256)) s).
Proof.
  induction fuel as [|fuel IH]; intros s x Hc Hx Hd Hf.
  - assert (current_seq s = x) by (revert Hf; Z.div_mod_to_equations; lia).
    cbn [seq_loop]. subst x. rewrite Z.sub_diag, Zmod_0_l, Z.add_0_r.
    rewrite uint16_t_small by exact Hd. destruct s; reflexivity.
  - rewrite seq_loop_S. destruct (Z.eqb_spec (current_seq s) x) as [E|E]; cbn [negb].
    + subst x. rewrite Z.sub_diag, Zmod_0_l, Z.add_0_r.
      rewrite uint16_t_small by exact Hd. destruct s; reflexivity.
    + rewrite IH; cbn [current_seq packet_rx_drop_count with_current_seq
                         with_packet_rx_drop_count];
        try apply uint8_t_range; try apply uint16_t_range; try exact Hx.
      * assert (Hgap : (x - uint8_t (current_seq s + 1)) mod 256
                       = (x - current_seq s) mod 256 - 1)
          by (unfold uint8_t; Z.div_mod_to_equations; lia).
        rewrite Hgap. unfold uint16_t. rewrite Zplus_mod_idemp_l.
        replace (packet_rx_drop_count s + 1 + ((x - current_seq s) mod 256 - 1))
          with (packet_rx_drop_count s + (x - current_seq s) mod 256) by lia.
        reflexivity.
      * unfold uint8_t. revert Hf. Z.div_mod_to_equations. lia.
Qed.

(** The status after an acceptance, field by field. *)
Lemma accepted_closed (s : mavlink_status_t) (m : mavlink_message_t) :
  0 <= current_seq s < 256 -> 0 <= seq m < 256 ->
  0 <= packet_rx_drop_count s < 65536 ->
  accepted s m =
  mk_status (status_ck_a s) (status_ck_b s) 1 (buffer_overrun s) (parse_error s)
    MAVLINK_PARSE_STATE_IDLE (packet_idx s) (seq m)
    (uint16_t (packet_rx_success_count s + 1))
    (if packet_rx_success_count s =? 0 then 0
     else uint16_t (packet_rx_drop_count s + (seq m - current_seq s) mod 256)).
Proof.
  intros Hc Hx Hd. unfold accepted, seq_accounting.
  cbn [msg_received with_parse_state with_msg_received Z.eqb Pos.eqb].
  rewrite seq_loop_closed;
    cbn [current_seq packet_rx_drop_count with_parse_state with_msg_received];
    try assumption.
  - destruct s as [a b mr bo pe st idx cur su dr]. fields.
    destruct (su =? 0); reflexivity.
  - change (Z.of_nat 256) with 256.
    pose proof (Z.mod_pos_bound (seq m - current_seq s) 256). lia.
Qed.

(** ** Finalizing and serializing *)

Lemma take_message_bytes (m : mavlink_message_t) (n : Z) :
  0 <= n <= 255 -> length (payload m) = 255%nat ->
  take (Z.to_nat (n + MAVLINK_CORE_HEADER_LEN)) (message_bytes m) =
  [len m; seq m; sysid m; compid m; msgid m] ++ take (Z.to_nat n) (payload m).
Proof.
  intros Hn Hp. unfold message_bytes, MAVLINK_CORE_HEADER_LEN.
  replace (Z.to_nat (n + 5)) with (5 + Z.to_nat n)%nat by lia.
  rewrite take_app_add' by reflexivity.
  rewrite take_app_le by lia. reflexivity.
Qed.

Lemma finalize_message_frame (draft : mavlink_message_t)
    (system_id component_id length static_seq : Z) :
  0 <= length <= 255 -> List.length (payload draft) = 255%nat ->
  finalize_message draft system_id component_id length static_seq =
  (mk_message length static_seq system_id component_id (msgid draft)
     (payload draft)
     (checksum_c0 (frame_checksum length static_seq system_id component_id
                     (msgid draft) (take (Z.to_nat length) (payload draft))))
     (checksum_c1 (frame_checksum length static_seq system_id component_id
                     (msgid draft) (take (Z.to_nat length) (payload draft)))),
   uint8_t (static_seq + 1),
   length + MAVLINK_NUM_NON_STX_PAYLOAD_BYTES).
Proof.
  intros Hn Hp. unfold finalize_message.
  rewrite (uint8_t_small length) by lia.
  rewrite (uint16_t_small (length + _))
    by (unfold MAVLINK_NUM_NON_STX_PAYLOAD_BYTES; lia).
  unfold crc_calculate. rewrite take_message_bytes by (exact Hn || exact Hp).
  fields. fold (crc_fold crcInit
    ([length; static_seq; system_id; component_id; msgid draft]
       ++ take (Z.to_nat length) (payload draft))).
  fold (frame_checksum length static_seq system_id component_id (msgid draft)
          (take (Z.to_nat length) (payload draft))).
  rewrite finalize_low_byte by (apply crc_fold_range, crcInit_range).
  rewrite finalize_high_byte. reflexivity.
Qed.

Lemma message_to_send_buffer_frame (buffer : list Z) (msg : mavlink_message_t) :
  0 <= len msg <= 255 -> length (payload msg) = 255%nat ->
  (Z.to_nat (len msg) + 8 <= length buffer)%nat ->
  snd (message_to_send_buffer buffer msg)
    = len msg + MAVLINK_NUM_NON_PAYLOAD_BYTES /\
  take (Z.to_nat (snd (message_to_send_buffer buffer msg)))
       (fst (message_to_send_buffer buffer msg)) =
  wire_frame (len msg) (seq msg) (sysid msg) (compid msg) (msgid msg)
             (take (Z.to_nat (len msg)) (payload msg)) (ck_a msg) (ck_b msg).
Proof.
  intros Hn Hp Hb. unfold message_to_send_buffer. cbn [fst snd].
  rewrite uint16_t_small by (unfold MAVLINK_NUM_NON_PAYLOAD_BYTES; lia).
  split; [reflexivity|].
  destruct buffer as [|b0 buffer]; [cbn in Hb; lia|]. cbn [length] in Hb.
  cbn [insert list_insert].
  assert (Hmb : length (message_bytes msg) = 262%nat)
    by (unfold message_bytes; rewrite !length_app, Hp; reflexivity).
  rewrite memcpy_window
    by (cbn [length]; rewrite ?Hmb; unfold MAVLINK_CORE_HEADER_LEN; lia).
  rewrite take_message_bytes by (exact Hn || exact Hp).
  cbn [take firstn drop skipn Nat.add].
  set (hdr := [len msg; seq msg; sysid msg; compid msg; msgid msg]
                ++ take (Z.to_nat (len msg)) (payload msg)).
  assert (Hh : length hdr = (5 + Z.to_nat (len msg))%nat).
  { unfold hdr. rewrite length_app, length_take, Hp. cbn [length]. lia. }
  set (rest := drop (Z.to_nat (len msg + MAVLINK_CORE_HEADER_LEN)) buffer).
  assert (Hr : (2 <= length rest)%nat).
  { unfold rest. rewrite length_drop. unfold MAVLINK_CORE_HEADER_LEN. lia. }
  destruct rest as [|r0 [|r1 rest]]; cbn [length] in Hr; try lia.
  rewrite take_0. cbn [app].
  change (MAVLINK_STX :: hdr ++ r0 :: r1 :: rest)
    with ((MAVLINK_STX :: hdr) ++ r0 :: r1 :: rest).
  rewrite (insert_app_r_alt (MAVLINK_STX :: hdr))
    by (cbn [length]; unfold MAVLINK_CORE_HEADER_LEN; lia).
  rewrite (insert_app_r_alt (MAVLINK_STX :: hdr))
    by (cbn [length]; unfold MAVLINK_CORE_HEADER_LEN; lia).
  replace (Z.to_nat (len msg + MAVLINK_CORE_HEADER_LEN + 2)
             - length (MAVLINK_STX :: hdr))%nat with 1%nat
    by (cbn [length]; unfold MAVLINK_CORE_HEADER_LEN; lia).
  replace (Z.to_nat (len msg + MAVLINK_CORE_HEADER_LEN + 1)
             - length (MAVLINK_STX :: hdr))%nat with 0%nat
    by (cbn [length]; unfold MAVLINK_CORE_HEADER_LEN; lia).
  cbn [insert list_insert].
  replace (Z.to_nat (len msg + MAVLINK_NUM_NON_PAYLOAD_BYTES))
    with (length ((MAVLINK_STX :: hdr) ++ [ck_a msg; ck_b msg]))
    by (rewrite length_app; cbn [length]; unfold MAVLINK_NUM_NON_PAYLOAD_BYTES; lia).
  change ((MAVLINK_STX :: hdr) ++ ck_a msg :: ck_b msg :: rest)
    with ((MAVLINK_STX :: hdr) ++ [ck_a msg; ck_b msg] ++ rest).
  rewrite app_assoc, take_app_length.
  unfold wire_frame, hdr. rewrite <- app_comm_cons, <- app_assoc. reflexivity.
Qed.

(** [message_get_send_buffer_length] is the length [message_to_send_buffer]
    returns. *)
Lemma send_buffer_length_agrees (buffer : list Z) (msg : mavlink_message_t) :
  snd (message_to_send_buffer buffer msg) = message_get_send_buffer_length msg.
Proof. reflexivity. Qed.

(** ** The claims about whole frames *)

Lemma decoded_last (n : nat) (m : mavlink_message_t) :
  decoded (replicate n None ++ [Some m]) = [m].
Proof.
  unfold decoded. induction n as [|n IH]; [reflexivity|].
  cbn [replicate app omap list_omap id]. exact IH.
Qed.

Lemma decoded_app (xs ys : list (option mavlink_message_t)) :
  decoded (xs ++ ys) = decoded xs ++ decoded ys.
Proof.
  unfold decoded. induction xs as [|[x|] xs IH]; cbn [app omap list_omap id];
    rewrite ?IH; reflexivity.
Qed.

Lemma fresh_channel_waits : waits_for_frame fresh_channel.
Proof. left. reflexivity. Qed.

Lemma fresh_channel_payload :
  length (payload (m_mavlink_message fresh_channel)) = 255%nat.
Proof. cbn [fresh_channel m_mavlink_message zero_message payload].
  rewrite length_replicate. reflexivity. Qed.

Lemma reassembled_payload_length (ch : channel) (L s sy co mi : Z) (pl : list Z) :
  (length pl <= 255)%nat ->
  length (payload (m_mavlink_message ch)) = 255%nat ->
  length (payload (reassembled ch L s sy co mi pl)) = 255%nat.
Proof.
  intros Hl Hp. cbn [reassembled payload].
  rewrite length_app, length_drop, Hp. lia.
Qed.

(** C1: a finalized message, serialized with [message_to_send_buffer] and
    fed byte by byte to a channel nobody has used, is handed to the caller
    exactly once, on the last byte, with the length, the two sender ids, the
    message kind and the first [length] payload bytes of the original (and
    its sequence number and checksum bytes as well). *)
Theorem roundtrip_fresh_channel (draft : mavlink_message_t)
    (system_id component_id length static_seq : Z) (buffer : list Z)
    (rm : mavlink_message_t) (rs : mavlink_status_t) :
  0 <= length <= 255 ->
  List.length (payload draft) = 255%nat ->
  (Z.to_nat length + 8 <= List.length buffer)%nat ->
  let msg :=
    fst (fst (finalize_message draft system_id component_id length static_seq)) in
  let out := message_to_send_buffer buffer msg in
  let wire := take (Z.to_nat (snd out)) (fst out) in
  let trace := fst (read_bytes (mk_reader fresh_channel rm rs) wire) in
  exists m : mavlink_message_t,
    trace = replicate (Z.to_nat length + 7) None ++ [Some m] /\
    decoded trace = [m] /\
    len m = length /\ len m = len msg /\
    sysid m = system_id /\ sysid m = sysid msg /\
    compid m = component_id /\ compid m = compid msg /\
    msgid m = msgid draft /\ msgid m = msgid msg /\
    take (Z.to_nat length) (payload m) = take (Z.to_nat length) (payload draft) /\
    seq m = seq msg /\ ck_a m = ck_a msg /\ ck_b m = ck_b msg.
Proof.
  intros Hn Hp Hb msg out wire trace.
  subst trace wire out msg.
  rewrite finalize_message_frame by assumption. cbn [fst].
  set (pl := take (Z.to_nat length) (payload draft)).
  set (crc := frame_checksum length static_seq system_id component_id
                (msgid draft) pl).
  destruct (message_to_send_buffer_frame buffer
    (mk_message length static_seq system_id component_id (msgid draft)
       (payload draft) (checksum_c0 crc) (checksum_c1 crc))) as [Hret Hwire];
    [exact Hn | exact Hp | exact Hb |].
  rewrite Hwire. fields. fold pl. fold crc.
  assert (Hpl : List.length pl = Z.to_nat length)
    by (unfold pl; rewrite length_take, Hp; lia).
  change (wire_frame length static_seq system_id component_id (msgid draft) pl
            (checksum_c0 crc) (checksum_c1 crc))
    with (good_frame length static_seq system_id component_id (msgid draft) pl).
  rewrite (read_good_frame fresh_channel rm rs length static_seq system_id
             component_id (msgid draft) pl fresh_channel_waits)
    by (rewrite ?Hpl; try apply fresh_channel_payload; lia).
  cbn [fst]. rewrite Hpl.
  replace (7 + Z.to_nat length)%nat with (Z.to_nat length + 7)%nat by lia.
  eexists. split; [reflexivity|]. split; [apply decoded_last|].
  cbn [reassembled len seq sysid compid msgid payload ck_a ck_b].
  repeat split; try reflexivity.
  rewrite <- Hpl, take_app_length. reflexivity.
Qed.


Lemma read_got_compid_nonempty (s : mavlink_status_t)
    (rx rm : mavlink_message_t) (rs : mavlink_status_t) (c : Z) :
  parse_state s = MAVLINK_PARSE_STATE_GOT_COMPID -> msg_received s = 0 ->
  len rx <> 0 ->
  read_byte (mk_reader (mk_channel s rx) rm rs) c =
  (None,
   mk_reader
     (mk_channel (with_parse_state MAVLINK_PARSE_STATE_GOT_MSGID s)
                 (mavlink_update_checksum (with_msgid c rx) c))
     rm (sync_status s rs)).
Proof.
  intros Hs Hm Hl. rewrite read_got_compid by assumption.
  apply Z.eqb_neq in Hl. rewrite Hl. reflexivity.
Qed.

Lemma read_got_msgid_more (s : mavlink_status_t)
    (rx rm : mavlink_message_t) (rs : mavlink_status_t) (c i : Z) :
  parse_state s = MAVLINK_PARSE_STATE_GOT_MSGID -> msg_received s = 0 ->
  packet_idx s = i -> 0 <= i -> i + 1 < len rx -> len rx <= 255 ->
  read_byte (mk_reader (mk_channel s rx) rm rs) c =
  (None,
   mk_reader
     (mk_channel (with_packet_idx (i + 1) s)
        (mavlink_update_checksum
           (with_payload (<[Z.to_nat i := c]> (payload rx)) rx) c))
     rm (sync_status s rs)).
Proof.
  intros Hs Hm Hi H0 Hl H255. rewrite read_got_msgid by assumption.
  rewrite Hi, (uint8_t_small (i + 1)) by lia.
  replace (i + 1 =? len rx) with false by (symmetry; apply Z.eqb_neq; lia).
  reflexivity.
Qed.

Lemma read_byte_payload_none (s : mavlink_status_t)
    (rx rm : mavlink_message_t) (rs : mavlink_status_t) (c : Z) :
  parse_state s = MAVLINK_PARSE_STATE_GOT_MSGID -> msg_received s = 0 ->
  fst (read_byte (mk_reader (mk_channel s rx) rm rs) c) = None.
Proof. intros Hs Hm. rewrite read_got_msgid by assumption. reflexivity. Qed.

(** Eight bytes after a delimiter, the first of them the delimiter again:
    it is taken as a length of at least 3, so the other seven are header and
    payload bytes and nothing is handed out. *)
Lemma read_swallowed_frame (st : mavlink_status_t) (rx rm : mavlink_message_t)
    (rs : mavlink_status_t) (b1 b2 b3 b4 b5 b6 b7 : Z) :
  parse_state st = MAVLINK_PARSE_STATE_GOT_STX -> msg_received st = 0 ->
  3 <= MAVLINK_STX ->
  fst (read_bytes (mk_reader (mk_channel st rx) rm rs)
         [MAVLINK_STX; b1; b2; b3; b4; b5; b6; b7]) = replicate 8 None.
Proof.
  intros Hs Hm Hstx. pose proof MAVLINK_STX_byte as Hbyte.
  rewrite read_bytes_cons, read_got_stx by assumption. cbn [fst snd].
  rewrite read_bytes_cons, read_got_length by (exact Hm || reflexivity).
  cbn [fst snd].
  rewrite read_bytes_cons, read_got_seq by (exact Hm || reflexivity).
  cbn [fst snd].
  rewrite read_bytes_cons, read_got_sysid by (exact Hm || reflexivity).
  cbn [fst snd].
  rewrite read_bytes_cons, read_got_compid_nonempty
    by first [exact Hm | reflexivity | change (MAVLINK_STX <> 0); lia].
  cbn [fst snd].
  rewrite read_bytes_cons, (read_got_msgid_more _ _ _ _ _ 0)
    by first [exact Hm | reflexivity | lia
             | change (0 + 1 < MAVLINK_STX); lia
             | change (MAVLINK_STX <= 255); lia].
  cbn [fst snd].
  rewrite read_bytes_cons, (read_got_msgid_more _ _ _ _ _ (0 + 1))
    by first [exact Hm | reflexivity | lia
             | change (0 + 1 + 1 < MAVLINK_STX); lia
             | change (MAVLINK_STX <= 255); lia].
  cbn [fst snd].
  rewrite read_bytes_cons, read_byte_payload_none by (exact Hm || reflexivity).
  reflexivity.
Qed.

(** The case the amended claim leaves out, for every checksum and every
    delimiter byte from 3 on: a corrupted empty frame whose trailer is a
    wrong first byte followed by the delimiter swallows the well-formed
    empty frame behind it. *)
Lemma resync_lost_for_every_checksum (ch : channel) (rm : mavlink_message_t)
    (rs : mavlink_status_t) (s sy co mi a s' sy' co' mi' : Z) :
  waits_for_frame ch ->
  length (payload (m_mavlink_message ch)) = 255%nat ->
  a <> checksum_c0 (frame_checksum 0 s sy co mi []) ->
  3 <= MAVLINK_STX ->
  decoded (fst (read_bytes (mk_reader ch rm rs)
                  (wire_frame 0 s sy co mi [] a MAVLINK_STX
                     ++ good_frame 0 s' sy' co' mi' []))) = [].
Proof.
  intros Hw Hp Ha Hstx. unfold good_frame, wire_frame. cbn [app].
  change (MAVLINK_STX :: 0 :: s :: sy :: co :: mi :: a :: ?rest)
    with ((MAVLINK_STX :: [0; s; sy; co; mi] ++ []) ++ a :: rest).
  rewrite read_bytes_app.
  rewrite (read_frame_body ch rm rs 0 s sy co mi [] Hw) by (exact Hp || reflexivity || lia).
  cbn [fst snd length Nat.add replicate].
  rewrite decoded_app.
  rewrite read_bytes_cons, read_got_payload_mismatch by (exact Ha || reflexivity).
  cbn [fst snd].
  rewrite read_bytes_cons, read_idle_stx by (right; reflexivity).
  cbn [fst snd].
  rewrite read_swallowed_frame by (reflexivity || exact Hstx).
  reflexivity.
Qed.

Lemma armed_after_start (ch : channel) :
  MAVLINK_PARSE_STATE_IDLE <= parse_state (m_mavlink_status ch)
    <= MAVLINK_PARSE_STATE_GOT_CRC1 ->
  armed ch = with_msg_received 0 (m_mavlink_status ch).
Proof.
  intros H. unfold armed. rewrite initialize_valid; [reflexivity|].
  unfold MAVLINK_PARSE_STATE_IDLE, MAVLINK_PARSE_STATE_UNINIT in *. lia.
Qed.

Lemma armed_idle_counters (ch : channel) :
  parse_state (m_mavlink_status ch) = MAVLINK_PARSE_STATE_IDLE ->
  current_seq (armed ch) = current_seq (m_mavlink_status ch) /\
  packet_rx_success_count (armed ch)
    = packet_rx_success_count (m_mavlink_status ch) /\
  packet_rx_drop_count (armed ch) = packet_rx_drop_count (m_mavlink_status ch).
Proof.
  intros H. rewrite armed_after_start.
  - repeat split.
  - rewrite H. unfold MAVLINK_PARSE_STATE_IDLE, MAVLINK_PARSE_STATE_GOT_CRC1. lia.
Qed.

(** The counters after a well-formed frame on a waiting channel: what the
    loss accounting of the code adds is the distance from the last accepted
    sequence number to the new one. *)
Lemma good_frame_counters (r : reader) (L s sy co mi : Z) (pl : list Z) :
  waits_for_frame (rd_channel r) ->
  Z.of_nat (length pl) = L -> L <= 255 ->
  length (payload (m_mavlink_message (rd_channel r))) = 255%nat ->
  0 <= s < 256 ->
  0 <= current_seq (armed (rd_channel r)) < 256 ->
  0 <= packet_rx_drop_count (armed (rd_channel r)) < 65536 ->
  let res := read_bytes r (good_frame L s sy co mi pl) in
  let st := m_mavlink_status (rd_channel (snd res)) in
  map seq (decoded (fst res)) = [s] /\
  parse_state st = MAVLINK_PARSE_STATE_IDLE /\
  length (payload (m_mavlink_message (rd_channel (snd res)))) = 255%nat /\
  current_seq st = s /\
  packet_rx_success_count st
    = uint16_t (packet_rx_success_count (armed (rd_channel r)) + 1) /\
  packet_rx_drop_count st
    = (if packet_rx_success_count (armed (rd_channel r)) =? 0 then 0
       else uint16_t (packet_rx_drop_count (armed (rd_channel r))
                      + (s - current_seq (armed (rd_channel r))) mod 256)) /\
  packet_rx_drop_count (rd_status (snd res)) = packet_rx_drop_count st.
Proof.
  destruct r as [ch rm rs]. cbn [rd_channel].
  intros Hw HL H255 Hp Hs Hc Hd. cbv zeta.
  rewrite (read_good_frame ch rm rs L s sy co mi pl Hw HL H255 Hp).
  cbn [fst snd rd_channel rd_status m_mavlink_status m_mavlink_message].
  rewrite accepted_closed by (fields; assumption).
  rewrite decoded_last.
  fields. repeat split; try reflexivity.
  apply reassembled_payload_length; [lia | exact Hp].
Qed.

Lemma fresh_channel_armed : armed fresh_channel = zero_status.
Proof. reflexivity. Qed.

(** C3 at the sequence numbers 5, 6, 9: on a channel nobody has used, the
    loss accounting of the code leaves the drop counter at 0 after the
    first frame, at 1 after the second and at 4 after the third. *)
Theorem drop_count_after_5_6_9 (rm : mavlink_message_t) (rs : mavlink_status_t) :
  let drops (bytes : list Z) :=
    packet_rx_drop_count
      (m_mavlink_status
         (rd_channel (snd (read_bytes (mk_reader fresh_channel rm rs) bytes)))) in
  let f5 := good_frame 0 5 1 1 0 [] in
  let f6 := good_frame 0 6 1 1 0 [] in
  let f9 := good_frame 0 9 1 1 0 [] in
  map seq (decoded (fst (read_bytes (mk_reader fresh_channel rm rs)
                           (f5 ++ f6 ++ f9)))) = [5; 6; 9] /\
  drops f5 = 0 /\ drops (f5 ++ f6) = 1 /\ drops (f5 ++ f6 ++ f9) = 4.
Proof.
  intros drops f5 f6 f9. subst drops. cbv beta.
  (* first frame *)
  destruct (good_frame_counters (mk_reader fresh_channel rm rs) 0 5 1 1 0 [])
    as (Ht1 & Hi1 & Hp1 & Hc1 & Hs1 & Hd1 & _);
    [ exact fresh_channel_waits | reflexivity | lia
    | exact fresh_channel_payload | lia
    | cbn [rd_channel]; rewrite fresh_channel_armed; cbn; lia
    | cbn [rd_channel]; rewrite fresh_channel_armed; cbn; lia | ].
  cbn [rd_channel] in Hs1, Hd1. rewrite fresh_channel_armed in Hs1, Hd1.
  eval_rhs Hs1. eval_rhs Hd1.
  fold f5 in Ht1, Hi1, Hp1, Hc1, Hs1, Hd1.
  remember (read_bytes (mk_reader fresh_channel rm rs) f5) as res1 eqn:E1.
  destruct res1 as [t1 r1]. cbn [fst snd] in *. symmetry in E1.
  destruct (armed_idle_counters (rd_channel r1) Hi1) as (Ac1 & As1 & Ad1).
  (* second frame *)
  destruct (good_frame_counters r1 0 6 1 1 0 [])
    as (Ht2 & Hi2 & Hp2 & Hc2 & Hs2 & Hd2 & _);
    [ right; exact Hi1 | reflexivity | lia | exact Hp1 | lia
    | rewrite Ac1, Hc1; lia | rewrite Ad1, Hd1; lia | ].
  rewrite As1, Hs1 in Hs2. rewrite As1, Ad1, Ac1, Hs1, Hd1, Hc1 in Hd2.
  eval_rhs Hs2. eval_rhs Hd2.
  fold f6 in Ht2, Hi2, Hp2, Hc2, Hs2, Hd2.
  remember (read_bytes r1 f6) as res2 eqn:E2.
  destruct res2 as [t2 r2]. cbn [fst snd] in *. symmetry in E2.
  destruct (armed_idle_counters (rd_channel r2) Hi2) as (Ac2 & As2 & Ad2).
  (* third frame *)
  destruct (good_frame_counters r2 0 9 1 1 0 [])
    as (Ht3 & Hi3 & Hp3 & Hc3 & Hs3 & Hd3 & _);
    [ right; exact Hi2 | reflexivity | lia | exact Hp2 | lia
    | rewrite Ac2, Hc2; lia | rewrite Ad2, Hd2; lia | ].
  rewrite As2, Ad2, Ac2, Hs2, Hd2, Hc2 in Hd3.
  eval_rhs Hd3.
  fold f9 in Ht3, Hd3.
  remember (read_bytes r2 f9) as res3 eqn:E3.
  destruct res3 as [t3 r3]. cbn [fst snd] in *. symmetry in E3.
  rewrite (read_bytes_app_eq _ f5 f6 t1 r1 t2 r2 E1 E2).
  rewrite (read_bytes_app_eq _ f5 (f6 ++ f9) t1 r1 (t2 ++ t3) r3 E1
             (read_bytes_app_eq _ f6 f9 t2 r2 t3 r3 E2 E3)).
  cbn [fst snd]. rewrite !decoded_app, !map_app, Ht1, Ht2, Ht3.
  repeat split; assumption.
Qed.

(** ** The claims about single calls *)

Ltac switch_cases :=
  unfold parse_switch;
  repeat match goal with
         | |- context [if ?b then _ else _] => destruct b eqn:?
         end.

(** After the [switch], either nothing was accepted and the caller's
    message is as it was, or the message was accepted and copied out. *)
Lemma parse_switch_outcome (c : Z) (s : mavlink_status_t)
    (rx rm : mavlink_message_t) :
  msg_received s = 0 ->
  (msg_received (fst (fst (parse_switch c s rx rm))) = 0 /\
   snd (parse_switch c s rx rm) = rm) \/
  (msg_received (fst (fst (parse_switch c s rx rm))) = 1 /\
   parse_state s = MAVLINK_PARSE_STATE_GOT_CRC1 /\ c = ck_b rx /\
   snd (parse_switch c s rx rm) = rx).
Proof.
  intros Hm. switch_cases; cbn [fst snd]; fields;
    try (left; split; [exact Hm || reflexivity | reflexivity]).
  right. repeat split.
  - apply Z.eqb_eq. assumption.
  - apply Z.eqb_eq. apply negb_false_iff. assumption.
Qed.

Lemma parse_switch_buffer_overrun (c : Z) (s : mavlink_status_t)
    (rx rm : mavlink_message_t) :
  msg_received s = 0 ->
  buffer_overrun (fst (fst (parse_switch c s rx rm))) = buffer_overrun s.
Proof.
  intros Hm. switch_cases; cbn [fst snd]; fields; try reflexivity.
  rewrite Hm in *. discriminate.
Qed.

Lemma seq_loop_frame (fuel : nat) : forall (s : mavlink_status_t) (x : Z),
  buffer_overrun (seq_loop fuel s x) = buffer_overrun s /\
  parse_error (seq_loop fuel s x) = parse_error s /\
  parse_state (seq_loop fuel s x) = parse_state s /\
  packet_idx (seq_loop fuel s x) = packet_idx s.
Proof.
  induction fuel as [|fuel IH]; intros s x; [repeat split|].
  rewrite seq_loop_S. destruct (current_seq s =? x); cbn [negb]; [repeat split|].
  destruct (IH (with_current_seq (uint8_t (current_seq s + 1))
                  (with_packet_rx_drop_count
                     (uint16_t (packet_rx_drop_count s + 1)) s)) x)
    as (H1 & H2 & H3 & H4).
  rewrite H1, H2, H3, H4. repeat split.
Qed.

Lemma seq_accounting_frame (s : mavlink_status_t) (m : mavlink_message_t) :
  buffer_overrun (seq_accounting s m) = buffer_overrun s /\
  parse_error (seq_accounting s m) = parse_error s /\
  parse_state (seq_accounting s m) = parse_state s /\
  packet_idx (seq_accounting s m) = packet_idx s.
Proof.
  unfold seq_accounting. destruct (msg_received s =? 1); [|repeat split].
  generalize 256%nat. intros fuel.
  destruct (seq_loop_frame fuel s (seq m)) as (H1 & H2 & H3 & H4).
  destruct (packet_rx_success_count _ =? 0); fields;
    rewrite H1, H2, H3, H4; repeat split.
Qed.

(** C4: the overrun branch of [GOT_STX] is never taken.  Whatever the
    channel holds, and also when its status says that a message is still
    marked received, a call leaves [buffer_overrun] at the value the
    initializer returns; in state [GOT_STX] the byte is taken as the length,
    the state becomes [GOT_LENGTH] and neither counter moves. *)
Theorem overrun_branch_never_taken (ch : channel) (c : Z)
    (rm : mavlink_message_t) (rs : mavlink_status_t) :
  let after := chan_after (mavlink_parse_char ch c rm rs) in
  buffer_overrun (m_mavlink_status after)
    = buffer_overrun (mavlink_parse_state_initialize (m_mavlink_status ch)) /\
  (parse_state (m_mavlink_status ch) = MAVLINK_PARSE_STATE_GOT_STX ->
   parse_state (m_mavlink_status after) = MAVLINK_PARSE_STATE_GOT_LENGTH /\
   len (m_mavlink_message after) = c /\
   buffer_overrun (m_mavlink_status after) = buffer_overrun (m_mavlink_status ch) /\
   parse_error (m_mavlink_status after) = parse_error (m_mavlink_status ch)).
Proof.
  cbv zeta. rewrite parse_char_unfold.
  pose proof (parse_switch_buffer_overrun c (armed ch) (m_mavlink_message ch) rm
                (armed_msg_received ch)) as Hbo.
  split.
  - destruct (parse_switch c (armed ch) (m_mavlink_message ch) rm) as [[s' rx'] rm'].
    cbn [fst] in Hbo. fields.
    destruct (seq_accounting_frame s' rx') as (H1 & _). rewrite H1, Hbo.
    reflexivity.
  - intros Hs. clear Hbo.
    rewrite armed_after_start
      by (rewrite Hs; unfold MAVLINK_PARSE_STATE_IDLE, MAVLINK_PARSE_STATE_GOT_STX,
            MAVLINK_PARSE_STATE_GOT_CRC1; lia).
    switch_state Hs. fields. cbn [Z.eqb negb].
    rewrite seq_accounting_idle by reflexivity. fields. repeat split.
Qed.

(** C5: in [GOT_PAYLOAD] a byte other than [ck_a] of the message under
    reassembly, and in [GOT_CRC1] a byte other than its [ck_b] (the low and
    the high byte of the running checksum), adds one to the 8-bit
    [parse_error], resets the state to [IDLE], returns 0 and leaves the
    caller's message alone. *)
Theorem checksum_mismatch_rejected (ch : channel) (c : Z)
    (rm : mavlink_message_t) (rs : mavlink_status_t) :
  (parse_state (m_mavlink_status ch) = MAVLINK_PARSE_STATE_GOT_PAYLOAD /\
   c <> ck_a (m_mavlink_message ch)) \/
  (parse_state (m_mavlink_status ch) = MAVLINK_PARSE_STATE_GOT_CRC1 /\
   c <> ck_b (m_mavlink_message ch)) ->
  let res := mavlink_parse_char ch c rm rs in
  let after := m_mavlink_status (chan_after res) in
  parse_error after = uint8_t (parse_error (m_mavlink_status ch) + 1) /\
  (0 <= parse_error (m_mavlink_status ch) < 255 ->
   parse_error after = parse_error (m_mavlink_status ch) + 1) /\
  parse_state after = MAVLINK_PARSE_STATE_IDLE /\
  returned res = 0 /\
  r_message res = rm /\
  m_mavlink_message (chan_after res) = m_mavlink_message ch.
Proof.
  intros H. cbv zeta. rewrite parse_char_unfold.
  assert (Hpe : forall v, (0 <= v < 255 -> uint8_t (v + 1) = v + 1))
    by (intros v Hv; apply uint8_t_small; lia).
  destruct H as [[Hs Hc]|[Hs Hc]];
    (rewrite armed_after_start
       by (rewrite Hs; unfold MAVLINK_PARSE_STATE_IDLE,
             MAVLINK_PARSE_STATE_GOT_PAYLOAD, MAVLINK_PARSE_STATE_GOT_CRC1; lia));
    switch_state Hs; apply Z.eqb_neq in Hc; rewrite Hc; cbn [negb]; fields;
    rewrite seq_accounting_idle by reflexivity; fields;
    repeat split; try reflexivity; apply Hpe.
Qed.

(** Calls on a started channel do not look at the stored [msg_received]. *)
Lemma read_byte_rearm (s : mavlink_status_t) (rx rm : mavlink_message_t)
    (rs : mavlink_status_t) (c : Z) :
  MAVLINK_PARSE_STATE_IDLE <= parse_state s <= MAVLINK_PARSE_STATE_GOT_CRC1 ->
  read_byte (mk_reader (mk_channel s rx) rm rs) c =
  read_byte (mk_reader (mk_channel (with_msg_received 0 s) rx) rm rs) c.
Proof.
  intros Hs. unfold read_byte. fields. rewrite !parse_char_unfold.
  rewrite !armed_after_start by (fields; exact Hs). reflexivity.
Qed.

Lemma accepted_leaves_idle (s : mavlink_status_t) (rx : mavlink_message_t) :
  parse_state (accepted s rx) = MAVLINK_PARSE_STATE_IDLE /\
  packet_idx (accepted s rx) = packet_idx s.
Proof.
  unfold accepted.
  destruct (seq_accounting_frame
              (with_parse_state MAVLINK_PARSE_STATE_IDLE (with_msg_received 1 s)) rx)
    as (_ & _ & H3 & H4).
  rewrite H3, H4. split; reflexivity.
Qed.

Lemma states_along_cons (r : reader) (c : Z) (bytes : list Z) :
  states_along r (c :: bytes) =
  parse_state (m_mavlink_status (rd_channel (snd (read_byte r c))))
    :: states_along (snd (read_byte r c)) bytes.
Proof. reflexivity. Qed.

(** C7: a frame whose length byte is 0 is accepted.  On a channel that
    waits for a frame, the eight bytes of the frame (delimiter, length 0,
    sequence number, the two ids, message kind, and the two bytes of the
    checksum of these five header bytes) lead through [GOT_STX],
    [GOT_LENGTH], [GOT_SEQ], [GOT_SYSID], [GOT_COMPID] and from there, on
    the message-kind byte, straight to [GOT_PAYLOAD], then to [GOT_CRC1]
    and [IDLE]: the payload-accumulation state [GOT_MSGID] is never entered.
    The last byte hands the caller exactly one message: length 0, the header
    fields of the frame, the checksum of the frame as trailer, and the
    payload buffer as the channel held it, no byte of it stored. *)
Theorem empty_payload_accepted (ch : channel) (rm : mavlink_message_t)
    (rs : mavlink_status_t) (s sy co mi : Z) :
  waits_for_frame ch ->
  let r := mk_reader ch rm rs in
  let frame := good_frame 0 s sy co mi [] in
  let m :=
    mk_message 0 s sy co mi (payload (m_mavlink_message ch))
      (checksum_c0 (crc_fold crcInit [0; s; sy; co; mi]))
      (checksum_c1 (crc_fold crcInit [0; s; sy; co; mi])) in
  let res := read_bytes r frame in
  frame = [MAVLINK_STX; 0; s; sy; co; mi; ck_a m; ck_b m] /\
  states_along r frame =
    [MAVLINK_PARSE_STATE_GOT_STX; MAVLINK_PARSE_STATE_GOT_LENGTH;
     MAVLINK_PARSE_STATE_GOT_SEQ; MAVLINK_PARSE_STATE_GOT_SYSID;
     MAVLINK_PARSE_STATE_GOT_COMPID; MAVLINK_PARSE_STATE_GOT_PAYLOAD;
     MAVLINK_PARSE_STATE_GOT_CRC1; MAVLINK_PARSE_STATE_IDLE] /\
  ~ In MAVLINK_PARSE_STATE_GOT_MSGID (states_along r frame) /\
  fst res = replicate 7 None ++ [Some m] /\
  decoded (fst res) = [m] /\
  len m = 0 /\
  rd_message (snd res) = m /\
  m_mavlink_message (rd_channel (snd res)) = m /\
  packet_idx (m_mavlink_status (rd_channel (snd res))) = 0.
Proof.
  intros Hw. cbv zeta.
  pose proof crcInit_range as Hi.
  assert (Hstates :
    states_along (mk_reader ch rm rs) (good_frame 0 s sy co mi []) =
    [MAVLINK_PARSE_STATE_GOT_STX; MAVLINK_PARSE_STATE_GOT_LENGTH;
     MAVLINK_PARSE_STATE_GOT_SEQ; MAVLINK_PARSE_STATE_GOT_SYSID;
     MAVLINK_PARSE_STATE_GOT_COMPID; MAVLINK_PARSE_STATE_GOT_PAYLOAD;
     MAVLINK_PARSE_STATE_GOT_CRC1; MAVLINK_PARSE_STATE_IDLE]).
  { unfold good_frame, wire_frame, frame_checksum. cbn [app].
    rewrite states_along_cons, (read_idle_stx ch rm rs Hw). cbn [fst snd].
    rewrite states_along_cons, read_got_stx by reflexivity. cbn [fst snd].
    rewrite (update_checksum_running _ crcInit) by (exact Hi || reflexivity).
    rewrite states_along_cons, read_got_length by reflexivity. cbn [fst snd].
    rewrite (update_checksum_running _ (crc_fold crcInit [0]))
      by (apply crcAccumulate_range || reflexivity).
    rewrite states_along_cons, read_got_seq by reflexivity. cbn [fst snd].
    rewrite (update_checksum_running _ (crc_fold crcInit [0; s]))
      by (apply crcAccumulate_range || reflexivity).
    rewrite states_along_cons, read_got_sysid by reflexivity. cbn [fst snd].
    rewrite (update_checksum_running _ (crc_fold crcInit [0; s; sy]))
      by (apply crcAccumulate_range || reflexivity).
    rewrite states_along_cons, read_got_compid by reflexivity. cbn [fst snd].
    rewrite (update_checksum_running _ (crc_fold crcInit [0; s; sy; co]))
      by (apply crcAccumulate_range || reflexivity).
    rewrite states_along_cons, read_got_payload_match by reflexivity.
    cbn [fst snd].
    rewrite states_along_cons, read_got_crc1_match by reflexivity.
    cbn [fst snd states_along]. fields.
    rewrite (proj1 (accepted_leaves_idle _ _)). reflexivity. }
  split; [reflexivity|].
  split; [exact Hstates|].
  split.
  { rewrite Hstates. cbn [In].
    unfold MAVLINK_PARSE_STATE_GOT_STX, MAVLINK_PARSE_STATE_GOT_LENGTH,
      MAVLINK_PARSE_STATE_GOT_SEQ, MAVLINK_PARSE_STATE_GOT_SYSID,
      MAVLINK_PARSE_STATE_GOT_COMPID, MAVLINK_PARSE_STATE_GOT_MSGID,
      MAVLINK_PARSE_STATE_GOT_PAYLOAD, MAVLINK_PARSE_STATE_GOT_CRC1,
      MAVLINK_PARSE_STATE_IDLE.
    intros H. repeat (destruct H as [H|H]; [discriminate H|]). exact H. }
  unfold good_frame, wire_frame, frame_checksum. cbn [app].
  change [MAVLINK_STX; 0; s; sy; co; mi;
          checksum_c0 (crc_fold crcInit [0; s; sy; co; mi]);
          checksum_c1 (crc_fold crcInit [0; s; sy; co; mi])]
    with ([MAVLINK_STX; 0; s; sy; co; mi]
            ++ [checksum_c0 (crc_fold crcInit [0; s; sy; co; mi]);
                checksum_c1 (crc_fold crcInit [0; s; sy; co; mi])]).
  rewrite read_bytes_app, (read_header ch rm rs 0 s sy co mi Hw).
  cbn [fst snd].
  change [checksum_c0 (crc_fold crcInit [0; s; sy; co; mi]);
          checksum_c1 (crc_fold crcInit [0; s; sy; co; mi])]
    with [ck_a (mk_message 0 s sy co mi (payload (m_mavlink_message ch))
                  (checksum_c0 (crc_fold crcInit [0; s; sy; co; mi]))
                  (checksum_c1 (crc_fold crcInit [0; s; sy; co; mi])));
          ck_b (mk_message 0 s sy co mi (payload (m_mavlink_message ch))
                  (checksum_c0 (crc_fold crcInit [0; s; sy; co; mi]))
                  (checksum_c1 (crc_fold crcInit [0; s; sy; co; mi])))].
  rewrite read_trailer by reflexivity.
  cbn [fst snd rd_channel rd_message m_mavlink_status m_mavlink_message].
  split; [reflexivity|].
  split; [apply (decoded_last 7)|].
  split; [reflexivity|].
  split; [reflexivity|].
  split; [reflexivity|].
  rewrite (proj2 (accepted_leaves_idle _ _)). reflexivity.
Qed.

(** C10: a call that returns 0 leaves the caller's [r_message] as it was;
    the only other return value is 1, and then [r_message] is the message
    the channel has reassembled. *)
Theorem r_message_written_only_on_acceptance (ch : channel) (c : Z)
    (rm : mavlink_message_t) (rs : mavlink_status_t) :
  let res := mavlink_parse_char ch c rm rs in
  (returned res = 0 -> r_message res = rm) /\
  (returned res = 0 \/
   returned res = 1 /\ r_message res = m_mavlink_message (chan_after res)).
Proof.
  cbv zeta. rewrite parse_char_unfold.
  pose proof (parse_switch_outcome c (armed ch) (m_mavlink_message ch) rm
                (armed_msg_received ch)) as H.
  assert (Hrx : parse_state (armed ch) = MAVLINK_PARSE_STATE_GOT_CRC1 ->
                snd (fst (parse_switch c (armed ch) (m_mavlink_message ch) rm))
                = m_mavlink_message ch).
  { intros Hs. switch_state Hs. destruct (negb _); reflexivity. }
  destruct (parse_switch c (armed ch) (m_mavlink_message ch) rm) as [[s' rx'] rm'].
  cbn [fst snd] in H, Hrx. fields. rewrite seq_accounting_msg_received.
  destruct H as [[H0 Hrm]|(H1 & Hs & _ & Hrm)].
  - split; [intros _; exact Hrm | left; exact H0].
  - split; [rewrite H1; discriminate|].
    right. split; [exact H1|]. rewrite Hrm, (Hrx Hs). reflexivity.
Qed.

(** ** The payload cursor *)

(** [payload_store_index] is the index the call stores to. *)
Lemma payload_store_spec (ch : channel) (c : Z) (rm : mavlink_message_t)
    (rs : mavlink_status_t) :
  payload (m_mavlink_message (chan_after (mavlink_parse_char ch c rm rs))) =
  match payload_store_index ch with
  | Some i => <[Z.to_nat i := c]> (payload (m_mavlink_message ch))
  | None => payload (m_mavlink_message ch)
  end.
Proof.
  rewrite parse_char_unfold. unfold payload_store_index, armed.
  set (s := mavlink_parse_state_initialize (m_mavlink_status ch)).
  unfold parse_switch. fields.
  unfold MAVLINK_PARSE_STATE_UNINIT, MAVLINK_PARSE_STATE_IDLE,
    MAVLINK_PARSE_STATE_GOT_STX, MAVLINK_PARSE_STATE_GOT_LENGTH,
    MAVLINK_PARSE_STATE_GOT_SEQ, MAVLINK_PARSE_STATE_GOT_SYSID,
    MAVLINK_PARSE_STATE_GOT_COMPID, MAVLINK_PARSE_STATE_GOT_MSGID,
    MAVLINK_PARSE_STATE_GOT_PAYLOAD, MAVLINK_PARSE_STATE_GOT_CRC1.
  destruct (Z.eqb_spec (parse_state s) 7) as [E|E].
  - rewrite E. cbn [Z.eqb Pos.eqb orb]. unfold mavlink_update_checksum. fields.
    destruct (_ =? _); reflexivity.
  - repeat match goal with
           | |- context [if ?b then _ else _] => destruct b eqn:?
           end; unfold mavlink_update_checksum, mavlink_start_checksum; fields;
      reflexivity.
Qed.

Lemma cursor_inv_fresh : cursor_inv fresh_channel.
Proof.
  unfold cursor_inv, fresh_channel, zero_status, zero_message. fields.
  unfold MAVLINK_PARSE_STATE_GOT_MSGID, MAVLINK_PARSE_STATE_GOT_LENGTH,
    MAVLINK_PARSE_STATE_GOT_COMPID. lia.
Qed.

Lemma cursor_inv_step (ch : channel) (c : Z) (rm : mavlink_message_t)
    (rs : mavlink_status_t) :
  0 <= c < 256 -> cursor_inv ch ->
  cursor_inv (chan_after (mavlink_parse_char ch c rm rs)).
Proof.
  intros Hc. unfold cursor_inv. cbv zeta. intros (Hl & Hi & Hm & Hh).
  rewrite parse_char_unfold. unfold armed.
  destruct ch as [s rx]. fields. cbn [m_mavlink_status m_mavlink_message] in *.
  assert (Hinit :
    mavlink_parse_state_initialize s = s \/
    (parse_state (mavlink_parse_state_initialize s) = 0 /\
     packet_idx (mavlink_parse_state_initialize s) = 0)).
  { unfold mavlink_parse_state_initialize.
    destruct (_ || _); [right; split; reflexivity | left; reflexivity]. }
  set (s0 := mavlink_parse_state_initialize s) in *.
  assert (H0 : 0 <= packet_idx s0 <= len rx /\
               (parse_state s0 = 7 -> packet_idx s0 < len rx) /\
               (3 <= parse_state s0 <= 6 -> packet_idx s0 = 0)).
  { destruct Hinit as [->|[E1 E2]]; [repeat split; tauto|].
    rewrite E1, E2. repeat split; lia. }
  clearbody s0. clear Hinit Hi Hm Hh s.
  destruct H0 as (Hi & Hm & Hh).
  unfold parse_switch. fields.
  unfold MAVLINK_PARSE_STATE_UNINIT, MAVLINK_PARSE_STATE_IDLE,
    MAVLINK_PARSE_STATE_GOT_STX, MAVLINK_PARSE_STATE_GOT_LENGTH,
    MAVLINK_PARSE_STATE_GOT_SEQ, MAVLINK_PARSE_STATE_GOT_SYSID,
    MAVLINK_PARSE_STATE_GOT_COMPID, MAVLINK_PARSE_STATE_GOT_MSGID,
    MAVLINK_PARSE_STATE_GOT_PAYLOAD, MAVLINK_PARSE_STATE_GOT_CRC1 in *.
  repeat match goal with
         | |- context [if ?b then _ else _] => destruct b eqn:?
         end;
    unfold mavlink_update_checksum, mavlink_start_checksum; fields;
    repeat match goal with
           | |- context [seq_accounting ?a ?b] =>
               let H := fresh in
               destruct (seq_accounting_frame a b) as (_ & _ & H & H');
               rewrite ?H, ?H'; clear H H'
           end; fields;
    repeat match goal with
           | H : (_ || _) = true |- _ => apply orb_true_iff in H
           | H : (_ || _) = false |- _ => apply orb_false_iff in H; destruct H
           | H : (_ =? _) = true |- _ => apply Z.eqb_eq in H
           | H : (_ =? _) = false |- _ => apply Z.eqb_neq in H
           | H : negb _ = true |- _ => apply negb_true_iff in H
           | H : negb _ = false |- _ => apply negb_false_iff in H
           end;
    unfold mavlink_update_checksum in *;
    cbn [len packet_idx with_msgid with_payload with_packet_idx with_ck_a
         with_ck_b] in *;
    try (rewrite (uint8_t_small (packet_idx s0 + 1)) in * by lia);
    repeat split; try lia.
Qed.

Lemma cursor_inv_run (bytes : list Z) : forall r : reader,
  Forall (fun c => 0 <= c < 256) bytes ->
  cursor_inv (rd_channel r) ->
  cursor_inv (rd_channel (snd (read_bytes r bytes))).
Proof.
  induction bytes as [|c bytes IH]; intros r Hb Hr; [exact Hr|].
  rewrite read_bytes_cons. cbn [snd].
  apply IH; [exact (Forall_inv_tail Hb)|].
  unfold read_byte. cbn [snd rd_channel].
  apply cursor_inv_step; [exact (Forall_inv Hb) | exact Hr].
Qed.

(** C9: on every channel reached from an unused one by feeding bytes, the
    cursor is at most the length byte of the frame under reassembly, which
    is at most 255, before and after the next call; and when that call
    stores a payload byte, it stores it at the cursor, which is then
    strictly below the length, hence at most 254. *)
Theorem payload_cursor_within_length (bytes : list Z)
    (rm : mavlink_message_t) (rs : mavlink_status_t) (c : Z) :
  Forall (fun b => 0 <= b < 256) bytes -> 0 <= c < 256 ->
  let r := snd (read_bytes (mk_reader fresh_channel rm rs) bytes) in
  let ch := rd_channel r in
  let ch' := chan_after (mavlink_parse_char ch c (rd_message r) (rd_status r)) in
  0 <= packet_idx (m_mavlink_status ch) <= len (m_mavlink_message ch) /\
  len (m_mavlink_message ch) <= 255 /\
  0 <= packet_idx (m_mavlink_status ch') <= len (m_mavlink_message ch') /\
  len (m_mavlink_message ch') <= 255 /\
  (forall i : Z, payload_store_index ch = Some i ->
     i = packet_idx (m_mavlink_status ch) /\
     0 <= i < len (m_mavlink_message ch) /\ i <= 254 /\
     payload (m_mavlink_message ch')
       = <[Z.to_nat i := c]> (payload (m_mavlink_message ch))) /\
  (payload_store_index ch = None ->
     payload (m_mavlink_message ch') = payload (m_mavlink_message ch)).
Proof.
  intros Hb Hc r ch ch'.
  assert (Hinv : cursor_inv ch)
    by (apply cursor_inv_run; [exact Hb | apply cursor_inv_fresh]).
  assert (Hinv' : cursor_inv ch') by (apply cursor_inv_step; assumption).
  pose proof (payload_store_spec ch c (rd_message r) (rd_status r)) as Hst.
  fold ch' in Hst.
  destruct Hinv as (Hl & Hi & Hm & _). destruct Hinv' as (Hl' & Hi' & _).
  cbv zeta in *.
  split; [lia|]. split; [lia|]. split; [lia|]. split; [lia|]. split.
  - intros i H. pose proof H as H'. unfold payload_store_index in H'.
    destruct (Z.eqb_spec
      (parse_state (mavlink_parse_state_initialize (m_mavlink_status ch)))
      MAVLINK_PARSE_STATE_GOT_MSGID) as [E|E]; [|discriminate].
    assert (Hid : mavlink_parse_state_initialize (m_mavlink_status ch)
                  = m_mavlink_status ch).
    { unfold mavlink_parse_state_initialize in *.
      destruct (_ || _); [cbn [parse_state] in E; discriminate | reflexivity]. }
    rewrite Hid in *. injection H' as <-. split; [reflexivity|].
    specialize (Hm E). split; [lia|]. split; [lia|].
    rewrite Hst, H. reflexivity.
  - intros Hn. rewrite Hst, Hn. reflexivity.
Qed.

(** ** The channel initializer *)

(** C8, as the code has it: the initializer leaves a status alone exactly
    when its state is one of [IDLE] .. [GOT_CRC1]; on [UNINIT] and on
    anything outside the enumeration it clears every field but
    [current_seq] and stores [UNINIT].  Calling it again changes nothing. *)
Theorem initialize_keeps_started_channel (s : mavlink_status_t) :
  (MAVLINK_PARSE_STATE_IDLE <= parse_state s <= MAVLINK_PARSE_STATE_GOT_CRC1 ->
   mavlink_parse_state_initialize s = s) /\
  (parse_state s <= MAVLINK_PARSE_STATE_UNINIT \/
   MAVLINK_PARSE_STATE_GOT_CRC1 < parse_state s ->
   mavlink_parse_state_initialize s =
   mk_status 0 0 0 0 0 MAVLINK_PARSE_STATE_UNINIT 0 (current_seq s) 0 0) /\
  mavlink_parse_state_initialize (mavlink_parse_state_initialize s)
    = mavlink_parse_state_initialize s.
Proof.
  split; [|split].
  - intros H. apply initialize_valid.
    unfold MAVLINK_PARSE_STATE_IDLE, MAVLINK_PARSE_STATE_UNINIT in *. lia.
  - intros H. unfold mavlink_parse_state_initialize.
    destruct (Z.leb_spec (parse_state s) MAVLINK_PARSE_STATE_UNINIT) as [H1|H1];
      cbn [orb]; [reflexivity|].
    destruct (Z.gtb_spec (parse_state s) MAVLINK_PARSE_STATE_GOT_CRC1) as [H2|H2];
      [reflexivity | lia].
  - unfold mavlink_parse_state_initialize.
    destruct ((parse_state s <=? MAVLINK_PARSE_STATE_UNINIT)
              || (parse_state s >? MAVLINK_PARSE_STATE_GOT_CRC1)) eqn:E.
    + reflexivity.
    + rewrite E. reflexivity.
Qed.

End ProtocolFacts.

(** * Field packing: properties *)

Lemma land_byte (b : Z) : Z.land b 255 = (b / 256 ^ 0) mod 256.
Proof.
  change 255 with (Z.ones 8). rewrite Z.land_ones by lia.
  rewrite Z.pow_0_r, Z.div_1_r. reflexivity.
Qed.

Lemma land_shiftr_byte (b k : Z) :
  0 <= k -> Z.land (Z.shiftr b (8 * k)) 255 = (b / 256 ^ k) mod 256.
Proof.
  intros Hk. change 255 with (Z.ones 8). rewrite Z.land_ones by lia.
  rewrite Z.shiftr_div_pow2 by lia. rewrite Z.pow_mul_r by lia. reflexivity.
Qed.

Lemma byte_of_mod (v : Z) (k n : nat) :
  (k < n)%nat ->
  ((v mod 256 ^ Z.of_nat n) / 256 ^ Z.of_nat k) mod 256
  = (v / 256 ^ Z.of_nat k) mod 256.
Proof.
  intros Hkn.
  replace (Z.of_nat n) with (Z.of_nat k + (1 + Z.of_nat (n - k - 1))) by lia.
  rewrite Z.pow_add_r by lia.
  set (a := 256 ^ Z.of_nat k).
  assert (Ha : 0 < a) by (apply Z.pow_pos_nonneg; lia).
  rewrite Z.pow_add_r by lia. change (256 ^ 1) with 256.
  set (m := 256 ^ Z.of_nat (n - k - 1)).
  assert (Hm : 0 < m) by (apply Z.pow_pos_nonneg; lia).
  rewrite Z.rem_mul_r by lia.
  rewrite (Z.mul_comm a), Z.div_add by lia.
  rewrite Z.div_small by (apply Z.mod_pos_bound; exact Ha).
  rewrite Z.add_0_l.
  apply Z.mod_mod_divide. exists m. lia.
Qed.

Lemma be_bytes_mod_le (v : Z) (n : nat) : forall k : nat,
  (k <= n)%nat -> be_bytes k (v mod 256 ^ Z.of_nat n) = be_bytes k v.
Proof.
  induction k as [|k IH]; intros Hk; [reflexivity|].
  cbn [be_bytes]. rewrite byte_of_mod by lia. rewrite IH by lia. reflexivity.
Qed.

Lemma be_bytes_mod (v : Z) (n : nat) :
  be_bytes n (v mod 256 ^ Z.of_nat n) = be_bytes n v.
Proof. apply be_bytes_mod_le. lia. Qed.

Lemma be_value_app (xs : list Z) (acc : Z) :
  fold_left (fun a b => a * 256 + b) xs acc
  = acc * 256 ^ Z.of_nat (length xs) + be_value xs.
Proof.
  unfold be_value. revert acc.
  induction xs as [|x xs IH]; intros acc.
  - cbn [fold_left length]. change (Z.of_nat 0) with 0. lia.
  - cbn [fold_left length]. rewrite IH, (IH (0 * 256 + x)).
    rewrite Nat2Z.inj_succ, Z.pow_succ_r by lia. lia.
Qed.

Lemma be_bytes_length (n : nat) (v : Z) : length (be_bytes n v) = n.
Proof. induction n as [|n IH]; [reflexivity|]. cbn [be_bytes length]. lia. Qed.

(** Reading the bytes back gives the value modulo 2^(8n): the bytes are
    the base-256 digits of the [n]-byte two's complement pattern. *)
Lemma be_value_be_bytes (n : nat) (v : Z) :
  be_value (be_bytes n v) = v mod 256 ^ Z.of_nat n.
Proof.
  induction n as [|n IH].
  - cbn [be_bytes]. change (256 ^ Z.of_nat 0) with 1. rewrite Z.mod_1_r.
    reflexivity.
  - cbn [be_bytes]. unfold be_value. cbn [fold_left].
    rewrite be_value_app, be_bytes_length, IH.
    rewrite Nat2Z.inj_succ, Z.pow_succ_r by lia.
    assert (Ha : 0 < 256 ^ Z.of_nat n) by (apply Z.pow_pos_nonneg; lia).
    rewrite (Z.mul_comm 256), Z.rem_mul_r by lia. lia.
Qed.

Lemma signed_pattern (w b : Z) : 0 < w -> signed w b mod 2 ^ w = b mod 2 ^ w.
Proof.
  intros Hw. unfold signed.
  assert (Hp : 0 < 2 ^ w) by (apply Z.pow_pos_nonneg; lia).
  destruct (_ <? _).
  - apply Z.mod_mod. lia.
  - replace (b mod 2 ^ w - 2 ^ w) with (b mod 2 ^ w + (-1) * 2 ^ w) by lia.
    rewrite Z.mod_add by lia. apply Z.mod_mod. lia.
Qed.

Ltac window_of n :=
  rewrite <- (memcpy_window n) by (rewrite ?be_bytes_length; cbn [length]; lia);
  cbn [memcpy be_bytes].

Ltac offsets bindex :=
  replace (Z.to_nat (bindex + 1)) with (S (Z.to_nat bindex)) by lia;
  try replace (Z.to_nat (bindex + 2)) with (S (S (Z.to_nat bindex))) by lia;
  try replace (Z.to_nat (bindex + 3)) with (S (S (S (Z.to_nat bindex)))) by lia;
  try replace (Z.to_nat (bindex + 4))
    with (S (S (S (S (Z.to_nat bindex))))) by lia;
  try replace (Z.to_nat (bindex + 5))
    with (S (S (S (S (S (Z.to_nat bindex)))))) by lia;
  try replace (Z.to_nat (bindex + 6))
    with (S (S (S (S (S (S (Z.to_nat bindex))))))) by lia;
  try replace (Z.to_nat (bindex + 7))
    with (S (S (S (S (S (S (S (Z.to_nat bindex)))))))) by lia.

Lemma put_uint8_t_stored (b bindex : Z) (buffer : list Z) :
  0 <= bindex -> (Z.to_nat bindex + 1 <= length buffer)%nat ->
  put_uint8_t_by_index b bindex buffer
  = (1, take (Z.to_nat bindex) buffer ++ [b] ++ drop (Z.to_nat bindex + 1) buffer).
Proof.
  intros H0 Hb. unfold put_uint8_t_by_index. f_equal.
  change [b] with (take 1 [b]). window_of 1%nat. reflexivity.
Qed.

Lemma put_uint16_t_stored (b bindex : Z) (buffer : list Z) :
  0 <= bindex -> (Z.to_nat bindex + 2 <= length buffer)%nat ->
  stored_big_endian (put_uint16_t_by_index b bindex buffer) 2 b bindex buffer.
Proof.
  intros H0 Hb. unfold stored_big_endian, put_uint16_t_by_index. cbn [fst snd].
  split; [reflexivity|]. offsets bindex.
  change 8 with (8 * 1). rewrite land_shiftr_byte, land_byte by lia.
  rewrite <- (firstn_all (be_bytes 2 b)). rewrite be_bytes_length.
  window_of 2%nat. reflexivity.
Qed.

Lemma put_int32_t_stored (b bindex : Z) (buffer : list Z) :
  0 <= bindex -> (Z.to_nat bindex + 4 <= length buffer)%nat ->
  stored_big_endian (put_int32_t_by_index b bindex buffer) 4 b bindex buffer.
Proof.
  intros H0 Hb. unfold stored_big_endian, put_int32_t_by_index. cbn [fst snd].
  split; [reflexivity|]. offsets bindex.
  change 24 with (8 * 3). change 16 with (8 * 2).
  change (Z.shiftr b 8) with (Z.shiftr b (8 * 1)).
  rewrite !land_shiftr_byte, land_byte by lia.
  rewrite <- (firstn_all (be_bytes 4 b)). rewrite be_bytes_length.
  window_of 4%nat. reflexivity.
Qed.

Lemma put_uint32_t_stored (b bindex : Z) (buffer : list Z) :
  0 <= bindex -> (Z.to_nat bindex + 4 <= length buffer)%nat ->
  stored_big_endian (put_uint32_t_by_index b bindex buffer) 4 b bindex buffer.
Proof. exact (put_int32_t_stored b bindex buffer). Qed.

Lemma put_uint64_t_stored (b bindex : Z) (buffer : list Z) :
  0 <= bindex -> (Z.to_nat bindex + 8 <= length buffer)%nat ->
  stored_big_endian (put_uint64_t_by_index b bindex buffer) 8 b bindex buffer.
Proof.
  intros H0 Hb. unfold stored_big_endian, put_uint64_t_by_index. cbn [fst snd].
  split; [reflexivity|]. offsets bindex.
  change 56 with (8 * 7). change 48 with (8 * 6). change 40 with (8 * 5).
  change 32 with (8 * 4). change 24 with (8 * 3). change 16 with (8 * 2).
  change (Z.shiftr b 8) with (Z.shiftr b (8 * 1)).
  rewrite !land_shiftr_byte, land_byte by lia.
  rewrite <- (firstn_all (be_bytes 8 b)). rewrite be_bytes_length.
  window_of 8%nat. reflexivity.
Qed.

Lemma stored_big_endian_congr (res : Z * list Z) (n : nat) (v w : Z)
    (bindex : Z) (buffer : list Z) :
  v mod 256 ^ Z.of_nat n = w mod 256 ^ Z.of_nat n ->
  stored_big_endian res n v bindex buffer ->
  stored_big_endian res n w bindex buffer.
Proof.
  intros Hvw [Hr Hb]. split; [exact Hr|].
  rewrite Hb, <- (be_bytes_mod v), Hvw, be_bytes_mod. reflexivity.
Qed.

(** C6: each [put_..._by_index] stores the bytes of its value at
    [buffer[bindex ..]], most significant byte first, and returns their
    number: 2, 4 and 8 for the 16-, 32- and 64-bit integers of either
    signedness, 4 for a [float], whose 32 bits are stored as they are, and 1
    for the single byte of [put_uint8_t_by_index].  Read back most
    significant byte first, the stored bytes give the value modulo 2^(8n),
    which is the value itself when it fits. *)
Theorem put_by_index_big_endian (b bindex : Z) (buffer : list Z) :
  0 <= bindex ->
  ((Z.to_nat bindex + 1 <= length buffer)%nat ->
   put_uint8_t_by_index b bindex buffer
   = (1, take (Z.to_nat bindex) buffer ++ [b]
           ++ drop (Z.to_nat bindex + 1) buffer)) /\
  ((Z.to_nat bindex + 2 <= length buffer)%nat ->
   stored_big_endian (put_uint16_t_by_index b bindex buffer) 2 b bindex buffer /\
   stored_big_endian (put_int16_t_by_index b bindex buffer) 2 b bindex buffer) /\
  ((Z.to_nat bindex + 4 <= length buffer)%nat ->
   stored_big_endian (put_uint32_t_by_index b bindex buffer) 4 b bindex buffer /\
   stored_big_endian (put_int32_t_by_index b bindex buffer) 4 b bindex buffer /\
   stored_big_endian (put_float_by_index b bindex buffer) 4 b bindex buffer) /\
  ((Z.to_nat bindex + 8 <= length buffer)%nat ->
   stored_big_endian (put_uint64_t_by_index b bindex buffer) 8 b bindex buffer /\
   stored_big_endian (put_int64_t_by_index b bindex buffer) 8 b bindex buffer) /\
  (forall n : nat, be_value (be_bytes n b) = b mod 256 ^ Z.of_nat n) /\
  (forall n : nat, 0 <= b < 256 ^ Z.of_nat n -> be_value (be_bytes n b) = b).
Proof.
  intros H0.
  split; [intros Hb; apply put_uint8_t_stored; assumption|].
  split; [intros Hb; split|].
  { apply put_uint16_t_stored; assumption. }
  { unfold put_int16_t_by_index.
    apply (stored_big_endian_congr _ 2 (uint16_t b) b).
    - unfold uint16_t. change (256 ^ Z.of_nat 2) with 65536.
      apply Z.mod_mod. lia.
    - apply put_uint16_t_stored; assumption. }
  split; [intros Hb; split; [|split]|].
  { apply put_uint32_t_stored; assumption. }
  { apply put_int32_t_stored; assumption. }
  { unfold put_float_by_index.
    apply (stored_big_endian_congr _ 4 (signed 32 b) b).
    - change (256 ^ Z.of_nat 4) with (2 ^ 32). apply signed_pattern. lia.
    - apply put_int32_t_stored; assumption. }
  split; [intros Hb; split|].
  { apply put_uint64_t_stored; assumption. }
  { unfold put_int64_t_by_index.
    apply (stored_big_endian_congr _ 8 (uint64_t b) b).
    - unfold uint64_t. change (256 ^ Z.of_nat 8) with 18446744073709551616.
      apply Z.mod_mod. lia.
    - apply put_uint64_t_stored; assumption. }
  split; [intros n; apply be_value_be_bytes|].
  intros n Hn. rewrite be_value_be_bytes. apply Z.mod_small. exact Hn.
Qed.

(** * Concrete runs, with the X.25 checksum and the delimiter 85 *)

Example end_to_end_frame :
  let msg := fst (fst (finalize_message demo_draft 1 1 4 0)) in
  let out := message_to_send_buffer (replicate 12%nat 0) msg in
  out = ([85; 4; 0; 1; 1; 0; 1; 2; 3; 4; 76; 47], 12).
Proof. vm_compute. reflexivity. Qed.

Example be_bytes_example : be_bytes 4 305419896 = [18; 52; 86; 120].
Proof. reflexivity. Qed.

Lemma roundtrip_fresh_channel_witness :
  let msg := fst (fst (finalize_message demo_draft 1 1 4 0)) in
  let out := message_to_send_buffer (replicate 12%nat 0) msg in
  let wire := take (Z.to_nat (snd out)) (fst out) in
  exists m : mavlink_message_t,
    decoded (fst (read_bytes demo_reader wire)) = [m] /\
    len m = 4 /\ sysid m = 1 /\ compid m = 1 /\ msgid m = 0 /\
    take 4 (payload m) = take 4 (payload demo_draft).
Proof.
  destruct (roundtrip_fresh_channel demo_draft 1 1 4 0 (replicate 12%nat 0)
              zero_message zero_status)
    as (m & _ & Hd & Hl & _ & Hs & _ & Hc & _ & Hm & _ & Hp & _);
    [lia | reflexivity | vm_compute; lia |].
  exists m. repeat split; assumption.
Defined.



(** The corrupted frame of C2 has to carry as many payload bytes as its
    length byte says.  A frame of two payload bytes whose length byte has
    become 6, with the trailer of the frame as it was sent: the parser counts
    its trailer and the first bytes of the well-formed frame behind it as
    payload, and that frame is not decoded. *)
Example resync_lost_when_length_byte_corrupted :
  let sent := good_frame 2 7 1 1 0 [9; 8] in
  let bad := <[1%nat := 6]> sent in
  let good := good_frame 1 8 1 1 3 [5] in
  sent = [85; 2; 7; 1; 1; 0; 9; 8; 74; 20] /\
  bad = [85; 6; 7; 1; 1; 0; 9; 8; 74; 20] /\
  decoded (fst (read_bytes demo_reader (sent ++ good)))
    = [mk_message 2 7 1 1 0 ([9; 8] ++ replicate 253%nat 0) 74 20;
       mk_message 1 8 1 1 3 ([5; 8] ++ replicate 253%nat 0) 217 109] /\
  decoded (fst (read_bytes demo_reader (bad ++ good))) = [] /\
  parse_state
    (m_mavlink_status (rd_channel (snd (read_bytes demo_reader (bad ++ good)))))
    = MAVLINK_PARSE_STATE_IDLE.
Proof. vm_compute. repeat split. Qed.

(** A frame is accepted and, without the caller doing anything, a delimiter
    and one more byte follow: that byte is taken as a length, no overrun is
    counted. *)
Example overrun_not_counted_after_frame :
  let r := snd (read_bytes demo_reader (good_frame 0 0 0 0 0 [] ++ [85; 85])) in
  let s := m_mavlink_status (rd_channel r) in
  decoded (fst (read_bytes demo_reader (good_frame 0 0 0 0 0 [] ++ [85; 85])))
    = [mk_message 0 0 0 0 0 (replicate 255%nat 0) 136 48] /\
  parse_state s = MAVLINK_PARSE_STATE_GOT_LENGTH /\
  len (m_mavlink_message (rd_channel r)) = 85 /\
  buffer_overrun s = 0 /\ parse_error s = 0.
Proof. vm_compute. repeat split. Qed.

Lemma overrun_branch_never_taken_witness :
  let stale :=
    mk_channel (mk_status 0 0 1 0 0 MAVLINK_PARSE_STATE_GOT_STX 0 0 1 0)
               zero_message in
  let after :=
    chan_after (mavlink_parse_char stale MAVLINK_STX zero_message zero_status) in
  parse_state (m_mavlink_status after) = MAVLINK_PARSE_STATE_GOT_LENGTH /\
  buffer_overrun (m_mavlink_status after) = 0 /\
  parse_error (m_mavlink_status after) = 0.
Proof.
  cbv zeta.
  destruct (overrun_branch_never_taken
              (mk_channel (mk_status 0 0 1 0 0 MAVLINK_PARSE_STATE_GOT_STX 0 0 1 0)
                          zero_message)
              MAVLINK_STX zero_message zero_status) as [_ H].
  destruct (H eq_refl) as (Hs & _ & Hb & He).
  repeat split; assumption.
Defined.

Lemma checksum_mismatch_rejected_witness :
  let res := mavlink_parse_char in_trailer 1 zero_message zero_status in
  parse_error (m_mavlink_status (chan_after res)) = 4 /\
  parse_state (m_mavlink_status (chan_after res)) = MAVLINK_PARSE_STATE_IDLE /\
  returned res = 0 /\ r_message res = zero_message.
Proof.
  cbv zeta.
  destruct (checksum_mismatch_rejected in_trailer 1 zero_message zero_status)
    as (_ & He & Hs & Hr & Hm & _).
  - left. split; [reflexivity | vm_compute; discriminate].
  - split; [apply He; vm_compute; split; [discriminate | reflexivity]|].
    split; [exact Hs|]. split; [exact Hr | exact Hm].
Defined.

Lemma empty_payload_accepted_witness :
  states_along demo_reader (good_frame 0 5 1 1 0 []) =
    [MAVLINK_PARSE_STATE_GOT_STX; MAVLINK_PARSE_STATE_GOT_LENGTH;
     MAVLINK_PARSE_STATE_GOT_SEQ; MAVLINK_PARSE_STATE_GOT_SYSID;
     MAVLINK_PARSE_STATE_GOT_COMPID; MAVLINK_PARSE_STATE_GOT_PAYLOAD;
     MAVLINK_PARSE_STATE_GOT_CRC1; MAVLINK_PARSE_STATE_IDLE] /\
  map len (decoded (fst (read_bytes demo_reader (good_frame 0 5 1 1 0 []))))
    = [0] /\
  map seq (decoded (fst (read_bytes demo_reader (good_frame 0 5 1 1 0 []))))
    = [5].
Proof.
  destruct (empty_payload_accepted fresh_channel zero_message zero_status
              5 1 1 0 fresh_channel_waits)
    as (_ & Hs & _ & _ & Hd & _).
  split; [exact Hs|].
  split; [exact (f_equal (map len) Hd) | exact (f_equal (map seq) Hd)].
Defined.

Lemma payload_cursor_within_length_witness :
  let r := snd (read_bytes demo_reader [85; 2; 0; 1; 1; 0; 7]) in
  let ch := rd_channel r in
  payload_store_index ch = Some 1 /\
  0 <= packet_idx (m_mavlink_status ch) <= len (m_mavlink_message ch) /\
  len (m_mavlink_message ch) <= 255 /\
  1 < len (m_mavlink_message ch).
Proof.
  cbv zeta.
  destruct (payload_cursor_within_length [85; 2; 0; 1; 1; 0; 7]
              zero_message zero_status 9)
    as (Hi & Hl & _ & _ & Hst & _).
  - repeat constructor; lia.
  - lia.
  - assert (Hidx : payload_store_index
                     (rd_channel (snd (read_bytes demo_reader
                                         [85; 2; 0; 1; 1; 0; 7]))) = Some 1)
      by (vm_compute; reflexivity).
    destruct (Hst 1 Hidx) as (_ & Hlt & _).
    repeat split; try assumption; lia.
Defined.

Lemma r_message_written_only_on_acceptance_witness :
  r_message (mavlink_parse_char in_trailer 1 demo_draft zero_status) = demo_draft.
Proof.
  destruct (r_message_written_only_on_acceptance in_trailer 1 demo_draft
              zero_status) as [H _].
  apply H. vm_compute. reflexivity.
Defined.

Lemma put_by_index_big_endian_witness :
  stored_big_endian (put_uint32_t_by_index 305419896 1 (replicate 6%nat 0))
                    4 305419896 1 (replicate 6%nat 0) /\
  stored_big_endian (put_float_by_index 1065353216 1 (replicate 6%nat 0))
                    4 1065353216 1 (replicate 6%nat 0) /\
  be_value (be_bytes 4 305419896) = 305419896.
Proof.
  destruct (put_by_index_big_endian 305419896 1 (replicate 6%nat 0))
    as (_ & _ & H32 & _ & _ & Hv); [lia|].
  destruct (put_by_index_big_endian 1065353216 1 (replicate 6%nat 0))
    as (_ & _ & Hf & _); [lia|].
  destruct H32 as (Hu & _); [vm_compute; lia|].
  destruct Hf as (_ & _ & Hf); [vm_compute; lia|].
  split; [exact Hu|]. split; [exact Hf|].
  apply (Hv 4%nat). vm_compute. split; [discriminate | reflexivity].
Defined.

Lemma initialize_keeps_started_channel_witness :
  mavlink_parse_state_initialize (m_mavlink_status in_trailer)
    = m_mavlink_status in_trailer /\
  mavlink_parse_state_initialize uninit_with_counters
    = mk_status 0 0 0 0 0 MAVLINK_PARSE_STATE_UNINIT 0 5 0 0.
Proof.
  split.
  - apply (proj1 (initialize_keeps_started_channel (m_mavlink_status in_trailer))).
    vm_compute. split; discriminate.
  - apply (proj1 (proj2 (initialize_keeps_started_channel uninit_with_counters))).
    left. vm_compute. discriminate.
Defined.

(** C8 fails as stated: [UNINIT] is a state of the enumeration, and a
    status that holds it with counters set does not come back unchanged. *)
Lemma initialize_resets_uninit_status :
  MAVLINK_PARSE_STATE_UNINIT <= parse_state uninit_with_counters
    <= MAVLINK_PARSE_STATE_GOT_CRC1 /\
  mavlink_parse_state_initialize uninit_with_counters <> uninit_with_counters /\
  parse_error (mavlink_parse_state_initialize uninit_with_counters) = 0 /\
  parse_error uninit_with_counters = 3.
Proof.
  split; [vm_compute; split; discriminate|].
  split; [vm_compute; discriminate|].
  split; reflexivity.
Qed.

(** * More of [protocol.h] *)

Ltac projections :=
  cbn [len seq sysid compid msgid payload ck_a ck_b
       status_ck_a status_ck_b msg_received buffer_overrun parse_error
       parse_state packet_idx current_seq packet_rx_success_count
       packet_rx_drop_count
       with_len with_seq with_sysid with_compid with_msgid with_payload
       with_ck_a with_ck_b with_msg_received with_buffer_overrun
       with_parse_error with_parse_state with_packet_idx with_current_seq
       with_packet_rx_success_count with_packet_rx_drop_count
       m_mavlink_status m_mavlink_message rd_channel rd_message rd_status
       returned r_message r_mavlink_status chan_after fst snd].

Ltac state_numbers :=
  unfold MAVLINK_PARSE_STATE_UNINIT, MAVLINK_PARSE_STATE_IDLE,
    MAVLINK_PARSE_STATE_GOT_STX, MAVLINK_PARSE_STATE_GOT_LENGTH,
    MAVLINK_PARSE_STATE_GOT_SEQ, MAVLINK_PARSE_STATE_GOT_SYSID,
    MAVLINK_PARSE_STATE_GOT_COMPID, MAVLINK_PARSE_STATE_GOT_MSGID,
    MAVLINK_PARSE_STATE_GOT_PAYLOAD, MAVLINK_PARSE_STATE_GOT_CRC1 in *.

Ltac branches :=
  repeat match goal with
         | |- context [if ?b then _ else _] => destruct b eqn:?
         end.

Ltac booleans :=
  repeat match goal with
         | H : (_ || _) = true |- _ => apply orb_true_iff in H
         | H : (_ || _) = false |- _ => apply orb_false_iff in H; destruct H
         | H : (_ =? _) = true |- _ => apply Z.eqb_eq in H
         | H : (_ =? _) = false |- _ => apply Z.eqb_neq in H
         | H : negb _ = true |- _ => apply negb_true_iff in H
         | H : negb _ = false |- _ => apply negb_false_iff in H
         end.

Section ParserCalls.

Context {W : wire_params}.

Lemma armed_state_range (ch : channel) :
  MAVLINK_PARSE_STATE_UNINIT <= parse_state (armed ch)
    <= MAVLINK_PARSE_STATE_GOT_CRC1.
Proof.
  unfold armed, mavlink_parse_state_initialize. projections.
  destruct (Z.leb_spec (parse_state (m_mavlink_status ch))
                       MAVLINK_PARSE_STATE_UNINIT) as [H1|H1]; cbn [orb].
  - projections. state_numbers. lia.
  - destruct (Z.gtb_spec (parse_state (m_mavlink_status ch))
                         MAVLINK_PARSE_STATE_GOT_CRC1) as [H2|H2];
      projections; state_numbers; lia.
Qed.

Lemma armed_state_started (ch : channel) :
  channel_started ch ->
  parse_state (armed ch) = parse_state (m_mavlink_status ch).
Proof.
  intros H. rewrite armed_after_start by exact H. reflexivity.
Qed.

(** The state the [switch] leaves. *)
Lemma parse_switch_state (c : Z) (s : mavlink_status_t)
    (rx rm : mavlink_message_t) :
  let s' := fst (fst (parse_switch c s rx rm)) in
  (MAVLINK_PARSE_STATE_UNINIT <= parse_state s <= MAVLINK_PARSE_STATE_GOT_CRC1 ->
   MAVLINK_PARSE_STATE_UNINIT <= parse_state s' <= MAVLINK_PARSE_STATE_GOT_CRC1) /\
  (MAVLINK_PARSE_STATE_IDLE <= parse_state s <= MAVLINK_PARSE_STATE_GOT_CRC1 ->
   MAVLINK_PARSE_STATE_IDLE <= parse_state s' <= MAVLINK_PARSE_STATE_GOT_CRC1).
Proof.
  cbv zeta. unfold parse_switch. state_numbers.
  branches; projections; booleans; split; intros; lia.
Qed.

(** The [switch] does not touch the loss accounting. *)
Lemma parse_switch_loss_fields (c : Z) (s : mavlink_status_t)
    (rx rm : mavlink_message_t) :
  let s' := fst (fst (parse_switch c s rx rm)) in
  current_seq s' = current_seq s /\
  packet_rx_success_count s' = packet_rx_success_count s /\
  packet_rx_drop_count s' = packet_rx_drop_count s.
Proof.
  cbv zeta. unfold parse_switch. branches; projections; repeat split.
Qed.

Lemma parse_switch_ignores_r_message (c : Z) (s : mavlink_status_t)
    (rx rm rm' : mavlink_message_t) :
  fst (parse_switch c s rx rm) = fst (parse_switch c s rx rm').
Proof. unfold parse_switch. branches; reflexivity. Qed.

Lemma seq_loop_success_count (fuel : nat) : forall (s : mavlink_status_t) (x : Z),
  packet_rx_success_count (seq_loop fuel s x) = packet_rx_success_count s.
Proof.
  induction fuel as [|fuel IH]; intros s x; [reflexivity|].
  rewrite seq_loop_S. destruct (current_seq s =? x); cbn [negb]; [reflexivity|].
  rewrite IH. reflexivity.
Qed.

(** X1: whatever a channel holds, a call leaves its parse state inside the
    enumeration, and a channel that has left [UNINIT] never comes back to
    it: from [IDLE] .. [GOT_CRC1] every byte leads to [IDLE] ..
    [GOT_CRC1]. *)
Theorem parse_state_stays_in_range (ch : channel) (c : Z)
    (rm : mavlink_message_t) (rs : mavlink_status_t) :
  let after := chan_after (mavlink_parse_char ch c rm rs) in
  MAVLINK_PARSE_STATE_UNINIT <= parse_state (m_mavlink_status after)
    <= MAVLINK_PARSE_STATE_GOT_CRC1 /\
  (channel_started ch -> channel_started after).
Proof.
  cbv zeta. unfold channel_started. rewrite parse_char_unfold.
  destruct (parse_switch_state c (armed ch) (m_mavlink_message ch) rm)
    as [Hr Hs].
  destruct (parse_switch c (armed ch) (m_mavlink_message ch) rm) as [[s' rx'] rm'].
  cbn [fst] in Hr, Hs. projections.
  destruct (seq_accounting_frame s' rx') as (_ & _ & H3 & _). rewrite H3.
  split.
  - apply Hr. apply armed_state_range.
  - intros H. apply Hs. rewrite armed_state_started by exact H. exact H.
Qed.

(** X2: a call returns 1 exactly when the channel is in [GOT_CRC1] and the
    byte is [ck_b] of the message under reassembly; every other call
    returns 0. *)
Theorem accepts_iff_last_checksum_byte (ch : channel) (c : Z)
    (rm : mavlink_message_t) (rs : mavlink_status_t) :
  let res := mavlink_parse_char ch c rm rs in
  (returned res = 1 <->
   parse_state (m_mavlink_status ch) = MAVLINK_PARSE_STATE_GOT_CRC1 /\
   c = ck_b (m_mavlink_message ch)) /\
  (returned res = 0 \/ returned res = 1).
Proof.
  cbv zeta. rewrite parse_char_unfold.
  pose proof (parse_switch_outcome c (armed ch) (m_mavlink_message ch) rm
                (armed_msg_received ch)) as H.
  assert (Hst : parse_state (armed ch) = MAVLINK_PARSE_STATE_GOT_CRC1 ->
                parse_state (m_mavlink_status ch) = MAVLINK_PARSE_STATE_GOT_CRC1).
  { unfold armed, mavlink_parse_state_initialize. projections.
    destruct (_ || _); projections; [state_numbers; discriminate | tauto]. }
  assert (Hacc : parse_state (m_mavlink_status ch) = MAVLINK_PARSE_STATE_GOT_CRC1 ->
                 c = ck_b (m_mavlink_message ch) ->
                 msg_received
                   (fst (fst (parse_switch c (armed ch) (m_mavlink_message ch) rm)))
                 = 1).
  { intros Hs Hc.
    assert (Ha : parse_state (armed ch) = MAVLINK_PARSE_STATE_GOT_CRC1)
      by (rewrite armed_state_started; [exact Hs|];
          unfold channel_started; rewrite Hs; state_numbers; lia).
    unfold parse_switch. rewrite Ha. state_numbers.
    cbn [Z.eqb Pos.eqb orb]. rewrite Hc, Z.eqb_refl. reflexivity. }
  destruct (parse_switch c (armed ch) (m_mavlink_message ch) rm) as [[s' rx'] rm'].
  cbn [fst snd] in H, Hacc. projections. rewrite seq_accounting_msg_received.
  destruct H as [[H0 _]|(H1 & Hs & Hc & _)].
  - split; [|left; exact H0]. split.
    + intros E. rewrite H0 in E. discriminate.
    + intros [Hs Hc]. rewrite (Hacc Hs Hc) in H0. discriminate.
  - split; [|right; exact H1]. split.
    + intros _. split; [apply Hst; exact Hs | exact Hc].
    + intros _. exact H1.
Qed.

(** X3: on a channel that has left [UNINIT], the counters move only on
    their events.  [parse_error] stays as it is unless a trailer byte
    mismatches; a call that returns 0 leaves the received count, the drop
    count and [current_seq] as they are; a call that returns 1 adds one to
    the 16-bit received count and leaves the sequence number of the accepted
    message in [current_seq]. *)
Theorem counters_move_only_on_events (ch : channel) (c : Z)
    (rm : mavlink_message_t) (rs : mavlink_status_t) :
  channel_started ch ->
  let res := mavlink_parse_char ch c rm rs in
  let s := m_mavlink_status ch in
  let s' := m_mavlink_status (chan_after res) in
  (~ trailer_mismatch ch c -> parse_error s' = parse_error s) /\
  (returned res = 0 ->
   packet_rx_success_count s' = packet_rx_success_count s /\
   packet_rx_drop_count s' = packet_rx_drop_count s /\
   current_seq s' = current_seq s) /\
  (returned res = 1 ->
   packet_rx_success_count s' = uint16_t (packet_rx_success_count s + 1) /\
   current_seq s' = seq (m_mavlink_message (chan_after res)) /\
   parse_state s' = MAVLINK_PARSE_STATE_IDLE).
Proof.
  intros Hst. cbv zeta. rewrite parse_char_unfold.
  rewrite (armed_after_start ch Hst).
  set (s := m_mavlink_status ch) in *. set (rx := m_mavlink_message ch).
  split; [|split].
  - intros Hmis.
    assert (Hpe : parse_error (fst (fst (parse_switch c (with_msg_received 0 s) rx rm)))
                  = parse_error s).
    { unfold trailer_mismatch in Hmis. fold s rx in Hmis.
      unfold parse_switch. projections. state_numbers.
      branches; projections; booleans; try reflexivity; exfalso; apply Hmis;
        first [left; split; congruence | right; split; congruence]. }
    destruct (parse_switch c (with_msg_received 0 s) rx rm) as [[s' rx'] rm'].
    cbn [fst] in Hpe. projections.
    destruct (seq_accounting_frame s' rx') as (_ & H2 & _). rewrite H2. exact Hpe.
  - destruct (parse_switch_loss_fields c (with_msg_received 0 s) rx rm)
      as (Hc & Hs & Hd).
    destruct (parse_switch c (with_msg_received 0 s) rx rm) as [[s' rx'] rm'].
    cbn [fst] in Hc, Hs, Hd. projections.
    rewrite seq_accounting_msg_received. intros H0.
    rewrite seq_accounting_idle by exact H0.
    rewrite Hc, Hs, Hd. projections. repeat split.
  - destruct (parse_switch_loss_fields c (with_msg_received 0 s) rx rm)
      as (_ & Hs & _).
    destruct (parse_switch_state c (with_msg_received 0 s) rx rm) as [_ Hrange].
    pose proof (parse_switch_outcome c (with_msg_received 0 s) rx rm eq_refl) as Ho.
    assert (Hidle : msg_received
                      (fst (fst (parse_switch c (with_msg_received 0 s) rx rm))) = 1 ->
                    parse_state
                      (fst (fst (parse_switch c (with_msg_received 0 s) rx rm)))
                    = MAVLINK_PARSE_STATE_IDLE).
    { unfold parse_switch. projections. state_numbers.
      branches; projections; intros E; try reflexivity; discriminate E. }
    destruct (parse_switch c (with_msg_received 0 s) rx rm) as [[s' rx'] rm'].
    cbn [fst snd] in Hs, Ho, Hidle. projections.
    rewrite seq_accounting_msg_received. intros H1.
    destruct (seq_accounting_frame s' rx') as (_ & _ & H3 & _).
    rewrite H3. split; [|split; [|exact (Hidle H1)]].
    + unfold seq_accounting. rewrite H1. cbn [Z.eqb Pos.eqb].
      generalize 256%nat. intros fuel.
      pose proof (seq_loop_success_count fuel s' (seq rx')) as Hl.
      destruct (packet_rx_success_count
                  (with_current_seq (seq rx') (seq_loop fuel s' (seq rx'))) =? 0);
        projections; rewrite Hl, Hs; reflexivity.
    + unfold seq_accounting. rewrite H1. cbn [Z.eqb Pos.eqb].
      generalize 256%nat. intros fuel.
      destruct (packet_rx_success_count
                  (with_current_seq (seq rx') (seq_loop fuel s' (seq rx'))) =? 0);
        reflexivity.
Qed.

(** X4: what a call does to the channel and what it returns do not depend
    on the two buffers the caller passes in: the parser never reads
    [r_message] or [r_mavlink_status]. *)
Theorem parser_ignores_caller_buffers (ch : channel) (c : Z)
    (rm rm' : mavlink_message_t) (rs rs' : mavlink_status_t) :
  chan_after (mavlink_parse_char ch c rm rs)
    = chan_after (mavlink_parse_char ch c rm' rs') /\
  returned (mavlink_parse_char ch c rm rs)
    = returned (mavlink_parse_char ch c rm' rs').
Proof.
  rewrite !parse_char_unfold.
  pose proof (parse_switch_ignores_r_message c (armed ch) (m_mavlink_message ch)
                rm rm') as H.
  destruct (parse_switch c (armed ch) (m_mavlink_message ch) rm) as [[s1 rx1] rm1].
  destruct (parse_switch c (armed ch) (m_mavlink_message ch) rm') as [[s2 rx2] rm2].
  cbn [fst] in H. injection H as -> ->. split; reflexivity.
Qed.

(** X5: the loop of the loss accounting ends, and it counts the gap: on
    byte values 255 rounds are enough and more fuel changes nothing; when
    the loop stops [current_seq] is the accepted sequence number and the
    16-bit drop count has grown by the distance, modulo 256, from the old
    [current_seq] to it.  Nothing else of the status changes. *)
Theorem loss_loop_terminates (fuel : nat) (s : mavlink_status_t) (x : Z) :
  0 <= current_seq s < 256 -> 0 <= x < 256 ->
  0 <= packet_rx_drop_count s < 65536 ->
  (255 <= fuel)%nat ->
  seq_loop fuel s x = seq_loop 255 s x /\
  seq_loop fuel s x =
  with_current_seq x
    (with_packet_rx_drop_count
       (uint16_t (packet_rx_drop_count s + (x - current_seq s) mod 256)) s).
Proof.
  intros Hc Hx Hd Hf.
  assert (Hgap : 0 <= (x - current_seq s) mod 256 <= 255)
    by (pose proof (Z.mod_pos_bound (x - current_seq s) 256); lia).
  rewrite (seq_loop_closed fuel), (seq_loop_closed 255) by (assumption || lia).
  split; reflexivity.
Qed.

End ParserCalls.

Section ParserRuns.

Context {W : wire_params}.

Lemma armed_waits (ch : channel) (rx : mavlink_message_t) :
  waits_for_frame ch ->
  waits_for_frame (mk_channel (armed ch) rx) /\
  armed (mk_channel (armed ch) rx) = armed ch.
Proof.
  unfold waits_for_frame, armed, mavlink_parse_state_initialize. projections.
  intros [H|H]; rewrite H; state_numbers; cbn [Z.leb Z.gtb Z.compare Pos.compare
    Pos.compare_cont orb]; projections.
  - split; [left; reflexivity | reflexivity].
  - rewrite H. cbn [Z.leb Z.gtb Z.compare Pos.compare Pos.compare_cont orb].
    split; [right; reflexivity | reflexivity].
Qed.

Lemma decoded_replicate_none (n : nat) : decoded (replicate n None) = [].
Proof. induction n as [|n IH]; [reflexivity | exact IH]. Qed.

(** Bytes other than the delimiter, on a channel that waits for a frame. *)
Lemma read_noise (noise : list Z) :
  forall (ch : channel) (rm : mavlink_message_t) (rs : mavlink_status_t),
  waits_for_frame ch -> noise_ok noise ->
  let res := read_bytes (mk_reader ch rm rs) noise in
  fst res = replicate (length noise) None /\
  waits_for_frame (rd_channel (snd res)) /\
  m_mavlink_message (rd_channel (snd res)) = m_mavlink_message ch /\
  armed (rd_channel (snd res)) = armed ch /\
  rd_message (snd res) = rm.
Proof.
  induction noise as [|c noise IH]; intros ch rm rs Hw Hn; cbv zeta.
  - cbn [read_bytes fst snd rd_channel rd_message length replicate]. tauto.
  - apply Forall_cons in Hn. destruct Hn as [Hc Hn].
    rewrite read_bytes_cons, read_idle_other by assumption. cbn [fst snd].
    destruct (armed_waits ch (m_mavlink_message ch) Hw) as [Hw' Ha].
    destruct (IH (mk_channel (armed ch) (m_mavlink_message ch)) rm
                (sync_status (armed ch) rs) Hw' Hn) as (H1 & H2 & H3 & H4 & H5).
    rewrite H1, H3, H4, H5, Ha. cbn [length replicate m_mavlink_message].
    repeat split; try reflexivity. exact H2.
Qed.

(** What a call hands out depends on the channel through [armed] and the
    message under reassembly, and on the caller through [r_message]. *)
Lemma read_byte_same (r r' : reader) (c : Z) :
  armed (rd_channel r) = armed (rd_channel r') ->
  m_mavlink_message (rd_channel r) = m_mavlink_message (rd_channel r') ->
  rd_message r = rd_message r' ->
  fst (read_byte r c) = fst (read_byte r' c) /\
  rd_channel (snd (read_byte r c)) = rd_channel (snd (read_byte r' c)) /\
  rd_message (snd (read_byte r c)) = rd_message (snd (read_byte r' c)).
Proof.
  intros Ha Hm Hr. unfold read_byte. rewrite !parse_char_unfold.
  rewrite Ha, Hm, Hr.
  destruct (parse_switch c (armed (rd_channel r')) (m_mavlink_message (rd_channel r'))
              (rd_message r')) as [[s1 rx1] rm1].
  projections. repeat split.
Qed.

Lemma read_bytes_same (bytes : list Z) : forall r r' : reader,
  armed (rd_channel r) = armed (rd_channel r') ->
  m_mavlink_message (rd_channel r) = m_mavlink_message (rd_channel r') ->
  rd_message r = rd_message r' ->
  fst (read_bytes r bytes) = fst (read_bytes r' bytes) /\
  rd_message (snd (read_bytes r bytes)) = rd_message (snd (read_bytes r' bytes)).
Proof.
  induction bytes as [|c bytes IH]; intros r r' Ha Hm Hr.
  - cbn [read_bytes fst snd]. split; [reflexivity | exact Hr].
  - rewrite !read_bytes_cons. cbn [fst snd].
    destruct (read_byte_same r r' c Ha Hm Hr) as (H1 & H2 & H3).
    destruct (IH (snd (read_byte r c)) (snd (read_byte r' c))) as [H4 H5];
      [rewrite H2; reflexivity | rewrite H2; reflexivity | exact H3 |].
    rewrite H1, H4, H5. split; reflexivity.
Qed.

(** X6: bytes before a frame that are not the delimiter are ignored.  On a
    channel that waits for a frame a run of such bytes hands out nothing,
    leaves the message under reassembly as it is and the channel waiting,
    and whatever follows is decoded as if the run had not been there. *)
Theorem noise_is_ignored (ch : channel) (rm : mavlink_message_t)
    (rs : mavlink_status_t) (noise bytes : list Z) :
  waits_for_frame ch -> noise_ok noise ->
  let r := mk_reader ch rm rs in
  fst (read_bytes r (noise ++ bytes))
    = replicate (length noise) None ++ fst (read_bytes r bytes) /\
  rd_message (snd (read_bytes r (noise ++ bytes)))
    = rd_message (snd (read_bytes r bytes)) /\
  m_mavlink_message (rd_channel (snd (read_bytes r noise)))
    = m_mavlink_message ch /\
  waits_for_frame (rd_channel (snd (read_bytes r noise))).
Proof.
  intros Hw Hn. cbv zeta.
  destruct (read_noise noise ch rm rs Hw Hn) as (H1 & H2 & H3 & H4 & H5).
  rewrite read_bytes_app. cbn [fst snd]. rewrite H1.
  destruct (read_bytes_same bytes (snd (read_bytes (mk_reader ch rm rs) noise))
              (mk_reader ch rm rs)) as [H6 H7];
    [exact H4 | exact H3 | exact H5 |].
  rewrite H6, H7. repeat split; assumption.
Qed.

Lemma read_byte_outcome (r : reader) (c : Z) :
  (fst (read_byte r c) = None /\
   rd_message (snd (read_byte r c)) = rd_message r) \/
  fst (read_byte r c) = Some (rd_message (snd (read_byte r c))).
Proof.
  unfold read_byte. rewrite parse_char_unfold.
  pose proof (parse_switch_outcome c (armed (rd_channel r))
                (m_mavlink_message (rd_channel r)) (rd_message r)
                (armed_msg_received (rd_channel r))) as H.
  destruct (parse_switch c (armed (rd_channel r))
              (m_mavlink_message (rd_channel r)) (rd_message r))
    as [[s1 rx1] rm1].
  cbn [fst snd] in H. projections. rewrite seq_accounting_msg_received.
  destruct H as [[H0 Hm]|(H1 & _)].
  - left. rewrite H0. split; [reflexivity | exact Hm].
  - right. rewrite H1. reflexivity.
Qed.

Lemma read_bytes_none_keeps (bytes : list Z) : forall r : reader,
  decoded (fst (read_bytes r bytes)) = [] ->
  rd_message (snd (read_bytes r bytes)) = rd_message r.
Proof.
  induction bytes as [|c bytes IH]; intros r; [reflexivity|].
  rewrite read_bytes_cons. cbn [fst snd].
  destruct (read_byte_outcome r c) as [[H0 Hm]|H1].
  - rewrite H0. intros Hd. rewrite IH by exact Hd. exact Hm.
  - rewrite H1. discriminate.
Qed.

(** X7: after any run of calls, on any channel, the caller's message is the
    last message that was handed out, or what the caller held before when
    none was.  Calls that return 0 never disturb a message decoded
    earlier. *)
Theorem caller_message_is_last_decoded (bytes : list Z) : forall r : reader,
  rd_message (snd (read_bytes r bytes))
    = default (rd_message r) (last (decoded (fst (read_bytes r bytes)))).
Proof.
  induction bytes as [|c bytes IH]; intros r; [reflexivity|].
  rewrite read_bytes_cons. cbn [fst snd]. rewrite IH.
  destruct (read_byte_outcome r c) as [[H0 Hm]|H1].
  - rewrite H0, Hm. reflexivity.
  - rewrite H1. unfold decoded. cbn [omap list_omap id].
    rewrite last_cons.
    destruct (last (omap id (fst (read_bytes (snd (read_byte r c)) bytes))));
      reflexivity.
Qed.

Lemma read_bytes_take (bytes : list Z) : forall (r : reader) (k : nat),
  fst (read_bytes r (take k bytes)) = take k (fst (read_bytes r bytes)).
Proof.
  induction bytes as [|c bytes IH]; intros r k.
  - rewrite take_nil. cbn [read_bytes fst]. rewrite take_nil. reflexivity.
  - destruct k as [|k]; [reflexivity|].
    cbn [take]. rewrite !read_bytes_cons. cbn [fst take]. rewrite IH.
    reflexivity.
Qed.

Lemma good_frame_length (L s sy co mi : Z) (pl : list Z) :
  length (good_frame L s sy co mi pl) = (8 + length pl)%nat.
Proof.
  unfold good_frame, wire_frame. cbn [length app].
  rewrite length_app. cbn [length]. lia.
Qed.

(** X8: a frame that has not arrived in full hands out nothing: every
    proper prefix of a well-formed frame, on a channel that waits for a
    frame, returns 0 byte after byte and leaves the caller's message as it
    was. *)
Theorem incomplete_frame_yields_nothing (ch : channel) (rm : mavlink_message_t)
    (rs : mavlink_status_t) (L s sy co mi : Z) (pl : list Z) (k : nat) :
  waits_for_frame ch ->
  Z.of_nat (length pl) = L -> L <= 255 ->
  length (payload (m_mavlink_message ch)) = 255%nat ->
  (k < length (good_frame L s sy co mi pl))%nat ->
  let res := read_bytes (mk_reader ch rm rs) (take k (good_frame L s sy co mi pl)) in
  fst res = replicate k None /\ decoded (fst res) = [] /\ rd_message (snd res) = rm.
Proof.
  intros Hw HL Hle Hp Hk. cbv zeta. rewrite good_frame_length in Hk.
  assert (Ht : fst (read_bytes (mk_reader ch rm rs)
                      (take k (good_frame L s sy co mi pl))) = replicate k None).
  { rewrite read_bytes_take, read_good_frame by assumption. cbn [fst].
    rewrite take_app_le by (rewrite length_replicate; lia).
    rewrite take_replicate. f_equal. lia. }
  split; [exact Ht|].
  assert (Hd : decoded (fst (read_bytes (mk_reader ch rm rs)
                               (take k (good_frame L s sy co mi pl)))) = [])
    by (rewrite Ht; apply decoded_replicate_none).
  split; [exact Hd|].
  rewrite read_bytes_none_keeps by exact Hd. reflexivity.
Qed.

Lemma accepted_parse_state (s : mavlink_status_t) (rx : mavlink_message_t) :
  parse_state (accepted s rx) = MAVLINK_PARSE_STATE_IDLE.
Proof.
  unfold accepted.
  destruct (seq_accounting_frame
              (with_parse_state MAVLINK_PARSE_STATE_IDLE (with_msg_received 1 s)) rx)
    as (_ & _ & H & _).
  rewrite H. reflexivity.
Qed.

Lemma accepted_success_count (s : mavlink_status_t) (rx : mavlink_message_t) :
  packet_rx_success_count (accepted s rx)
    = uint16_t (packet_rx_success_count s + 1).
Proof.
  unfold accepted, seq_accounting. generalize 256%nat. intros fuel.
  projections. cbn [Z.eqb Pos.eqb].
  pose proof (seq_loop_success_count fuel
                (with_parse_state MAVLINK_PARSE_STATE_IDLE (with_msg_received 1 s))
                (seq rx)) as Hl.
  branches; projections; rewrite Hl; reflexivity.
Qed.

Lemma carries_reassembled (ch : channel) (f : frame) :
  carries (reassembled ch (f_len f) (f_seq f) (f_sysid f) (f_compid f)
             (f_msgid f) (f_payload f)) f.
Proof.
  unfold carries, reassembled. projections.
  repeat split. apply take_app_length.
Qed.

(** A well-formed frame after noise, on a channel that waits for a frame. *)
Lemma read_noise_frame (ch : channel) (rm : mavlink_message_t)
    (rs : mavlink_status_t) (noise : list Z) (f : frame) :
  waits_for_frame ch ->
  length (payload (m_mavlink_message ch)) = 255%nat ->
  noise_ok noise -> frame_ok f ->
  let res := read_bytes (mk_reader ch rm rs) (noise ++ frame_bytes f) in
  let m := reassembled ch (f_len f) (f_seq f) (f_sysid f) (f_compid f)
             (f_msgid f) (f_payload f) in
  decoded (fst res) = [m] /\
  parse_state (m_mavlink_status (rd_channel (snd res))) = MAVLINK_PARSE_STATE_IDLE /\
  m_mavlink_message (rd_channel (snd res)) = m /\
  packet_rx_success_count (m_mavlink_status (rd_channel (snd res)))
    = uint16_t (packet_rx_success_count (armed ch) + 1).
Proof.
  intros Hw Hp Hn [HL Hle]. cbv zeta.
  destruct (read_noise noise ch rm rs Hw Hn) as (H1 & H2 & H3 & H4 & H5).
  rewrite read_bytes_app. cbn [fst snd]. rewrite H1.
  destruct (snd (read_bytes (mk_reader ch rm rs) noise)) as [ch1 rm1 rs1].
  cbn [rd_channel rd_message] in H2, H3, H4, H5.
  unfold frame_bytes.
  rewrite read_good_frame by (assumption || (rewrite H3; exact Hp)).
  cbn [fst snd rd_channel m_mavlink_status m_mavlink_message].
  rewrite decoded_app, decoded_replicate_none, decoded_last.
  rewrite accepted_parse_state, accepted_success_count, H4.
  unfold reassembled. rewrite H3.
  repeat split.
Qed.

Lemma read_stream (items : list (list Z * frame)) :
  forall (ch : channel) (rm : mavlink_message_t) (rs : mavlink_status_t) (n : Z),
  waits_for_frame ch ->
  length (payload (m_mavlink_message ch)) = 255%nat ->
  Forall (fun it => noise_ok (fst it) /\ frame_ok (snd it)) items ->
  let res := read_bytes (mk_reader ch rm rs) (stream items) in
  Forall2 carries (decoded (fst res)) (map snd items) /\
  waits_for_frame (rd_channel (snd res)) /\
  length (payload (m_mavlink_message (rd_channel (snd res)))) = 255%nat /\
  (packet_rx_success_count (armed ch) = uint16_t n ->
   packet_rx_success_count (armed (rd_channel (snd res)))
     = uint16_t (n + Z.of_nat (length items))) /\
  (rd_channel (snd res) = ch \/
   parse_state (m_mavlink_status (rd_channel (snd res)))
     = MAVLINK_PARSE_STATE_IDLE).
Proof.
  induction items as [|[noise f] items IH]; intros ch rm rs n Hw Hp Hok;
    cbv zeta.
  - cbn [stream map concat read_bytes fst snd rd_channel length].
    rewrite Z.add_0_r.
    split; [constructor | split; [exact Hw | split; [exact Hp | tauto]]].
  - apply Forall_cons in Hok. destruct Hok as [[Hno Hf] Hok].
    cbn [fst snd] in Hno, Hf.
    unfold stream. cbn [map concat fst snd]. fold (stream items).
    rewrite read_bytes_app. cbn [fst snd].
    destruct (read_noise_frame ch rm rs noise f Hw Hp Hno Hf)
      as (Hd & Hs & Hm & Hc).
    destruct (snd (read_bytes (mk_reader ch rm rs) (noise ++ frame_bytes f)))
      as [ch1 rm1 rs1].
    cbn [rd_channel] in Hs, Hm, Hc.
    destruct Hf as [HL Hle].
    destruct (IH ch1 rm1 rs1 (n + 1)) as (I1 & I2 & I3 & I4 & I5).
    + right. exact Hs.
    + rewrite Hm. apply reassembled_payload_length; [lia | exact Hp].
    + exact Hok.
    + rewrite decoded_app, Hd. cbn [app map snd length].
      split; [|split; [exact I2 | split; [exact I3 | split]]].
      * constructor; [apply carries_reassembled | exact I1].
      * intros Hn. rewrite I4.
        -- f_equal. lia.
        -- destruct (armed_idle_counters ch1 Hs) as (_ & Hx & _).
           rewrite Hx, Hc, Hn. unfold uint16_t. rewrite Zplus_mod_idemp_l.
           reflexivity.
      * right. destruct I5 as [E|E]; [rewrite E; exact Hs | exact E].
Qed.

(** X9: frames are decoded one after the other.  A stream of well-formed
    frames, each after any run of bytes that are not the delimiter, on a
    channel that waits for a frame, hands out one message per frame, in
    order, each with the header fields and the payload bytes of its frame;
    the channel waits for a frame again at the end. *)
Theorem frames_in_stream_all_decoded (items : list (list Z * frame))
    (ch : channel) (rm : mavlink_message_t) (rs : mavlink_status_t) :
  waits_for_frame ch ->
  length (payload (m_mavlink_message ch)) = 255%nat ->
  Forall (fun it => noise_ok (fst it) /\ frame_ok (snd it)) items ->
  let res := read_bytes (mk_reader ch rm rs) (stream items) in
  Forall2 carries (decoded (fst res)) (map snd items) /\
  length (decoded (fst res)) = length items /\
  waits_for_frame (rd_channel (snd res)).
Proof.
  intros Hw Hp Hok. cbv zeta.
  destruct (read_stream items ch rm rs 0 Hw Hp Hok) as (H1 & H2 & _).
  split; [exact H1 | split; [|exact H2]].
  apply Forall2_length in H1. rewrite H1, length_map. reflexivity.
Qed.

(** X10: the received count counts the frames.  After a stream of [n]
    well-formed frames, with bytes other than the delimiter between them,
    on a channel nobody has used, [packet_rx_success_count] is [n] modulo
    2^16. *)
Theorem success_count_counts_frames (items : list (list Z * frame))
    (rm : mavlink_message_t) (rs : mavlink_status_t) :
  Forall (fun it => noise_ok (fst it) /\ frame_ok (snd it)) items ->
  let res := read_bytes (mk_reader fresh_channel rm rs) (stream items) in
  packet_rx_success_count (m_mavlink_status (rd_channel (snd res)))
    = uint16_t (Z.of_nat (length items)).
Proof.
  intros Hok. cbv zeta.
  destruct (read_stream items fresh_channel rm rs 0 fresh_channel_waits
              fresh_channel_payload Hok) as (_ & _ & _ & H & Hst).
  rewrite Z.add_0_l in H.
  assert (H0 : packet_rx_success_count (armed fresh_channel) = uint16_t 0)
    by (rewrite fresh_channel_armed; reflexivity).
  rewrite <- (H H0). destruct Hst as [E|E].
  - rewrite E, fresh_channel_armed. reflexivity.
  - destruct (armed_idle_counters _ E) as (_ & Hx & _). symmetry. exact Hx.
Qed.

End ParserRuns.

Section FrameFacts.

Context {W : wire_params}.

(** X11: the parser does not clear the payload buffer of a channel.  The
    message decoded from a well-formed frame holds the payload bytes of the
    frame followed by what the channel buffer held before at those places:
    bytes beyond [len] are leftovers of earlier frames. *)
Theorem decoded_payload_tail_is_stale (ch : channel) (rm : mavlink_message_t)
    (rs : mavlink_status_t) (L s sy co mi : Z) (pl : list Z) :
  waits_for_frame ch ->
  Z.of_nat (length pl) = L -> L <= 255 ->
  length (payload (m_mavlink_message ch)) = 255%nat ->
  let res := read_bytes (mk_reader ch rm rs) (good_frame L s sy co mi pl) in
  exists m : mavlink_message_t,
    decoded (fst res) = [m] /\
    payload m = pl ++ drop (length pl) (payload (m_mavlink_message ch)) /\
    length (payload m) = 255%nat /\
    m_mavlink_message (rd_channel (snd res)) = m /\
    rd_message (snd res) = m.
Proof.
  intros Hw HL Hle Hp. cbv zeta.
  exists (reassembled ch L s sy co mi pl).
  rewrite read_good_frame by assumption.
  cbn [fst snd rd_channel rd_message m_mavlink_message].
  rewrite decoded_last.
  split; [reflexivity | split; [reflexivity | split; [|split; reflexivity]]].
  apply reassembled_payload_length; [lia | exact Hp].
Qed.

Lemma with_ck_same (m : mavlink_message_t) :
  with_ck_b (ck_b m) (with_ck_a (ck_a m) m) = m.
Proof. destruct m; reflexivity. Qed.

Lemma with_ck_twice (m : mavlink_message_t) (a b a' b' : Z) :
  with_ck_b b (with_ck_a a (with_ck_b b' (with_ck_a a' m)))
    = with_ck_b b (with_ck_a a m).
Proof. destruct m; reflexivity. Qed.

Lemma update_checksum_fold (bytes : list Z) :
  forall (m : mavlink_message_t) (acc : Z),
  0 <= acc < 65536 ->
  ck_a m = checksum_c0 acc -> ck_b m = checksum_c1 acc ->
  fold_left mavlink_update_checksum bytes m =
  with_ck_b (checksum_c1 (crc_fold acc bytes))
    (with_ck_a (checksum_c0 (crc_fold acc bytes)) m).
Proof.
  induction bytes as [|c bytes IH]; intros m acc Hacc Ha Hb.
  - cbn [fold_left]. unfold crc_fold. cbn [fold_left].
    rewrite <- Ha, <- Hb. symmetry. apply with_ck_same.
  - cbn [fold_left].
    rewrite (update_checksum_running m acc c Hacc Ha Hb).
    rewrite (IH _ (crcAccumulate c acc));
      [| apply crcAccumulate_range | reflexivity | reflexivity].
    rewrite with_ck_twice. reflexivity.
Qed.

(** X12: the running checksum of the parser is the checksum of the buffer.
    [mavlink_start_checksum] followed by one [mavlink_update_checksum] per
    byte leaves in [ck_a] and [ck_b] the low and the high byte of what
    [crc_calculate] gives on the same bytes, and touches no other field. *)
Theorem running_checksum_is_crc_calculate (m : mavlink_message_t)
    (bytes : list Z) :
  let m' := fold_left mavlink_update_checksum bytes (mavlink_start_checksum m) in
  let crc := crc_calculate bytes (Z.of_nat (length bytes)) in
  ck_a m' = checksum_c0 crc /\ ck_b m' = checksum_c1 crc /\
  checksum_s (ck_a m') (ck_b m') = crc /\
  with_ck_b (ck_b m) (with_ck_a (ck_a m) m') = m.
Proof.
  cbv zeta. unfold crc_calculate. rewrite Nat2Z.id, firstn_all.
  fold (crc_fold crcInit bytes).
  rewrite (update_checksum_fold bytes (mavlink_start_checksum m) crcInit
             crcInit_range eq_refl eq_refl).
  unfold mavlink_start_checksum. rewrite with_ck_twice. projections.
  split; [reflexivity | split; [reflexivity | split]].
  - apply checksum_s_split. apply crc_fold_range. apply crcInit_range.
  - rewrite with_ck_twice. apply with_ck_same.
Qed.

(** X13: what [finalize_message] covers.  The checksum is taken over the
    five header bytes it has just set, the message id and the first [length]
    payload bytes: two drafts with the same id and the same first [length]
    payload bytes get the same trailer, whatever their other fields and the
    rest of their payload hold.  The trailer is the one the parser's running
    checksum reaches on these bytes.  The payload is not touched, the
    counter advances by one modulo 256 and the call returns [length + 7]. *)
Theorem finalize_covers_header_and_prefix (d1 d2 rx : mavlink_message_t)
    (system_id component_id length static_seq : Z) :
  0 <= length <= 255 ->
  List.length (payload d1) = 255%nat -> List.length (payload d2) = 255%nat ->
  msgid d1 = msgid d2 ->
  take (Z.to_nat length) (payload d1) = take (Z.to_nat length) (payload d2) ->
  let r1 := finalize_message d1 system_id component_id length static_seq in
  let r2 := finalize_message d2 system_id component_id length static_seq in
  let m1 := fst (fst r1) in
  let rx' :=
    fold_left mavlink_update_checksum
      ([len m1; seq m1; sysid m1; compid m1; msgid m1]
         ++ take (Z.to_nat length) (payload m1))
      (mavlink_start_checksum rx) in
  ck_a m1 = ck_a (fst (fst r2)) /\ ck_b m1 = ck_b (fst (fst r2)) /\
  ck_a rx' = ck_a m1 /\ ck_b rx' = ck_b m1 /\
  payload m1 = payload d1 /\
  snd (fst r1) = uint8_t (static_seq + 1) /\
  snd r1 = length + 7.
Proof.
  intros Hn Hp1 Hp2 Hid Hpl. cbv zeta.
  rewrite (finalize_message_frame d1), (finalize_message_frame d2) by assumption.
  cbn [fst snd]. projections. rewrite Hid, Hpl.
  split; [reflexivity | split; [reflexivity|]].
  rewrite (update_checksum_fold _ (mavlink_start_checksum rx) crcInit
             crcInit_range eq_refl eq_refl).
  projections. repeat split.
Qed.

Lemma memcpy_length (n : nat) : forall (dst : list Z) (off : nat) (src : list Z),
  length (memcpy dst off src n) = length dst.
Proof.
  induction n as [|n IH]; intros dst off src; [reflexivity|].
  destruct src as [|b src]; [reflexivity|].
  cbn [memcpy]. rewrite IH, length_insert. reflexivity.
Qed.

Lemma memcpy_lookup_outside (n : nat) :
  forall (dst : list Z) (off : nat) (src : list Z) (i : nat),
  (i < off \/ off + n <= i)%nat ->
  memcpy dst off src n !! i = dst !! i.
Proof.
  induction n as [|n IH]; intros dst off src i Hi; [reflexivity|].
  destruct src as [|b src]; [reflexivity|].
  cbn [memcpy]. rewrite IH by lia.
  apply list_lookup_insert_ne. lia.
Qed.

(** X14: [message_to_send_buffer] writes the [len + 8] bytes of the frame
    at the front of the caller's buffer and nothing else: the buffer keeps
    its size, every byte from index [len + 8] on is what it was, and the
    returned length is the one [message_get_send_buffer_length] announces. *)
Theorem send_buffer_keeps_rest (buffer : list Z) (msg : mavlink_message_t) :
  0 <= len msg <= 255 -> length (payload msg) = 255%nat ->
  (Z.to_nat (len msg) + 8 <= length buffer)%nat ->
  let out := message_to_send_buffer buffer msg in
  length (fst out) = length buffer /\
  (forall i : nat, (Z.to_nat (len msg) + 8 <= i)%nat ->
                   fst out !! i = buffer !! i) /\
  snd out = message_get_send_buffer_length msg /\
  snd out = len msg + 8.
Proof.
  intros Hn Hp Hb. cbv zeta.
  split; [|split; [|split]].
  - unfold message_to_send_buffer. cbn [fst].
    rewrite !length_insert, memcpy_length, length_insert. reflexivity.
  - intros i Hi. unfold message_to_send_buffer. cbn [fst].
    unfold MAVLINK_CORE_HEADER_LEN.
    rewrite !list_lookup_insert_ne by lia.
    rewrite memcpy_lookup_outside by lia.
    apply list_lookup_insert_ne. lia.
  - apply send_buffer_length_agrees.
  - unfold message_to_send_buffer. cbn [snd].
    apply uint16_t_small. unfold MAVLINK_NUM_NON_PAYLOAD_BYTES. lia.
Qed.

End FrameFacts.

Section UartFacts.

Context {W : wire_params}.
Variable world : Type.
Variable comm_send_ch : Z -> Z -> world -> world.

Lemma send_payload_loop_bytes (fuel : nat) :
  forall (chan : Z) (msg : mavlink_message_t) (i : Z) (w : world),
  0 <= i <= len msg -> len msg <= 255 ->
  len msg - i <= Z.of_nat fuel ->
  (Z.to_nat (len msg) <= length (payload msg))%nat ->
  send_payload_loop world comm_send_ch fuel chan msg i w
    = send_all world comm_send_ch chan
        (drop (Z.to_nat i) (take (Z.to_nat (len msg)) (payload msg))) w.
Proof.
  induction fuel as [|fuel IH]; intros chan msg i w Hi Hl Hf Hp.
  - assert (i = len msg) by lia. subst i. cbn [send_payload_loop].
    rewrite drop_ge by (rewrite length_take; lia). reflexivity.
  - cbn [send_payload_loop]. destruct (Z.ltb_spec i (len msg)) as [Hlt|Hge].
    + destruct (lookup_lt_is_Some_2 (payload msg) (Z.to_nat i)) as [x Hx];
        [lia|].
      rewrite (drop_S _ x) by (rewrite lookup_take_lt by lia; exact Hx).
      rewrite Hx. cbn [default]. unfold send_all at 1. cbn [fold_left].
      rewrite uint16_t_small by lia.
      rewrite IH by (assumption || lia).
      replace (Z.to_nat (i + 1)) with (S (Z.to_nat i)) by lia. reflexivity.
    + assert (i = len msg) by lia. subst i.
      rewrite drop_ge by (rewrite length_take; lia). reflexivity.
Qed.

Lemma send_uart_bytes (chan : Z) (msg : mavlink_message_t) (w : world) :
  0 <= len msg <= 255 ->
  (Z.to_nat (len msg) <= length (payload msg))%nat ->
  mavlink_send_uart world comm_send_ch chan msg w
    = send_all world comm_send_ch chan
        (wire_frame (len msg) (seq msg) (sysid msg) (compid msg) (msgid msg)
           (take (Z.to_nat (len msg)) (payload msg)) (ck_a msg) (ck_b msg)) w.
Proof.
  intros Hl Hp. unfold mavlink_send_uart, wire_frame.
  rewrite send_payload_loop_bytes by (assumption || lia).
  change (Z.to_nat 0) with 0%nat. rewrite drop_0.
  unfold send_all at 2. cbn [fold_left app].
  rewrite fold_left_app. reflexivity.
Qed.

(** X15: [mavlink_send_uart] sends the frame byte by byte: the delimiter,
    the five header bytes, the first [len] payload bytes, then [ck_a] and
    [ck_b], in this order and nothing else.  These are the bytes that
    [message_to_send_buffer] puts into a buffer for the same message. *)
Theorem send_uart_sends_wire_frame (chan : Z) (msg : mavlink_message_t)
    (buffer : list Z) (w : world) :
  0 <= len msg <= 255 -> length (payload msg) = 255%nat ->
  (Z.to_nat (len msg) + 8 <= length buffer)%nat ->
  let out := message_to_send_buffer buffer msg in
  mavlink_send_uart world comm_send_ch chan msg w
    = send_all world comm_send_ch chan
        (wire_frame (len msg) (seq msg) (sysid msg) (compid msg) (msgid msg)
           (take (Z.to_nat (len msg)) (payload msg)) (ck_a msg) (ck_b msg)) w /\
  mavlink_send_uart world comm_send_ch chan msg w
    = send_all world comm_send_ch chan (take (Z.to_nat (snd out)) (fst out)) w.
Proof.
  intros Hl Hp Hb. cbv zeta.
  destruct (message_to_send_buffer_frame buffer msg Hl Hp Hb) as [_ Hw].
  rewrite Hw. split; apply send_uart_bytes; (assumption || lia).
Qed.

Lemma send_debug_string_prefix (chan : Z) (pre : list Z) :
  forall (rest : list Z) (w : world),
  Forall (fun c => c <> 0) pre ->
  send_debug_string world comm_send_ch chan (pre ++ rest) w
    = send_debug_string world comm_send_ch chan rest
        (send_all world comm_send_ch chan pre w).
Proof.
  induction pre as [|c pre IH]; intros rest w Hpre; [reflexivity|].
  apply Forall_cons in Hpre. destruct Hpre as [Hc Hpre].
  cbn [app send_debug_string].
  destruct (Z.eqb_spec c 0) as [E|_]; [contradiction|]. cbn [negb].
  rewrite IH by exact Hpre. reflexivity.
Qed.

(** X16: [send_debug_string] sends a C string without its terminator:
    every byte before the first zero byte, in order, and nothing of what
    follows it. *)
Theorem debug_string_stops_at_nul (chan : Z) (pre post : list Z) (w : world) :
  Forall (fun c => c <> 0) pre ->
  send_debug_string world comm_send_ch chan (pre ++ 0 :: post) w
    = send_all world comm_send_ch chan pre w.
Proof.
  intros Hpre. rewrite send_debug_string_prefix by exact Hpre. reflexivity.
Qed.

End UartFacts.

Section Pipeline.

Context {W : wire_params}.

Lemma send_all_line (chan : Z) (bytes : list Z) : forall line : list Z,
  send_all (list Z) line_send chan bytes line = line ++ bytes.
Proof.
  unfold send_all.
  induction bytes as [|b bytes IH]; intros line; cbn [fold_left].
  - rewrite app_nil_r. reflexivity.
  - rewrite IH. unfold line_send. rewrite <- app_assoc. reflexivity.
Qed.

(** X17: what goes out over the serial line comes back.  A message
    finalized by [finalize_message] and sent by [mavlink_send_uart] over a
    line that already carries bytes other than the delimiter is decoded, by
    a channel that waits for a frame, as exactly one message with the length,
    the sequence number, the ids, the first [length] payload bytes and the
    trailer of the message sent. *)
Theorem uart_line_roundtrip (draft : mavlink_message_t)
    (system_id component_id length static_seq chan : Z) (line : list Z)
    (ch : channel) (rm : mavlink_message_t) (rs : mavlink_status_t) :
  0 <= length <= 255 ->
  List.length (payload draft) = 255%nat ->
  waits_for_frame ch ->
  List.length (payload (m_mavlink_message ch)) = 255%nat ->
  noise_ok line ->
  let msg :=
    fst (fst (finalize_message draft system_id component_id length static_seq)) in
  let wire := mavlink_send_uart (list Z) line_send chan msg line in
  exists m : mavlink_message_t,
    decoded (fst (read_bytes (mk_reader ch rm rs) wire)) = [m] /\
    len m = length /\ seq m = static_seq /\ sysid m = system_id /\
    compid m = component_id /\ msgid m = msgid draft /\
    take (Z.to_nat length) (payload m) = take (Z.to_nat length) (payload draft) /\
    ck_a m = ck_a msg /\ ck_b m = ck_b msg.
Proof.
  intros Hn Hp Hw Hpc Hline. cbv zeta.
  rewrite finalize_message_frame by assumption. cbn [fst].
  rewrite send_uart_bytes by (projections; (assumption || lia)).
  rewrite send_all_line. projections.
  set (pl := take (Z.to_nat length) (payload draft)).
  assert (Hlen : List.length pl = Z.to_nat length)
    by (unfold pl; rewrite length_take; lia).
  set (f := mk_frame length static_seq system_id component_id (msgid draft) pl).
  assert (Hf : frame_ok f) by (unfold frame_ok, f; cbn; lia).
  destruct (read_noise_frame ch rm rs line f Hw Hpc Hline Hf) as (Hd & _).
  exists (reassembled ch length static_seq system_id component_id
            (msgid draft) pl).
  split; [exact Hd|]. unfold reassembled. projections.
  repeat split.
  rewrite <- Hlen. apply take_app_length.
Qed.

End Pipeline.

(** ** Field packing: the byte, the array and the cursor *)

Lemma signed_8_small (z : Z) : 0 <= z <= 127 -> signed 8 z = z.
Proof.
  intros H. unfold signed.
  change (2 ^ 8) with 256. change (2 ^ (8 - 1)) with 128.
  rewrite Z.mod_small by lia.
  destruct (Z.ltb_spec z 128); [reflexivity | lia].
Qed.

(** X18: [put_int8_by_index], for an index of 0 to 127 (the values its
    [int8_t] index parameter holds without change), stores the
    two's-complement byte of its value at [buffer[bindex]] and returns 1;
    [put_array_by_index], for a [uint8_t] index and length, copies the first
    [length] bytes of the array to [buffer[bindex ..]] and returns [length].
    Both leave the rest of the buffer as it is. *)
Theorem put_int8_and_array_stored (b bindex length : Z) (arr buffer : list Z) :
  0 <= bindex -> 0 <= length ->
  (bindex <= 127 ->
   (Z.to_nat bindex + 1 <= List.length buffer)%nat ->
   stored_big_endian (put_int8_by_index b bindex buffer) 1 b bindex buffer) /\
  (bindex <= 255 -> length <= 255 ->
   (Z.to_nat bindex + Z.to_nat length <= List.length buffer)%nat ->
   (Z.to_nat length <= List.length arr)%nat ->
   put_array_by_index arr length bindex buffer
   = (length,
      take (Z.to_nat bindex) buffer ++ take (Z.to_nat length) arr
        ++ drop (Z.to_nat bindex + Z.to_nat length) buffer)).
Proof.
  intros Hb Hl. split.
  - intros H127 Hn. unfold put_int8_by_index, stored_big_endian.
    rewrite signed_8_small by lia. cbn [fst snd].
    destruct (Z.leb_spec 0 bindex) as [_|Hneg]; [|lia].
    split; [reflexivity|].
    rewrite insert_take_drop by lia.
    cbn [be_bytes]. unfold uint8_t. rewrite Z.pow_0_r, Z.div_1_r.
    replace (S (Z.to_nat bindex)) with (Z.to_nat bindex + 1)%nat by lia.
    reflexivity.
  - intros _ _ Hn Ha. unfold put_array_by_index.
    rewrite memcpy_window by assumption. reflexivity.
Qed.

Lemma stored_after (pre mid new buffer : list Z) (k : nat) :
  (length pre + length mid)%nat = k ->
  (k + length new <= length buffer)%nat ->
  let b1 := pre ++ mid ++ drop k buffer in
  (k + length new <= length b1)%nat /\
  take k b1 ++ new ++ drop (k + length new) b1
    = pre ++ (mid ++ new) ++ drop (k + length new) buffer.
Proof.
  intros Hk Hb. cbv zeta. split.
  - rewrite !length_app, length_drop. lia.
  - rewrite (app_assoc pre mid).
    rewrite take_app_length' by (rewrite length_app; lia).
    rewrite drop_app_add' by (rewrite length_app; lia).
    rewrite drop_drop, <- !app_assoc. reflexivity.
Qed.

(** X19: packing with a cursor.  A 16-bit field, a 32-bit field and an
    array written one after the other, each at the index the sizes returned
    so far add up to, fill a contiguous window: the two integers most
    significant byte first, then the array bytes; the buffer is unchanged
    before and after the window, and the sizes add up to its length. *)
Theorem put_chain_with_cursor (a b n i : Z) (arr buffer : list Z) :
  0 <= i -> 0 <= n -> i + 6 + n <= 255 ->
  (Z.to_nat i + 6 + Z.to_nat n <= length buffer)%nat ->
  (Z.to_nat n <= length arr)%nat ->
  let r1 := put_uint16_t_by_index a i buffer in
  let r2 := put_uint32_t_by_index b (i + fst r1) (snd r1) in
  let r3 := put_array_by_index arr n (i + fst r1 + fst r2) (snd r2) in
  snd r3 = take (Z.to_nat i) buffer
             ++ (be_bytes 2 a ++ be_bytes 4 b ++ take (Z.to_nat n) arr)
             ++ drop (Z.to_nat i + 6 + Z.to_nat n) buffer /\
  fst r1 + fst r2 + fst r3 = 6 + n.
Proof.
  intros Hi Hn Hmax Hb Ha. cbv zeta.
  destruct (put_uint16_t_stored a i buffer Hi) as [F1 S1]; [lia|].
  rewrite F1, S1. change (Z.of_nat 2) with 2.
  destruct (stored_after (take (Z.to_nat i) buffer) (be_bytes 2 a)
              (be_bytes 4 b) buffer (Z.to_nat i + 2))
    as [L1 E1];
    [rewrite length_take, be_bytes_length; lia
    | rewrite be_bytes_length; lia |].
  rewrite be_bytes_length in L1, E1.
  destruct (put_uint32_t_stored b (i + 2)
              (take (Z.to_nat i) buffer ++ be_bytes 2 a
                 ++ drop (Z.to_nat i + 2) buffer)) as [F2 S2];
    [lia | replace (Z.to_nat (i + 2)) with (Z.to_nat i + 2)%nat by lia; exact L1 |].
  rewrite F2, S2. change (Z.of_nat 4) with 4.
  replace (Z.to_nat (i + 2)) with (Z.to_nat i + 2)%nat by lia.
  rewrite E1.
  replace (Z.to_nat i + 2 + 4)%nat with (Z.to_nat i + 6)%nat by lia.
  destruct (stored_after (take (Z.to_nat i) buffer) (be_bytes 2 a ++ be_bytes 4 b)
              (take (Z.to_nat n) arr) buffer (Z.to_nat i + 6))
    as [L2 E2];
    [rewrite length_take, length_app, !be_bytes_length; lia
    | rewrite length_take; lia |].
  rewrite length_take in L2, E2.
  replace (Z.to_nat n `min` length arr)%nat with (Z.to_nat n) in L2, E2 by lia.
  unfold put_array_by_index. cbn [fst snd].
  split; [|lia].
  rewrite memcpy_window;
    [| replace (Z.to_nat (i + 2 + 4)) with (Z.to_nat i + 6)%nat by lia; exact L2
     | exact Ha].
  replace (Z.to_nat (i + 2 + 4)) with (Z.to_nat i + 6)%nat by lia.
  rewrite E2, <- !app_assoc. reflexivity.
Qed.

Section CorruptedFrames.

Context {W : wire_params}.



End CorruptedFrames.

Section SequenceNumbers.

Context {W : wire_params}.

Lemma finalize_message_seq (draft : mavlink_message_t)
    (system_id component_id length static_seq : Z) :
  seq (fst (fst (finalize_message draft system_id component_id length static_seq)))
    = static_seq /\
  snd (fst (finalize_message draft system_id component_id length static_seq))
    = uint8_t (static_seq + 1).
Proof. unfold finalize_message. projections. split; reflexivity. Qed.

(** X21: one sequence number per call.  Messages finalized one after the
    other carry consecutive sequence numbers that wrap from 255 to 0: the
    [k]-th call after the counter was [s] stamps [(s + k) mod 256], whatever
    the drafts and lengths are, and after [n] calls the counter is
    [(s + n) mod 256]. *)
Theorem finalize_stamps_consecutive_seq (drafts : list (mavlink_message_t * Z)) :
  forall system_id component_id static_seq : Z,
  0 <= static_seq < 256 ->
  let out := finalize_each drafts system_id component_id static_seq in
  length (fst out) = length drafts /\
  (forall (k : nat) (m : mavlink_message_t),
     fst out !! k = Some m -> seq m = (static_seq + Z.of_nat k) mod 256) /\
  snd out = (static_seq + Z.of_nat (length drafts)) mod 256.
Proof.
  induction drafts as [|[draft len0] drafts IH];
    intros system_id component_id static_seq Hs; cbv zeta.
  - cbn [finalize_each fst snd length]. split; [reflexivity | split].
    + intros k m Hk. rewrite lookup_nil in Hk. discriminate.
    + rewrite Z.add_0_r, Z.mod_small by exact Hs. reflexivity.
  - cbn [finalize_each].
    destruct (finalize_message_seq draft system_id component_id len0 static_seq)
      as [Hq Hc].
    destruct (finalize_message draft system_id component_id len0 static_seq)
      as [[msg s1] ret].
    cbn [fst snd] in Hq, Hc.
    destruct (IH system_id component_id s1) as (I1 & I2 & I3);
      [rewrite Hc; apply uint8_t_range|].
    destruct (finalize_each drafts system_id component_id s1) as [msgs s2].
    cbn [fst snd] in I1, I2, I3. cbn [fst snd length].
    split; [rewrite I1; reflexivity | split].
    + intros [|k] m Hk.
      * cbn in Hk. injection Hk as <-.
        rewrite Hq, Z.add_0_r, Z.mod_small by exact Hs. reflexivity.
      * cbn in Hk. rewrite (I2 k m Hk), Hc. unfold uint8_t.
        rewrite Zplus_mod_idemp_l. f_equal. lia.
    + rewrite I3, Hc. unfold uint8_t. rewrite Zplus_mod_idemp_l. f_equal. lia.
Qed.

End SequenceNumbers.

(** ** Concrete runs of the further properties *)

Ltac no_delimiter :=
  unfold noise_ok;
  repeat (first [apply List.Forall_nil | apply List.Forall_cons]);
  vm_compute; discriminate.

Lemma demo_stream_ok :
  Forall (fun it => noise_ok (fst it) /\ frame_ok (snd it)) demo_stream.
Proof.
  unfold demo_stream.
  repeat (first [apply List.Forall_nil
                | apply List.Forall_cons; [cbn [fst snd]; split|]]);
    try no_delimiter;
    (split; [reflexivity | vm_compute; discriminate]).
Qed.

Lemma counters_move_only_on_events_witness :
  channel_started in_trailer /\
  (let res := mavlink_parse_char in_trailer 1 zero_message zero_status in
   returned res = 0 ->
   packet_rx_success_count (m_mavlink_status (chan_after res))
     = packet_rx_success_count (m_mavlink_status in_trailer) /\
   packet_rx_drop_count (m_mavlink_status (chan_after res))
     = packet_rx_drop_count (m_mavlink_status in_trailer) /\
   current_seq (m_mavlink_status (chan_after res))
     = current_seq (m_mavlink_status in_trailer)).
Proof.
  assert (H : channel_started in_trailer) by (vm_compute; split; discriminate).
  split; [exact H|].
  exact (proj1 (proj2 (counters_move_only_on_events in_trailer 1 zero_message
                         zero_status H))).
Defined.

Lemma loss_loop_terminates_witness :
  seq_loop 300 counting_status 9 = seq_loop 255 counting_status 9 /\
  packet_rx_drop_count (seq_loop 300 counting_status 9) = 6 /\
  current_seq (seq_loop 300 counting_status 9) = 9.
Proof.
  destruct (loss_loop_terminates 300 counting_status 9) as [H1 H2];
    [vm_compute; split; [discriminate | reflexivity]
    | lia
    | vm_compute; split; [discriminate | reflexivity]
    | lia |].
  split; [exact H1 | rewrite H2; split; reflexivity].
Defined.

Lemma noise_is_ignored_witness :
  fst (read_bytes demo_reader ([1; 2; 3] ++ good_frame 0 5 1 1 0 []))
    = replicate 3 None ++ fst (read_bytes demo_reader (good_frame 0 5 1 1 0 [])).
Proof.
  refine (proj1 (noise_is_ignored fresh_channel zero_message zero_status
                   [1; 2; 3] (good_frame 0 5 1 1 0 []) fresh_channel_waits _)).
  no_delimiter.
Defined.

Lemma incomplete_frame_yields_nothing_witness :
  let res := read_bytes demo_reader (take 9 (good_frame 2 7 1 1 0 [9; 8])) in
  fst res = replicate 9 None /\ decoded (fst res) = [] /\
  rd_message (snd res) = zero_message.
Proof.
  apply (incomplete_frame_yields_nothing fresh_channel zero_message zero_status
           2 7 1 1 0 [9; 8] 9);
    [ exact fresh_channel_waits | reflexivity | lia
    | exact fresh_channel_payload | vm_compute; lia ].
Defined.

Lemma frames_in_stream_all_decoded_witness :
  let res := read_bytes demo_reader (stream demo_stream) in
  Forall2 carries (decoded (fst res)) (map snd demo_stream) /\
  length (decoded (fst res)) = 2%nat /\
  waits_for_frame (rd_channel (snd res)).
Proof.
  apply (frames_in_stream_all_decoded demo_stream fresh_channel zero_message
           zero_status);
    [ exact fresh_channel_waits | exact fresh_channel_payload
    | exact demo_stream_ok ].
Defined.

Lemma success_count_counts_frames_witness :
  packet_rx_success_count
    (m_mavlink_status
       (rd_channel (snd (read_bytes demo_reader (stream demo_stream))))) = 2.
Proof.
  exact (success_count_counts_frames demo_stream zero_message zero_status
           demo_stream_ok).
Defined.

Lemma decoded_payload_tail_is_stale_witness :
  exists m : mavlink_message_t,
    decoded (fst (read_bytes (mk_reader used_channel zero_message zero_status)
                    (good_frame 2 7 1 1 0 [9; 8]))) = [m] /\
    payload m = [9; 8] ++ replicate 253 7.
Proof.
  destruct (decoded_payload_tail_is_stale used_channel zero_message zero_status
              2 7 1 1 0 [9; 8]) as (m & Hd & Hp & _);
    [ right; reflexivity | reflexivity | lia | reflexivity | ].
  exists m. split; [exact Hd | exact Hp].
Defined.

Lemma finalize_covers_header_and_prefix_witness :
  ck_a (fst (fst (finalize_message demo_draft 1 1 4 0)))
    = ck_a (fst (fst (finalize_message stale_draft 1 1 4 0))) /\
  ck_b (fst (fst (finalize_message demo_draft 1 1 4 0)))
    = ck_b (fst (fst (finalize_message stale_draft 1 1 4 0))).
Proof.
  destruct (finalize_covers_header_and_prefix demo_draft stale_draft zero_message
              1 1 4 0) as (Ha & Hb & _);
    [ lia | reflexivity | reflexivity | reflexivity | reflexivity | ].
  split; [exact Ha | exact Hb].
Defined.

Lemma send_buffer_keeps_rest_witness :
  let out := message_to_send_buffer (replicate 14 7) (with_len 4 demo_draft) in
  length (fst out) = 14%nat /\ fst out !! 12%nat = Some 7 /\ snd out = 12.
Proof.
  destruct (send_buffer_keeps_rest (replicate 14 7) (with_len 4 demo_draft))
    as (H1 & H2 & _ & H4);
    [ vm_compute; split; discriminate | reflexivity | vm_compute; lia | ].
  split; [exact H1 | split; [|exact H4]].
  apply (H2 12%nat). vm_compute. lia.
Defined.

Lemma send_uart_sends_wire_frame_witness :
  mavlink_send_uart (list Z) line_send 0 (with_len 4 demo_draft) []
    = [85; 4; 0; 0; 0; 0; 1; 2; 3; 4; 0; 0].
Proof.
  refine (proj1 (send_uart_sends_wire_frame (list Z) line_send 0
                   (with_len 4 demo_draft) (replicate 12 0) [] _ _ _));
    [ vm_compute; split; discriminate | reflexivity | vm_compute; lia ].
Defined.

Lemma debug_string_stops_at_nul_witness :
  send_debug_string (list Z) line_send 0 ([72; 105] ++ 0 :: [33]) [] = [72; 105].
Proof.
  refine (debug_string_stops_at_nul (list Z) line_send 0 [72; 105] [33] [] _).
  repeat (first [apply List.Forall_nil | apply List.Forall_cons]); discriminate.
Defined.

Lemma uart_line_roundtrip_witness :
  let msg := fst (fst (finalize_message demo_draft 1 1 4 0)) in
  let wire := mavlink_send_uart (list Z) line_send 0 msg [1; 2; 3] in
  exists m : mavlink_message_t,
    decoded (fst (read_bytes (mk_reader used_channel zero_message zero_status)
                    wire)) = [m] /\
    len m = 4 /\ sysid m = 1 /\ take 4 (payload m) = [1; 2; 3; 4].
Proof.
  destruct (uart_line_roundtrip demo_draft 1 1 4 0 0 [1; 2; 3] used_channel
              zero_message zero_status)
    as (m & Hd & Hl & _ & Hs & _ & _ & Hp & _);
    [ lia | reflexivity | right; reflexivity | reflexivity
    | no_delimiter | ].
  exists m. split; [exact Hd | split; [exact Hl | split; [exact Hs | exact Hp]]].
Defined.

Lemma put_int8_and_array_stored_witness :
  put_int8_by_index (-1) 1 [0; 0; 0; 0] = (1, [0; 255; 0; 0]) /\
  put_array_by_index [7; 8; 9] 2 1 [0; 0; 0; 0] = (2, [0; 7; 8; 0]).
Proof.
  destruct (put_int8_and_array_stored (-1) 1 2 [7; 8; 9] [0; 0; 0; 0])
    as [H1 H2]; [lia | lia |].
  split.
  - destruct H1 as [F S]; [lia | vm_compute; lia |].
    rewrite (surjective_pairing (put_int8_by_index (-1) 1 [0; 0; 0; 0])).
    rewrite F, S. reflexivity.
  - apply H2; [lia | lia | vm_compute; lia | vm_compute; lia].
Defined.

Lemma put_chain_with_cursor_witness :
  let r1 := put_uint16_t_by_index 258 1 (replicate 10 0) in
  let r2 := put_uint32_t_by_index 1 (1 + fst r1) (snd r1) in
  let r3 := put_array_by_index [7; 8] 2 (1 + fst r1 + fst r2) (snd r2) in
  snd r3 = [0; 1; 2; 0; 0; 0; 1; 7; 8; 0] /\ fst r1 + fst r2 + fst r3 = 8.
Proof.
  apply (put_chain_with_cursor 258 1 2 1 [7; 8] (replicate 10 0));
    [ lia | lia | lia | vm_compute; lia | vm_compute; lia ].
Defined.


Lemma finalize_stamps_consecutive_seq_witness :
  map seq (fst (finalize_each [(demo_draft, 4); (stale_draft, 4); (demo_draft, 0)]
                  1 1 255)) = [255; 0; 1] /\
  snd (finalize_each [(demo_draft, 4); (stale_draft, 4); (demo_draft, 0)] 1 1 255)
    = 2.
Proof.
  destruct (finalize_stamps_consecutive_seq
              [(demo_draft, 4); (stale_draft, 4); (demo_draft, 0)] 1 1 255)
    as (_ & _ & H3); [lia|].
  split; [reflexivity | exact H3].
Defined.
